(** * workday-cal: schedule parser and ICS serializer

    A shallow embedding of the parser (src/js/parser.js), the calendar
    generator (src/js/calendar.js), the two term classifiers
    (app module and src/js/calendar-view.js), the course list of the app
    module (course map, term groups, selection, time display) and the term
    groups of the weekly grid, with the properties of the specification
    and further properties of the code stated over it.

    Conventions of the embedding.
    - A JavaScript string is a [string]; its characters are the code units
      below 256.  Characters beyond that range (the en and em dash of the
      course pattern, Unicode spaces) are outside the alphabet of the model.
    - [undefined], [null] and absent properties are [None]; a value is
      truthy when it is [Some] of a non-empty string.
    - A JavaScript number is [num]: [NaN] or an exact integer.
    - A thrown [TypeError] is [None] in the result of a fallible function.
    - The wall clock is explicit: a function from the number of readings
      made so far to the reading that the next call of [Date.now] or
      [new Date()] returns, with the count threaded through the code.
    - The time zone of the host is explicit: a [JSDate.Zone] gives the
      offset of local time at an instant and at a local time, and the code
      that builds or reads a local date takes it as a parameter. *)

From Stdlib Require Import ZArith List Bool Ascii String Lia.
Import ListNotations.

Open Scope string_scope.
Open Scope Z_scope.

(** ** Runtime primitives *)

Module JS.

(** Truthiness of an optional string: [undefined], [null] and the empty
    string are falsy. *)
Definition truthy (o : option string) : bool :=
  match o with
  | Some (String _ _) => true
  | _ => false
  end.

(** [a || b] on optional strings. *)
Definition or_else (a b : option string) : option string :=
  if truthy a then a else b.

Definition code (c : ascii) : N := N_of_ascii c.

Definition LF : ascii := ascii_of_N 10.
Definition CR : ascii := ascii_of_N 13.

(** WhiteSpace and LineTerminator code units below 256; this is the set of
    [String.prototype.trim] and of the pattern class [\s]. *)
Definition is_space (c : ascii) : bool :=
  let n := code c in
  ((9 <=? n) && (n <=? 13) || (n =? 32) || (n =? 160))%N.

Definition is_digit (c : ascii) : bool :=
  let n := code c in ((48 <=? n) && (n <=? 57))%N.

Definition is_upper (c : ascii) : bool :=
  let n := code c in ((65 <=? n) && (n <=? 90))%N.

Definition is_lower (c : ascii) : bool :=
  let n := code c in ((97 <=? n) && (n <=? 122))%N.

Definition is_alnum (c : ascii) : bool :=
  is_digit c || is_upper c || is_lower c.

Fixpoint rev_string (s acc : string) : string :=
  match s with
  | EmptyString => acc
  | String c s' => rev_string s' (String c acc)
  end.

Fixpoint trimStart (s : string) : string :=
  match s with
  | String c s' => if is_space c then trimStart s' else s
  | EmptyString => EmptyString
  end.

Definition trimEnd (s : string) : string :=
  rev_string (trimStart (rev_string s "")) "".

Definition trim (s : string) : string := trimEnd (trimStart s).

(** [s.startsWith(p)]. *)
Fixpoint startsWith (s p : string) {struct p} : bool :=
  match p with
  | EmptyString => true
  | String a p' =>
      match s with
      | EmptyString => false
      | String b s' => Ascii.eqb a b && startsWith s' p'
      end
  end.

(** [s.includes(p)]. *)
Fixpoint includes (s p : string) : bool :=
  if startsWith s p then true
  else match s with
       | EmptyString => false
       | String _ s' => includes s' p
       end.

(** [s.split(c)] for a one-character separator: never empty. *)
Fixpoint split (sep : ascii) (s : string) : list string :=
  match s with
  | EmptyString => [EmptyString]
  | String c s' =>
      if Ascii.eqb c sep then EmptyString :: split sep s'
      else match split sep s' with
           | x :: xs => String c x :: xs
           | [] => [String c EmptyString]
           end
  end.

(** [xs.join(sep)]. *)
Fixpoint join (sep : string) (xs : list string) : string :=
  match xs with
  | [] => EmptyString
  | [x] => x
  | x :: rest => x ++ sep ++ join sep rest
  end.

(** [s.toLowerCase()] on the alphabet of the model: the ASCII capitals and
    the Latin-1 capitals other than the multiplication sign. *)
Definition lower_char (c : ascii) : ascii :=
  let n := code c in
  if ((65 <=? n) && (n <=? 90) ||
      (192 <=? n) && (n <=? 222) && negb (n =? 215))%N
  then ascii_of_N (n + 32) else c.

Fixpoint toLowerCase (s : string) : string :=
  match s with
  | EmptyString => EmptyString
  | String c s' => String (lower_char c) (toLowerCase s')
  end.

(** [s.replace(c, '')] with a one-character string pattern: only the first
    occurrence is removed. *)
Fixpoint remove_first (c : ascii) (s : string) : string :=
  match s with
  | EmptyString => EmptyString
  | String d s' => if Ascii.eqb d c then s' else String d (remove_first c s')
  end.

(** [s.replace(/class/g, r)]: every character of the class is replaced. *)
Fixpoint replace_class (p : ascii -> bool) (r : string) (s : string) : string :=
  match s with
  | EmptyString => EmptyString
  | String c s' =>
      if p c then r ++ replace_class p r s' else String c (replace_class p r s')
  end.

(** Numbers: [NaN] or an exact integer. *)
Inductive num : Type :=
| NaN
| Int (z : Z).

Definition digit_val (c : ascii) : Z := Z.of_N (code c) - 48.

Fixpoint all_digits (s : string) : bool :=
  match s with
  | EmptyString => true
  | String c s' => is_digit c && all_digits s'
  end.

Fixpoint digits_value (acc : Z) (s : string) : Z :=
  match s with
  | EmptyString => acc
  | String c s' => digits_value (10 * acc + digit_val c) s'
  end.

(** [Number(s)] on the numeric literals the program meets: surrounding white
    space is dropped, the empty string is 0 and a run of decimal digits is
    its value.  The other literal forms of the language (sign, fraction,
    exponent, radix prefix, Infinity) are outside the domain of the model and
    read as [NaN] here. *)
Definition Number (s : string) : num :=
  let t := trim s in
  if all_digits t then Int (digits_value 0 t) else NaN.

Definition digit_char (d : Z) : ascii := ascii_of_N (Z.to_N (48 + d)).

Fixpoint digits_of (fuel : nat) (n : Z) (acc : string) : string :=
  let acc' := String (digit_char (n mod 10)) acc in
  match fuel with
  | O => acc'
  | S f => if n / 10 =? 0 then acc' else digits_of f (n / 10) acc'
  end.

Definition nat_string (n : Z) : string :=
  digits_of (Z.to_nat (Z.log2 n)) n "".

(** [n.toString()] and the template-literal conversion of a number. *)
Definition toString (n : num) : string :=
  match n with
  | NaN => "NaN"
  | Int z => if z <? 0 then "-" ++ nat_string (- z) else nat_string z
  end.

Fixpoint repeat_char (c : ascii) (n : nat) : string :=
  match n with
  | O => EmptyString
  | S k => String c (repeat_char c k)
  end.

(** [s.padStart(n, c)] with a one-character filler. *)
Definition padStart (n : nat) (c : ascii) (s : string) : string :=
  repeat_char c (n - String.length s) ++ s.

End JS.

(** ** Regular expressions

    The patterns of the program are kept as syntax and run by a backtracking
    matcher that lists the ways a pattern matches a prefix of the input in
    the priority order of the language (alternatives left to right, greedy
    repetition longest first, lazy repetition shortest first).  The first
    entry at the leftmost starting position is the match of
    [String.prototype.match]. *)

Module Regex.

Inductive re : Type :=
| Chr (p : ascii -> bool)
| Eps
| Seq (r1 r2 : re)
| Alt (r1 r2 : re)
| Star (greedy : bool) (r : re)
| Group (n : nat) (r : re).

Definition caps : Type := list (nat * string).

(** One way of matching: the text consumed, the text left, the groups. *)
Definition way : Type := (string * string * caps)%type.

Definition after (m1 : string) (w : way) : way :=
  let '(m2, rest, c) := w in (m1 ++ m2, rest, c).

(** Repetition: an iteration that consumes nothing is rejected, so the
    length of the input bounds the number of iterations. *)
Fixpoint star_ways (fuel : nat) (step : string -> caps -> list way)
    (greedy : bool) (s : string) (c : caps) : list way :=
  match fuel with
  | O => [(EmptyString, s, c)]
  | S f =>
      let more :=
        flat_map (fun w : way =>
                    let '(m1, rest1, c1) := w in
                    match m1 with
                    | EmptyString => []
                    | String _ _ =>
                        map (after m1) (star_ways f step greedy rest1 c1)
                    end)
                 (step s c) in
      if greedy then more ++ [(EmptyString, s, c)]
      else (EmptyString, s, c) :: more
  end.

Fixpoint ways (r : re) (s : string) (c : caps) : list way :=
  match r with
  | Chr p =>
      match s with
      | String a s' => if p a then [(String a EmptyString, s', c)] else []
      | EmptyString => []
      end
  | Eps => [(EmptyString, s, c)]
  | Seq r1 r2 =>
      flat_map (fun w : way =>
                  let '(m1, rest1, c1) := w in
                  map (after m1) (ways r2 rest1 c1))
               (ways r1 s c)
  | Alt r1 r2 => ways r1 s c ++ ways r2 s c
  | Star g r0 => star_ways (String.length s) (ways r0) g s c
  | Group n r0 =>
      map (fun w : way => let '(m, rest, c1) := w in (m, rest, (n, m) :: c1))
          (ways r0 s c)
  end.

(** Leftmost match: the whole match and the groups. *)
Fixpoint exec (r : re) (s : string) : option (string * caps) :=
  match ways r s [] with
  | (m, _, c) :: _ => Some (m, c)
  | [] =>
      match s with
      | EmptyString => None
      | String _ s' => exec r s'
      end
  end.

Fixpoint group (n : nat) (c : caps) : option string :=
  match c with
  | [] => None
  | (k, v) :: c' => if Nat.eqb k n then Some v else group n c'
  end.

(** [/^r/.test(s)]: a match at the start of the text. *)
Definition test_at_start (r : re) (s : string) : bool :=
  match ways r s [] with
  | [] => false
  | _ :: _ => true
  end.

(** [s.replace(/r/g, by)]: the matches are replaced from left to right; an
    empty match steps over one character. *)
Fixpoint replace_all (fuel : nat) (r : re) (by_ : string) (s : string) : string :=
  match fuel with
  | O => s
  | S f =>
      match ways r s [] with
      | (String _ _, rest, _) :: _ => by_ ++ replace_all f r by_ rest
      | (EmptyString, _, _) :: _ =>
          match s with
          | EmptyString => by_
          | String a s' => by_ ++ String a (replace_all f r by_ s')
          end
      | [] =>
          match s with
          | EmptyString => EmptyString
          | String a s' => String a (replace_all f r by_ s')
          end
      end
  end.

Definition replace (r : re) (by_ : string) (s : string) : string :=
  replace_all (S (String.length s)) r by_ s.

(** Pattern syntax. *)
Definition lit_char (a : ascii) : re := Chr (Ascii.eqb a).

Fixpoint lit (s : string) : re :=
  match s with
  | EmptyString => Eps
  | String a EmptyString => lit_char a
  | String a s' => Seq (lit_char a) (lit s')
  end.

Definition plus (r : re) : re := Seq r (Star true r).
Definition plus_lazy (r : re) : re := Seq r (Star false r).
Definition opt (r : re) : re := Alt r Eps.

Fixpoint seqs (rs : list re) : re :=
  match rs with
  | [] => Eps
  | [r] => r
  | r :: rest => Seq r (seqs rest)
  end.

Definition digit : re := Chr JS.is_digit.
Definition space : re := Chr JS.is_space.
Definition spaces : re := Star true space.
(** [.]: any character but a line terminator. *)
Definition dot : re :=
  Chr (fun a => negb (Ascii.eqb a JS.LF || Ascii.eqb a JS.CR)).

End Regex.

(** ** Dates

    A valid [Date] is kept as its time value: the milliseconds from
    1970-01-01T00:00:00Z.  The dates the program builds from local fields
    and reads through local accessors pass through the time zone of the
    host, which is a parameter of the model; the clock is read in UTC.  The
    field accessors follow the day, year, month and date functions of the
    language definition.  [None] is the invalid date. *)

Module JSDate.

Definition DayFromYear (y : Z) : Z :=
  365 * (y - 1970) + (y - 1969) / 4 - (y - 1901) / 100 + (y - 1601) / 400.

Definition InLeapYear (y : Z) : bool :=
  if negb (y mod 4 =? 0) then false
  else if negb (y mod 100 =? 0) then true
  else y mod 400 =? 0.

Definition leap_days (y : Z) : Z := if InLeapYear y then 1 else 0.

(** The largest year that starts on or before day [d]: an estimate from the
    mean length of the year, corrected by one where needed. *)
Definition YearFromDay (d : Z) : Z :=
  let y0 := 1970 + (400 * d) / 146097 in
  if d <? DayFromYear y0 then y0 - 1
  else if DayFromYear (y0 + 1) <=? d then y0 + 1
  else y0.

Definition DayWithinYear (d : Z) : Z := d - DayFromYear (YearFromDay d).

(** Day within the year on which month [m] (0 to 11) starts. *)
Definition month_start (m : Z) (l : Z) : Z :=
  if m <=? 0 then 0
  else if m =? 1 then 31
  else if m =? 2 then 59 + l
  else if m =? 3 then 90 + l
  else if m =? 4 then 120 + l
  else if m =? 5 then 151 + l
  else if m =? 6 then 181 + l
  else if m =? 7 then 212 + l
  else if m =? 8 then 243 + l
  else if m =? 9 then 273 + l
  else if m =? 10 then 304 + l
  else 334 + l.

(** The month (0 to 11) of day [dy] of a year with [l] leap days. *)
Definition month_in_year (dy l : Z) : Z :=
  if dy <? 31 then 0
  else if dy <? 59 + l then 1
  else if dy <? 90 + l then 2
  else if dy <? 120 + l then 3
  else if dy <? 151 + l then 4
  else if dy <? 181 + l then 5
  else if dy <? 212 + l then 6
  else if dy <? 243 + l then 7
  else if dy <? 273 + l then 8
  else if dy <? 304 + l then 9
  else if dy <? 334 + l then 10
  else 11.

Definition MonthFromDay (d : Z) : Z :=
  month_in_year (DayWithinYear d) (leap_days (YearFromDay d)).

Definition DateFromDay (d : Z) : Z :=
  DayWithinYear d
  - month_start (MonthFromDay d) (leap_days (YearFromDay d)) + 1.

Definition WeekDay (d : Z) : Z := (d + 4) mod 7.

(** [MakeDay(year, month, date)]: the month may lie outside 0..11 and the
    date outside the month; both carry over. *)
Definition MakeDay (year month date : Z) : Z :=
  let ym := year + month / 12 in
  let mn := month mod 12 in
  DayFromYear ym + month_start mn (leap_days ym) + date - 1.

(** Time values count milliseconds from the epoch, in UTC. *)
Definition msPerDay : Z := 86400000.
Definition Day (t : Z) : Z := t / msPerDay.
Definition TimeWithinDay (t : Z) : Z := t mod msPerDay.
Definition HourFromTime (t : Z) : Z := (t / 3600000) mod 24.
Definition MinFromTime (t : Z) : Z := (t / 60000) mod 60.
Definition SecFromTime (t : Z) : Z := (t / 1000) mod 60.

(** [MakeDate(day, time)] *)
Definition MakeDate (day time : Z) : Z := day * msPerDay + time.

(** Range of the time value. *)
Definition TimeClip (t : Z) : option Z :=
  if Z.abs t <=? 8640000000000000 then Some t else None.

(** The time zone of the host, as the language definition leaves it to the
    implementation: [LocalTZA t true] is the offset of local time from UTC,
    in milliseconds, at the instant [t]; [LocalTZA t false] is the offset
    with which the local time value [t] is read (where the zone skips [t],
    the offset before the transition). *)
Class Zone : Type := { LocalTZA : Z -> bool -> Z }.

Definition date : Type := option Z.

Section Local.

Context {zone : Zone}.

Definition LocalTime (t : Z) : Z := t + LocalTZA t true.

Definition UTC (t : Z) : Z := t - LocalTZA t false.

(** The local calendar day of an instant. *)
Definition LocalDay (t : Z) : Z := Day (LocalTime t).

(** [new Date(year, month, day)]: local midnight of the day; a year from 0
    to 99 counts from 1900. *)
Definition make (year month day : JS.num) : date :=
  match year, month, day with
  | JS.Int y, JS.Int m, JS.Int d =>
      let yr := if (0 <=? y) && (y <=? 99) then 1900 + y else y in
      TimeClip (UTC (MakeDate (MakeDay yr m d) 0))
  | _, _, _ => None
  end.

(** The local fields of a date. *)
Definition lift (f : Z -> Z) (t : date) : JS.num :=
  match t with
  | Some tv => JS.Int (f (LocalDay tv))
  | None => JS.NaN
  end.

Definition getFullYear : date -> JS.num := lift YearFromDay.
Definition getMonth : date -> JS.num := lift MonthFromDay.
Definition getDate : date -> JS.num := lift DateFromDay.
Definition getDay : date -> JS.num := lift WeekDay.

(** [t.setDate(n)]: the day [n] of the local month of [t], at the local
    time of day of [t]. *)
Definition setDate (t : date) (n : JS.num) : date :=
  match t, n with
  | Some tv, JS.Int k =>
      let lt := LocalTime tv in
      TimeClip
        (UTC (MakeDate (MakeDay (YearFromDay (Day lt)) (MonthFromDay (Day lt)) k)
                       (TimeWithinDay lt)))
  | _, _ => None
  end.

End Local.

End JSDate.

(** ** Data model *)

Inductive Weekday : Type := MO | TU | WE | TH | FR | SA | SU.

Definition day_code (d : Weekday) : string :=
  match d with
  | MO => "MO" | TU => "TU" | WE => "WE" | TH => "TH"
  | FR => "FR" | SA => "SA" | SU => "SU"
  end.

Record StudentInfo : Type := mkStudent {
  s_name : string;
  s_id : string;
  s_term : string
}.

(** A meeting; an absent field is [None], an absent [days] array is kept as
    the empty list (every reader of [days] in the embedded code treats the
    two alike). *)
Record Meeting : Type := mkMeeting {
  startDate : option string;
  endDate : option string;
  days : list Weekday;
  startTime : option string;
  endTime : option string;
  location : option string
}.

Record Course : Type := mkCourse {
  student : option StudentInfo;
  code : string;
  name : option string;
  section : option string;
  credits : option string;
  instructor : option string;
  format : option string;
  delivery : option string;
  status : option string;
  c_startDate : option string;
  c_endDate : option string;
  meetings : list Meeting
}.

Record Event : Type := mkEvent {
  uid : string;
  summary : string;
  description : string;
  ev_location : option string;
  dtstart : option string;
  dtend : option string;
  rrule : option string;
  categories : string;
  ev_status : string
}.

(** ** Calendar generation (src/js/calendar.js) *)

Module Calendar.

Section Host.

(** The time zone of the host, read by [new Date(y, m, d)] and by the
    local accessors of a date. *)
Context {zone : JSDate.Zone}.

Definition prodId : string := "UBC Workday Calendar Converter".

Definition backslash : ascii := "\"%char.
Definition CRLF : string := String JS.CR (String JS.LF EmptyString).

(** The string of a template-literal hole: an absent value prints as
    [undefined] (the model does not tell [null] from [undefined]; the parser
    leaves none of the printed fields [null]). *)
Definition show (o : option string) : string :=
  match o with
  | Some s => s
  | None => "undefined"
  end.

Definition pad2 (n : JS.num) : string := JS.padStart 2 "0" (JS.toString n).

Definition succ (n : JS.num) : JS.num :=
  match n with
  | JS.Int z => JS.Int (z + 1)
  | JS.NaN => JS.NaN
  end.

Definition formatDate (d : JSDate.date) : string :=
  let year := JSDate.getFullYear d in
  let month := pad2 (succ (JSDate.getMonth d)) in
  let day := pad2 (JSDate.getDate d) in
  JS.toString year ++ month ++ day.

Definition dayMap (d : Weekday) : Z :=
  match d with
  | MO => 1 | TU => 2 | WE => 3 | TH => 4 | FR => 5 | SA => 6 | SU => 0
  end.

(** [targetDays.sort((a, b) => a - b)]. *)
Fixpoint insert_sorted (x : Z) (l : list Z) : list Z :=
  match l with
  | [] => [x]
  | y :: l' => if x <=? y then x :: l else y :: insert_sorted x l'
  end.

Fixpoint sort (l : list Z) : list Z :=
  match l with
  | [] => []
  | x :: l' => insert_sorted x (sort l')
  end.

(** The loop over the target days; [Z.rem] is the [%] of the language. *)
Fixpoint first_offset (startDayOfWeek : Z) (targetDays : list Z)
    (daysToAdd : Z) : Z :=
  match targetDays with
  | [] => daysToAdd
  | targetDay :: rest =>
      let diff := Z.rem (targetDay - startDayOfWeek + 7) 7 in
      if (diff =? 0) || (startDayOfWeek =? targetDay) then 0
      else if (daysToAdd =? 0) || (diff <? daysToAdd)
           then first_offset startDayOfWeek rest diff
           else first_offset startDayOfWeek rest daysToAdd
  end.

Definition part (i : nat) (parts : list string) : JS.num :=
  match nth_error parts i with
  | Some p => JS.Number p
  | None => JS.NaN
  end.

Definition pred (n : JS.num) : JS.num :=
  match n with
  | JS.Int z => JS.Int (z - 1)
  | JS.NaN => JS.NaN
  end.

Definition plus (a : JS.num) (k : Z) : JS.num :=
  match a with
  | JS.Int z => JS.Int (z + k)
  | JS.NaN => JS.NaN
  end.

Definition getFirstOccurrence (startDate : option string) (days : list Weekday)
    (time : option string) : option string :=
  match startDate, days, time with
  | Some (String _ _ as sd), _ :: _, Some (String _ _ as tm) =>
      let parts := JS.split "-" sd in
      let baseDate :=
        JSDate.make (part 0 parts) (pred (part 1 parts)) (part 2 parts) in
      let firstDate :=
        match baseDate with
        | Some base =>
            let targetDays := sort (map dayMap days) in
            let startDayOfWeek := JSDate.WeekDay (JSDate.LocalDay base) in
            let daysToAdd := first_offset startDayOfWeek targetDays 0 in
            JSDate.setDate baseDate (plus (JSDate.getDate baseDate) daysToAdd)
        | None =>
            (* every step of the loop computes with NaN and the date stays
               invalid *)
            None
        end in
      let dateStr := formatDate firstDate in
      let timeStr := JS.remove_first ":" tm in
      Some (dateStr ++ "T" ++ timeStr ++ "00")
  | _, _, _ => None
  end.

Definition buildRRule (meeting : Meeting) : option string :=
  match endDate meeting, days meeting with
  | Some (String _ _ as ed), _ :: _ =>
      let until := JS.replace_class (Ascii.eqb "-") "" ed ++ "T235959" in
      let byDay := JS.join "," (map day_code (days meeting)) in
      Some ("FREQ=WEEKLY;UNTIL=" ++ until ++ ";BYDAY=" ++ byDay)
  | _, _ => None
  end.

Definition generateUID (timestamp : Z) (course : Course) (meeting : Meeting)
    : string :=
  let courseId := JS.replace_class JS.is_space "" (code course) in
  let meetingId :=
    JS.replace_class (fun c => negb (JS.is_alnum c)) ""
      (show (startDate meeting) ++ "-" ++ JS.join "" (map day_code (days meeting))) in
  courseId ++ "-" ++ meetingId ++ "-" ++ JS.toString (JS.Int timestamp)
  ++ "@workday-cal".

(** The separator of [lines.join('\\n')]: a backslash and the letter n. *)
Definition description_separator : string :=
  String backslash (String "n" EmptyString).

Definition buildDescription (course : Course) : string :=
  let line (label : string) (o : option string) : list string :=
    if JS.truthy o then [label ++ show o] else [] in
  JS.join description_separator
    (List.concat
       [ if JS.truthy (name course)
         then ["Course: " ++ code course ++ " - " ++ show (name course)]
         else [];
         line "Section: " (section course);
         line "Instructor: " (instructor course);
         line "Credits: " (credits course);
         line "Format: " (format course);
         line "Delivery: " (delivery course);
         line "Status: " (status course) ]).

Definition escapeText (text : string) : string :=
  JS.replace_class (Ascii.eqb JS.CR) ""
    (JS.replace_class (Ascii.eqb JS.LF) (String backslash "n")
       (JS.replace_class (Ascii.eqb ",") (String backslash ",")
          (JS.replace_class (Ascii.eqb ";") (String backslash ";")
             (JS.replace_class (Ascii.eqb backslash)
                (String backslash (String backslash "")) text)))).

(** One reading of the clock per call: the [n]-th call of [Date.now()] or
    [new Date()] sees [clock n]. *)
Definition Clock : Type := nat -> Z.

(** The event object that [createRecurringEvents] builds. *)
Definition recurring_event (timestamp : Z) (course : Course)
    (meeting : Meeting) : Event :=
  {| uid := generateUID timestamp course meeting;
     summary := code course ++ " - " ++ show (name course);
     description := buildDescription course;
     ev_location := location meeting;
     dtstart := getFirstOccurrence (startDate meeting) (days meeting)
                  (startTime meeting);
     dtend := getFirstOccurrence (startDate meeting) (days meeting)
                (endTime meeting);
     rrule := buildRRule meeting;
     categories := if JS.truthy (format course)
                   then show (format course) else "Lecture";
     ev_status := "CONFIRMED" |}.

Definition createRecurringEvents (clock : Clock) (t : nat) (course : Course)
    (meeting : Meeting) : list Event * nat :=
  match days meeting with
  | [] => ([], t)
  | _ :: _ => ([recurring_event (clock t) course meeting], S t)
  end.

Fixpoint meeting_events (clock : Clock) (t : nat) (course : Course)
    (ms : list Meeting) : list Event * nat :=
  match ms with
  | [] => ([], t)
  | m :: rest =>
      let '(e1, t1) := createRecurringEvents clock t course m in
      let '(e2, t2) := meeting_events clock t1 course rest in
      ((e1 ++ e2)%list, t2)
  end.

Fixpoint course_events (clock : Clock) (t : nat) (courses : list Course)
    : list Event * nat :=
  match courses with
  | [] => ([], t)
  | c :: rest =>
      let '(e1, t1) := meeting_events clock t c (meetings c) in
      let '(e2, t2) := course_events clock t1 rest in
      ((e1 ++ e2)%list, t2)
  end.

Definition getCurrentTimestamp (now : Z) : string :=
  let d := JSDate.Day now in
  let year := JS.toString (JS.Int (JSDate.YearFromDay d)) in
  let month := pad2 (JS.Int (JSDate.MonthFromDay d + 1)) in
  let day := pad2 (JS.Int (JSDate.DateFromDay d)) in
  let hours := pad2 (JS.Int (JSDate.HourFromTime now)) in
  let minutes := pad2 (JS.Int (JSDate.MinFromTime now)) in
  let seconds := pad2 (JS.Int (JSDate.SecFromTime now)) in
  year ++ month ++ day ++ "T" ++ hours ++ minutes ++ seconds ++ "Z".

Definition header_lines : list string :=
  [ "BEGIN:VCALENDAR"; "VERSION:2.0"; "PRODID:-//" ++ prodId ++ "//EN";
    "CALSCALE:GREGORIAN"; "METHOD:PUBLISH";
    "X-WR-CALNAME:UBC Course Schedule";
    "X-WR-CALDESC:Course schedule imported from UBC Workday";
    "X-WR-TIMEZONE:America/Vancouver";
    "BEGIN:VTIMEZONE"; "TZID:America/Vancouver";
    "BEGIN:DAYLIGHT"; "TZOFFSETFROM:-0800"; "TZOFFSETTO:-0700"; "TZNAME:PDT";
    "DTSTART:20250309T020000"; "RRULE:FREQ=YEARLY;BYMONTH=3;BYDAY=2SU";
    "END:DAYLIGHT";
    "BEGIN:STANDARD"; "TZOFFSETFROM:-0700"; "TZOFFSETTO:-0800"; "TZNAME:PST";
    "DTSTART:20251102T020000"; "RRULE:FREQ=YEARLY;BYMONTH=11;BYDAY=1SU";
    "END:STANDARD"; "END:VTIMEZONE" ].

(** The lines of one event that passed the [dtstart]/[dtend] test. *)
Definition event_lines (now : Z) (event : Event) (ds de : string)
    : list string :=
  List.concat
    [ [ "BEGIN:VEVENT";
        "UID:" ++ uid event;
        "DTSTAMP:" ++ getCurrentTimestamp now;
        "DTSTART;TZID=America/Vancouver:" ++ ds;
        "DTEND;TZID=America/Vancouver:" ++ de ];
      if JS.truthy (rrule event) then ["RRULE:" ++ show (rrule event)] else [];
      [ "SUMMARY:" ++ escapeText (summary event) ];
      if JS.truthy (Some (description event))
      then ["DESCRIPTION:" ++ escapeText (description event)] else [];
      if JS.truthy (ev_location event)
      then ["LOCATION:" ++ escapeText (show (ev_location event))] else [];
      if JS.truthy (Some (categories event))
      then ["CATEGORIES:" ++ categories event] else [];
      [ "STATUS:" ++ (if JS.truthy (Some (ev_status event))
                      then ev_status event else "CONFIRMED");
        "END:VEVENT" ] ].

Fixpoint events_lines (clock : Clock) (t : nat) (events : list Event)
    : list string :=
  match events with
  | [] => []
  | event :: rest =>
      if JS.truthy (dtstart event) && JS.truthy (dtend event)
      then (event_lines (clock t) event (show (dtstart event))
              (show (dtend event))
            ++ events_lines clock (S t) rest)%list
      else events_lines clock t rest
  end.

(** The [lines] array of [buildICSContent]. *)
Definition ics_lines (clock : Clock) (t : nat) (events : list Event)
    : list string :=
  (header_lines ++ events_lines clock t events ++ ["END:VCALENDAR"])%list.

Definition buildICSContent (clock : Clock) (t : nat) (events : list Event)
    : string :=
  JS.join CRLF (ics_lines clock t events).

(** The events and the lines of one call of [generateICS]. *)
Definition generated_events (clock : Clock) (courses : list Course)
    : list Event :=
  fst (course_events clock 0 courses).

Definition generated_lines (clock : Clock) (courses : list Course)
    : list string :=
  let '(events, t) := course_events clock 0 courses in
  ics_lines clock t events.

Definition generateICS (clock : Clock) (courses : list Course) : string :=
  let '(events, t) := course_events clock 0 courses in
  buildICSContent clock t events.

End Host.

End Calendar.

(** ** Schedule parser (src/js/parser.js) *)

Module Parser.

Import Regex.

(** A cell of the grid: [null] or its display text. *)
Definition Cell : Type := option string.
Definition Row : Type := list Cell.

(** [row[i]]: [undefined] beyond the end of the row. *)
Definition cell (row : Row) (i : nat) : Cell :=
  match nth_error row i with
  | Some c => c
  | None => None
  end.

Definition headerRow : nat := 6.
Definition dataStartRow : nat := 7.

Definition criticalHeaders : list string := ["Drop"; "Credits"; "Grading"].

(** [headers.filter(h => h)]. *)
Fixpoint truthy_cells (cells : Row) : list string :=
  match cells with
  | [] => []
  | Some (String _ _ as s) :: rest => s :: truthy_cells rest
  | _ :: rest => truthy_cells rest
  end.

Definition validateHeaders (headers : Row) : bool :=
  if (List.length headers <? 5)%nat then false
  else
    let headerString := JS.toLowerCase (JS.join " " (truthy_cells headers)) in
    forallb (fun header => JS.includes headerString (JS.toLowerCase header))
            criticalHeaders.

(** [/(.+?)\s*\((\d+)\)\s*-\s*(.+)/] *)
Definition studentInfo_re : re :=
  seqs [ Group 1 (plus_lazy dot); spaces; lit "("; Group 2 (plus digit);
         lit ")"; spaces; lit "-"; spaces; Group 3 (plus dot) ].

Definition parseStudentInfo (text : string) : option StudentInfo :=
  match exec studentInfo_re text with
  | Some (_, c) =>
      match group 1 c, group 2 c, group 3 c with
      | Some g1, Some g2, Some g3 =>
          Some {| s_name := JS.trim g1; s_id := g2; s_term := JS.trim g3 |}
      | _, _, _ => None
      end
  | None => None
  end.

(** [/([^(]+)\((\d+)\)/], the pattern of the row loop. *)
Definition studentMatch_re : re :=
  seqs [ Group 1 (plus (Chr (fun a => negb (Ascii.eqb a "("))));
         lit "("; Group 2 (plus digit); lit ")" ].

(** [/(\d{4}-\d{2}-\d{2})\s*-\s*(\d{4}-\d{2}-\d{2})/] *)
Definition isoDate_re : re :=
  seqs [ digit; digit; digit; digit; lit "-"; digit; digit; lit "-";
         digit; digit ].

Definition dateRange_re : re :=
  seqs [ Group 1 isoDate_re; spaces; lit "-"; spaces; Group 2 isoDate_re ].

(** [/(\d{1,2}:\d{2})\s*(a\.m\.|p\.m\.)\s*-\s*(\d{1,2}:\d{2})\s*(a\.m\.|p\.m\.)/] *)
Definition clock_re : re :=
  seqs [ digit; opt digit; lit ":"; digit; digit ].

Definition period_re : re := Alt (lit "a.m.") (lit "p.m.").

Definition timeRange_re : re :=
  seqs [ Group 1 clock_re; spaces; Group 2 period_re; spaces; lit "-"; spaces;
         Group 3 clock_re; spaces; Group 4 period_re ].

(** [/([A-Z]+)_V\s+(\d+)\s*[-...]\s*(.+)/]; of the three dashes of the class
    only the hyphen lies in the alphabet of the model. *)
Definition courseListing_re : re :=
  seqs [ Group 1 (plus (Chr JS.is_upper)); lit "_V"; plus space;
         Group 2 (plus digit); spaces; lit "-"; spaces; Group 3 (plus dot) ].

Definition dayNames : list (string * Weekday) :=
  [ ("Mon", MO); ("Tue", TU); ("Wed", WE); ("Thu", TH); ("Fri", FR);
    ("Sat", SA); ("Sun", SU) ].

Definition parseDays (daysStr : string) : list Weekday :=
  match daysStr with
  | EmptyString => []
  | _ =>
      map snd (filter (fun e => JS.includes daysStr (fst e)) dayNames)
  end.

(** [None] is the [TypeError] of [minutes.toString()] when the time holds
    no colon. *)
Definition convertTo24Hour (time period : string) : option string :=
  let parts := map JS.Number (JS.split ":" time) in
  let hours := nth 0 parts JS.NaN in
  let is12 := match hours with JS.Int 12 => true | _ => false end in
  let hour24 :=
    if JS.includes period "p.m." && negb is12 then Calendar.plus hours 12
    else if JS.includes period "a.m." && is12 then JS.Int 0
    else hours in
  match nth_error parts 1 with
  | Some minutes =>
      Some (Calendar.pad2 hour24 ++ ":" ++ Calendar.pad2 minutes)
  | None => None
  end.

Definition parseLocation (locationStr : string) : string :=
  match locationStr with
  | EmptyString => EmptyString
  | _ =>
      JS.trim
        (replace (plus space) " "
           (replace (Seq (lit "Room:") spaces) "Room "
              (replace (Seq (lit "Floor:") spaces) "Floor " locationStr)))
  end.

(** One line of the meeting-pattern cell: no meeting, one meeting, or the
    error of a time conversion. *)
Definition parseMeetingLine (line : string) : option (list Meeting) :=
  let parts := map JS.trim (JS.split "|" line) in
  match parts with
  | dateRange :: days :: timeRange :: more =>
      let location := JS.join " | " more in
      match exec dateRange_re dateRange, exec timeRange_re timeRange with
      | Some (_, dc), Some (_, tc) =>
          match convertTo24Hour (Calendar.show (group 1 tc))
                                (Calendar.show (group 2 tc)),
                convertTo24Hour (Calendar.show (group 3 tc))
                                (Calendar.show (group 4 tc)) with
          | Some st, Some et =>
              Some [ {| startDate := group 1 dc;
                        endDate := group 2 dc;
                        days := parseDays days;
                        startTime := Some st;
                        endTime := Some et;
                        location := Some (parseLocation location) |} ]
          | _, _ => None
          end
      | _, _ => Some []
      end
  | _ => Some []
  end.

(** [pattern.split('\n').filter(line => line.trim())] *)
Definition pattern_lines (pattern : string) : list string :=
  filter (fun line => JS.truthy (Some (JS.trim line))) (JS.split JS.LF pattern).

Fixpoint parseMeetingLines (lines : list string) : option (list Meeting) :=
  match lines with
  | [] => Some []
  | line :: rest =>
      match parseMeetingLine line with
      | Some ms =>
          match parseMeetingLines rest with
          | Some ms' => Some (ms ++ ms')%list
          | None => None
          end
      | None => None
      end
  end.

Definition parseMeetingPatterns (pattern : string) : option (list Meeting) :=
  match pattern with
  | EmptyString => Some []
  | _ => parseMeetingLines (pattern_lines pattern)
  end.

Section WithDateParser.

(** The text forms [new Date(text)] accepts beyond the ISO form are left to
    each engine; [date_parse text] is the day part of its ISO rendering when
    the engine reads [text] as a valid date. *)
Variable date_parse : string -> option string.

(** [/^\d{4}-\d{2}-\d{2}/] *)
Definition parseDate (dateStr : string) : option string :=
  match dateStr with
  | EmptyString => None
  | _ =>
      if test_at_start isoDate_re dateStr
      then Some (nth 0 (JS.split " " dateStr) EmptyString)
      else date_parse dateStr
  end.

(** [columnMap[name]]: the last header whose trimmed text is [name]. *)
Fixpoint columnMap_from (i : nat) (headers : Row) (name : string)
    (found : option nat) : option nat :=
  match headers with
  | [] => found
  | h :: rest =>
      columnMap_from (S i) rest name
        (match h with
         | Some (String _ _ as header) =>
             match JS.trim header with
             | EmptyString => found
             | t => if String.eqb t name then Some i else found
             end
         | _ => found
         end)
  end.

Definition columnMap (headers : Row) (name : string) : option nat :=
  columnMap_from 0 headers name None.

(** [row[pos] || row[columnMap[name]]] *)
Definition field (row headers : Row) (pos : nat) (name : string) : Cell :=
  JS.or_else (cell row pos)
    (match columnMap headers name with
     | Some i => cell row i
     | None => None
     end).

Definition parseCourseRow (row headers : Row) (studentInfo : option StudentInfo)
    : option Course :=
  let student :=
    match cell row 0, studentInfo with
    | Some (String _ _ as c0), None =>
        if JS.includes c0 " - " && JS.includes c0 "("
        then parseStudentInfo c0 else studentInfo
    | _, _ => studentInfo
    end in
  let '(code, name) :=
    match cell row 1 with
    | Some (String _ _ as courseListing) =>
        match exec courseListing_re (JS.trim courseListing) with
        | Some (_, c) =>
            (Calendar.show (group 1 c) ++ " " ++ Calendar.show (group 2 c),
             JS.trim (Calendar.show (group 3 c)))
        | None => (EmptyString, EmptyString)
        end
    | _ => (EmptyString, EmptyString)
    end in
  let text (c : Cell) : option string := JS.or_else c (Some EmptyString) in
  let meetingPattern := text (field row headers 10 "Meeting Patterns") in
  let startDate := field row headers 12 "Start Date" in
  let endDate := field row headers 13 "End Date" in
  match parseMeetingPatterns (Calendar.show meetingPattern) with
  | Some meetings =>
      Some {| student := student;
              code := code;
              name := Some name;
              section := text (field row headers 6 "Section");
              credits := text (field row headers 4 "Credits");
              instructor := text (field row headers 11 "Instructor");
              format := text (field row headers 8 "Instructional Format");
              delivery := text (field row headers 9 "Delivery Mode");
              status := text (field row headers 7 "Registration Status");
              c_startDate :=
                if JS.truthy startDate
                then parseDate (Calendar.show startDate) else None;
              c_endDate :=
                if JS.truthy endDate
                then parseDate (Calendar.show endDate) else None;
              meetings := meetings |}
  | None => None
  end.

(** The student label of the row loop. *)
Definition row_student (row : Row) (currentStudent : option StudentInfo)
    : option StudentInfo :=
  match cell row 0 with
  | Some (String _ _ as c0) =>
      if JS.includes c0 "(" && JS.includes c0 ")" then
        match exec studentMatch_re c0 with
        | Some (_, c) =>
            Some {| s_name := JS.trim (Calendar.show (group 1 c));
                    s_id := Calendar.show (group 2 c);
                    s_term := "Current Term" |}
        | None => currentStudent
        end
      else currentStudent
  | _ => currentStudent
  end.

(** One turn of the row loop: the student carried on and the course the row
    adds, if any; [None] when the row parser throws. *)
Definition parse_row (row headers : Row) (currentStudent : option StudentInfo)
    : option (option StudentInfo * list Course) :=
  match row with
  | [] => Some (currentStudent, [])
  | _ =>
      let currentStudent := row_student row currentStudent in
      match cell row 1 with
      | Some (String _ _ as cellValue) =>
          if JS.includes cellValue "_V " then
            match parseCourseRow row headers currentStudent with
            | Some course =>
                match code course with
                | EmptyString => Some (currentStudent, [])
                | _ => Some (currentStudent, [course])
                end
            | None => None
            end
          else Some (currentStudent, [])
      | _ => Some (currentStudent, [])
      end
  end.

Fixpoint parse_rows (rows : list Row) (headers : Row)
    (currentStudent : option StudentInfo)
    : option (option StudentInfo * list Course) :=
  match rows with
  | [] => Some (currentStudent, [])
  | row :: rest =>
      match parse_row row headers currentStudent with
      | Some (st, cs) =>
          match parse_rows rest headers st with
          | Some (st', cs') => Some (st', (cs ++ cs')%list)
          | None => None
          end
      | None => None
      end
  end.

(** The outcome of [parseExcel]: the courses or the message of the error it
    throws; the wording of a [TypeError] is the engine's own and is left
    out. *)
Inductive outcome : Type :=
| Courses (courses : list Course)
| Failed (message : option string).

(** [parseExcel] from the decoded grid [jsonData] on. *)
Definition parseExcel (jsonData : list Row) : outcome :=
  if (List.length jsonData <? dataStartRow)%nat then
    Failed (Some ("Failed to parse file: "
                  ++ "Invalid file format: insufficient data rows"))
  else
    let headers := nth (headerRow - 1) jsonData [] in
    if negb (validateHeaders headers) then
      Failed (Some ("Failed to parse file: " ++
        "Invalid file format: expected UBC Workday course schedule format"))
    else
      match parse_rows (skipn (dataStartRow - 1) jsonData) headers None with
      | Some (_, courses) => Courses courses
      | None => Failed None
      end.

End WithDateParser.

End Parser.

(** ** Term classification *)

Inductive TermLabel : Type :=
| WinterFullYear | WinterTerm1 | WinterTerm2
| SummerTerm1 | SummerTerm2 | SummerFullTerm | Other.

Definition term_label (t : TermLabel) : string :=
  match t with
  | WinterFullYear => "Winter Full Year"
  | WinterTerm1 => "Winter Term 1"
  | WinterTerm2 => "Winter Term 2"
  | SummerTerm1 => "Summer Term 1"
  | SummerTerm2 => "Summer Term 2"
  | SummerFullTerm => "Summer Full Term"
  | Other => "Other"
  end.

Module Terms.

Definition is_hex (c : ascii) : bool :=
  let n := JS.code c in
  (JS.is_digit c || (65 <=? n) && (n <=? 70) || (97 <=? n) && (n <=? 102))%N.

Definition hex_val (c : ascii) : Z :=
  let n := Z.of_N (JS.code c) in
  if JS.is_digit c then n - 48 else if n <=? 70 then n - 55 else n - 87.

(** The value of the longest prefix of digits, [None] when it is empty. *)
Fixpoint prefix_value (p : ascii -> bool) (v : ascii -> Z) (radix : Z)
    (acc : option Z) (s : string) : option Z :=
  match s with
  | String c s' =>
      if p c
      then prefix_value p v radix
             (Some (radix * match acc with Some a => a | None => 0 end + v c)) s'
      else acc
  | EmptyString => acc
  end.

(** [parseInt(x)] without a radix: leading white space, a sign, the [0x]
    prefix of hexadecimal text, then the longest run of digits. *)
Definition parseInt (x : option string) : JS.num :=
  match x with
  | None => JS.NaN
  | Some s =>
      let t := JS.trimStart s in
      let '(sign, u) :=
        match t with
        | String "-" r => (-1, r)
        | String "+" r => (1, r)
        | _ => (1, t)
        end in
      let value :=
        match u with
        | String "0" (String "x" r) | String "0" (String "X" r) =>
            prefix_value is_hex hex_val 16 None r
        | _ => prefix_value JS.is_digit JS.digit_val 10 None u
        end in
      match value with
      | Some v => JS.Int (sign * v)
      | None => JS.NaN
      end
  end.

(** Comparisons with a number literal: false on [NaN]. *)
Definition ge (n : JS.num) (k : Z) : bool :=
  match n with JS.Int z => k <=? z | JS.NaN => false end.

Definition le (n : JS.num) (k : Z) : bool :=
  match n with JS.Int z => z <=? k | JS.NaN => false end.

(** [date.split('-')[1]] parsed as a number. *)
Definition month_of (date : string) : JS.num :=
  parseInt (nth_error (JS.split "-" date) 1).

(** The cascade on the two months shared by the course-level step of both
    classifiers and by the meeting-level step of the list display. *)
Definition month_cascade (startMonth endMonth : JS.num) : option TermLabel :=
  if ge startMonth 9 && ge endMonth 3 && le endMonth 4 then Some WinterFullYear
  else if ge startMonth 9 && le endMonth 12 then Some WinterTerm1
  else if ge startMonth 1 && le startMonth 4 && le endMonth 4
       then Some WinterTerm2
  else if ge startMonth 5 && le startMonth 6 && le endMonth 6
       then Some SummerTerm1
  else if ge startMonth 7 && le startMonth 8 then Some SummerTerm2
  else if ge startMonth 5 && ge endMonth 7 then Some SummerFullTerm
  else None.

Definition dated_cascade (startDate endDate : option string)
    : option TermLabel :=
  match startDate, endDate with
  | Some (String _ _ as sd), Some (String _ _ as ed) =>
      month_cascade (month_of sd) (month_of ed)
  | _, _ => None
  end.

(** The term text of the student, when there is a non-empty one. *)
Definition termInfo (course : Course) : option string :=
  match student course with
  | Some st =>
      match s_term st with
      | EmptyString => None
      | t => Some (JS.toLowerCase t)
      end
  | None => None
  end.

End Terms.

(** The classifier of the course list (app module). *)
Module App.

Import Terms.

Definition term_text (termInfo : string) : option TermLabel :=
  let has := JS.includes termInfo in
  if has "full year" || has "year long" then Some WinterFullYear
  else if has "winter" && has "term 1" then Some WinterTerm1
  else if has "winter" && has "term 2" then Some WinterTerm2
  else if has "summer" && has "term 1" then Some SummerTerm1
  else if has "summer" && has "term 2" then Some SummerTerm2
  else if has "term 1" then Some WinterTerm1
  else if has "term 2" then Some WinterTerm2
  else None.

Definition determineTerm (course : Course) : TermLabel :=
  match match termInfo course with
        | Some t => term_text t
        | None => None
        end with
  | Some l => l
  | None =>
      match dated_cascade (c_startDate course) (c_endDate course) with
      | Some l => l
      | None =>
          match meetings course with
          | firstMeeting :: _ =>
              match dated_cascade (startDate firstMeeting)
                                  (endDate firstMeeting) with
              | Some l => l
              | None => Other
              end
          | [] => Other
          end
      end
  end.

End App.

(** The classifier of the weekly grid (src/js/calendar-view.js). *)
Module CalendarView.

Import Terms.

Definition term_text (termInfo : string) : option TermLabel :=
  let has := JS.includes termInfo in
  if has "winter" && has "term 1" then Some WinterTerm1
  else if has "winter" && has "term 2" then Some WinterTerm2
  else if has "summer" && has "term 1" then Some SummerTerm1
  else if has "summer" && has "term 2" then Some SummerTerm2
  else None.

Definition meeting_cascade (startMonth : JS.num) : option TermLabel :=
  if ge startMonth 9 then Some WinterTerm1
  else if le startMonth 4 then Some WinterTerm2
  else if ge startMonth 5 && le startMonth 6 then Some SummerTerm1
  else if ge startMonth 7 && le startMonth 8 then Some SummerTerm2
  else None.

Definition determineTerm (course : Course) : TermLabel :=
  match match termInfo course with
        | Some t => term_text t
        | None => None
        end with
  | Some l => l
  | None =>
      match dated_cascade (c_startDate course) (c_endDate course) with
      | Some l => l
      | None =>
          match meetings course with
          | firstMeeting :: _ =>
              match startDate firstMeeting with
              | Some (String _ _ as sd) =>
                  match meeting_cascade (month_of sd) with
                  | Some l => l
                  | None => Other
                  end
              | _ => Other
              end
          | [] => Other
          end
      end
  end.

End CalendarView.

(** ** Notions of the specification

    The definitions below follow the words of the specification; the
    properties compare them with the embedded code. *)

Module Spec.

(** [p] occurs in [s]. *)
Definition substring_of (p s : string) : Prop :=
  exists a b : string, s = a ++ p ++ b.

(** Number of positions of [s] at which [p] starts. *)
Fixpoint count_sub (p s : string) : nat :=
  (if JS.startsWith s p then 1 else 0)
  + match s with
    | EmptyString => 0
    | String _ s' => count_sub p s'
    end.

(** Zero-padded decimal renderings. *)
Definition two_digits (n : Z) : string :=
  String (JS.digit_char (n / 10)) (String (JS.digit_char (n mod 10)) "").

Definition four_digits (n : Z) : string :=
  String (JS.digit_char (n / 1000))
    (String (JS.digit_char (n / 100 mod 10)) (two_digits (n mod 100))).

(** The 24-hour value of hour [h] of a 12-hour clock. *)
Definition hour24 (h : Z) (pm : bool) : Z :=
  if pm then (if h =? 12 then 12 else h + 12)
  else (if h =? 12 then 0 else h).

(** The language of a pattern. *)
Inductive lang : Regex.re -> string -> Prop :=
| lang_chr : forall (p : ascii -> bool) a,
    p a = true -> lang (Regex.Chr p) (String a "")
| lang_eps : lang Regex.Eps ""
| lang_seq : forall r1 r2 m1 m2,
    lang r1 m1 -> lang r2 m2 -> lang (Regex.Seq r1 r2) (m1 ++ m2)
| lang_alt_l : forall r1 r2 m, lang r1 m -> lang (Regex.Alt r1 r2) m
| lang_alt_r : forall r1 r2 m, lang r2 m -> lang (Regex.Alt r1 r2) m
| lang_star_nil : forall g r, lang (Regex.Star g r) ""
| lang_star_cons : forall g r m1 m2,
    lang r m1 -> lang (Regex.Star g r) m2 ->
    lang (Regex.Star g r) (m1 ++ m2)
| lang_group : forall n r m, lang r m -> lang (Regex.Group n r) m.

(** [s] holds a match of the pattern. *)
Definition has_match (r : Regex.re) (s : string) : Prop :=
  exists a m b : string, s = a ++ m ++ b /\ lang r m.

(** The groups of a pattern with their sub-patterns. *)
Fixpoint subgroups (r : Regex.re) : list (nat * Regex.re) :=
  match r with
  | Regex.Chr _ | Regex.Eps => []
  | Regex.Seq r1 r2 | Regex.Alt r1 r2 => (subgroups r1 ++ subgroups r2)%list
  | Regex.Star _ r0 => subgroups r0
  | Regex.Group n r0 => (n, r0) :: subgroups r0
  end.

(** The groups every match of the pattern sets. *)
Fixpoint sets (r : Regex.re) (n : nat) : bool :=
  match r with
  | Regex.Chr _ | Regex.Eps | Regex.Star _ _ => false
  | Regex.Seq r1 r2 => sets r1 n || sets r2 n
  | Regex.Alt r1 r2 => sets r1 n && sets r2 n
  | Regex.Group k r0 => Nat.eqb k n || sets r0 n
  end.

(** The pipe-separated fields of a line, trimmed. *)
Definition fields (line : string) : list string :=
  map JS.trim (JS.split "|" line).

(** A text without a line feed, and one that is not blank. *)
Definition one_line (line : string) : Prop := JS.split JS.LF line = [line].

Definition non_blank (line : string) : Prop := JS.trim line <> "".

(** A line with the date range in its first field and the time range in
    its third. *)
Definition meeting_line (line : string) : Prop :=
  exists f0 f1 f2 more,
    fields line = f0 :: f1 :: f2 :: more
    /\ has_match Parser.dateRange_re f0
    /\ has_match Parser.timeRange_re f2.

(** Calendar dates. *)
Definition month_length (l m : Z) : Z :=
  if m =? 2 then 28 + l
  else if (m =? 4) || (m =? 6) || (m =? 9) || (m =? 11) then 30
  else 31.

Definition days_in_month (y m : Z) : Z := month_length (JSDate.leap_days y) m.

Definition valid_date (y m d : Z) : Prop :=
  1 <= m <= 12 /\ 1 <= d <= days_in_month y m.

(** Days from 1970-01-01 to the date. *)
Definition day_number (y m d : Z) : Z :=
  JSDate.DayFromYear y + JSDate.month_start (m - 1) (JSDate.leap_days y)
  + d - 1.

(** The weekday of a day number; 1970-01-01 was a Thursday. *)
Definition weekday_of (n : Z) : Weekday :=
  match (n + 4) mod 7 with
  | 0 => SU | 1 => MO | 2 => TU | 3 => WE | 4 => TH | 5 => FR | _ => SA
  end.

Definition iso_date (y m d : Z) : string :=
  four_digits y ++ "-" ++ two_digits m ++ "-" ++ two_digits d.

(** The meetings that the specification counts as events: a day set and an
    end date. *)
Definition counted (m : Meeting) : bool :=
  match days m with [] => false | _ => true end && JS.truthy (endDate m).

(** The meetings that are serialized: a day set, a start date and both
    times. *)
Definition serialized (m : Meeting) : bool :=
  match days m with [] => false | _ => true end
  && JS.truthy (startDate m) && JS.truthy (startTime m)
  && JS.truthy (endTime m).

Definition all_meetings (courses : list Course) : list Meeting :=
  flat_map meetings courses.

(** Number of lines that open an event. *)
Definition vevent_count (lines : list string) : nat :=
  count_occ string_dec lines "BEGIN:VEVENT".

(** The header test as the specification words it: every critical term
    occurs in the lower-cased concatenation of the non-null cells. *)
Fixpoint non_null (cells : list (option string)) : list string :=
  match cells with
  | [] => []
  | Some s :: rest => s :: non_null rest
  | None :: rest => non_null rest
  end.

Definition critical_terms : list string := ["drop"; "credits"; "grading"].

Definition headers_hold_terms (headers : list (option string)) : Prop :=
  forall t, In t critical_terms ->
            substring_of t (JS.toLowerCase (JS.join "" (non_null headers))).

(** The month cascade as the specification lists it. *)
Definition month_cascade (s e : Z) : option TermLabel :=
  if (9 <=? s) && (3 <=? e) && (e <=? 4) then Some WinterFullYear
  else if (9 <=? s) && (e <=? 12) then Some WinterTerm1
  else if (1 <=? s) && (s <=? 4) && (e <=? 4) then Some WinterTerm2
  else if (5 <=? s) && (s <=? 6) && (e <=? 6) then Some SummerTerm1
  else if (7 <=? s) && (s <=? 8) then Some SummerTerm2
  else if (5 <=? s) && (s <=? 6) && (7 <=? e) then Some SummerFullTerm
  else None.

(** The student term text matches none of the textual patterns of the
    first step. *)
Definition no_term_text (course : Course) : Prop :=
  match Terms.termInfo course with
  | Some t => App.term_text t = None
  | None => True
  end.

(** The integers [lo], ..., [lo + n - 1]. *)
Fixpoint zrange (lo : Z) (n : nat) : list Z :=
  match n with
  | O => []
  | S k => lo :: zrange (lo + 1) k
  end.

End Spec.

(** ** Host time zones *)

Module Zones.

(** A zone with one offset all year. *)
Definition fixed (offset : Z) : JSDate.Zone :=
  {| JSDate.LocalTZA := fun _ _ => offset |}.

Definition utc : JSDate.Zone := fixed 0.

(** The offsets of America/Vancouver in 2025: eight hours behind UTC, and
    seven from 2025-03-09T10:00:00Z to 2025-11-02T09:00:00Z; a local time
    that a change skips or repeats is read with the offset before the
    change. *)
Definition vancouver_spring : Z := 1741514400000.
Definition vancouver_fall : Z := 1762074000000.

Definition vancouver_2025 : JSDate.Zone :=
  {| JSDate.LocalTZA := fun t isUTC =>
       if isUTC
       then (if t <? vancouver_spring then -28800000
             else if t <? vancouver_fall then -25200000 else -28800000)
       else (if t <? vancouver_spring - 25200000 then -28800000
             else if t <? vancouver_fall - 25200000 then -25200000
             else -28800000) |}.

(** The offsets of Pacific/Apia around the end of 2011: ten hours behind UTC
    until 2011-12-30T10:00:00Z, fourteen hours ahead from then on, so that
    the local day 2011-12-30 does not exist; a local time of that day is
    read with the offset before the change. *)
Definition apia_change : Z := 1325239200000.

Definition apia_2011 : JSDate.Zone :=
  {| JSDate.LocalTZA := fun t isUTC =>
       if isUTC
       then (if t <? apia_change then -36000000 else 50400000)
       else (if t <? apia_change + 50400000 then -36000000 else 50400000) |}.

(** A zone whose offsets stay below one day and in which no calendar day
    is skipped: a local time of day of the day [d], read as an instant and
    shown again in local time, falls on the day [d]. *)
Definition whole_days (zone : JSDate.Zone) : Prop :=
  (forall t isUTC, Z.abs (JSDate.LocalTZA t isUTC) < JSDate.msPerDay)
  /\ forall d tod,
       0 <= tod < JSDate.msPerDay ->
       JSDate.LocalDay (JSDate.UTC (JSDate.MakeDate d tod)) = d.

End Zones.

(** ** Finite checks used by the proofs *)

Module Checks.

Definition convert_check (h m : Z) : bool :=
  let ok (hours period : string) (pm : bool) :=
    match Parser.convertTo24Hour (hours ++ ":" ++ Spec.two_digits m) period with
    | Some r =>
        String.eqb r (Spec.two_digits (Spec.hour24 h pm) ++ ":"
                      ++ Spec.two_digits m)
    | None => false
    end in
  ok (JS.nat_string h) "a.m." false && ok (JS.nat_string h) "p.m." true
  && ok (Spec.two_digits h) "a.m." false && ok (Spec.two_digits h) "p.m." true.

Definition num_is (n : JS.num) (z : Z) : bool :=
  match n with
  | JS.Int v => v =? z
  | JS.NaN => false
  end.

Definition single (l : list string) (s : string) : bool :=
  match l with
  | [x] => String.eqb x s
  | _ => false
  end.

(** The two-digit text of [k]: how the code prints it, reads it and splits
    it. *)
Definition two_digits_check (k : Z) : bool :=
  let s := Spec.two_digits k in
  String.eqb (Calendar.pad2 (JS.Int k)) s
  && num_is (JS.Number s) k
  && single (JS.split "-" s) s
  && negb (JS.includes s ":").

Definition four_digits_check (y : Z) : bool :=
  let s := Spec.four_digits y in
  String.eqb (JS.toString (JS.Int y)) s
  && num_is (JS.Number s) y
  && single (JS.split "-" s) s.

(** The month found for the day [d] of month [m] in a year with [l] leap
    days. *)
Definition month_check (l m d : Z) : bool :=
  (Spec.month_length l m <? d)
  || (JSDate.month_in_year (JSDate.month_start (m - 1) l + d - 1) l =? m - 1).

(** The test of the serializer loop on an event. *)
Definition passes (e : Event) : bool :=
  JS.truthy (dtstart e) && JS.truthy (dtend e).

End Checks.

(** ** Sample data *)

Module Examples.

Definition test_student : StudentInfo :=
  {| s_name := "Test Student"; s_id := "12345678";
     s_term := "Current Term" |}.

(** A full-year course as the parser builds it. *)
Definition full_year_course : Course :=
  {| student := Some test_student;
     code := "COMP 101"; name := Some "Introduction to Computing";
     section := Some ""; credits := Some "3"; instructor := Some "";
     format := Some "Lecture"; delivery := Some ""; status := Some "";
     c_startDate := Some "2025-09-02"; c_endDate := Some "2026-04-08";
     meetings := [] |}.

End Examples.

(** ** Sample calendars *)

Module Samples.

(** A clock that is read several times within one millisecond. *)
Definition same_millisecond : Calendar.Clock := fun _ => 1762153200123.

Definition bare_course (ms : list Meeting) : Course :=
  {| student := None; code := "TEST 101"; name := Some "Test Course";
     section := None; credits := Some "3";
     instructor := Some "Test Instructor"; format := None; delivery := None;
     status := None; c_startDate := None; c_endDate := None;
     meetings := ms |}.

(** A meeting with a day set and times but no end date. *)
Definition open_ended : Meeting :=
  {| startDate := Some "2025-09-02"; endDate := None; days := [TU];
     startTime := Some "14:00"; endTime := Some "15:00";
     location := Some "Test" |}.

(** Two meetings of one course on the same day of the week from the same
    date: a lecture and a tutorial. *)
Definition lecture : Meeting :=
  {| startDate := Some "2025-09-02"; endDate := Some "2025-12-04";
     days := [TU]; startTime := Some "14:00"; endTime := Some "15:00";
     location := Some "Room 101" |}.

Definition tutorial : Meeting :=
  {| startDate := Some "2025-09-02"; endDate := Some "2025-12-04";
     days := [TU]; startTime := Some "16:00"; endTime := Some "17:00";
     location := Some "Room 202" |}.

(** A course whose format holds a comma. *)
Definition seminar : Course :=
  {| student := None; code := "TEST 201"; name := Some "Field Work";
     section := None; credits := None; instructor := None;
     format := Some "Seminar, Online"; delivery := None; status := None;
     c_startDate := None; c_endDate := None; meetings := [lecture] |}.

Definition open_ended_courses : list Course := [bare_course [open_ended]].

Definition twin_courses : list Course := [bare_course [lecture; tutorial]].

(** The two blocks of the reading-break test of the repository. *)
Definition before_break : string :=
  "2026-01-05 - 2026-02-11 | Mon Wed | 12:30 p.m. - 2:00 p.m. | UBCV | Building | Floor: 3 | Room: 301".

Definition after_break : string :=
  "2026-02-23 - 2026-04-08 | Mon Wed | 12:30 p.m. - 2:00 p.m. | UBCV | Building | Floor: 3 | Room: 301".

Definition blank_line : string := String JS.LF (String JS.LF "").

Definition block (sd ed : string) : Meeting :=
  {| startDate := Some sd; endDate := Some ed; days := [MO; WE];
     startTime := Some "12:30"; endTime := Some "14:00";
     location := Some "UBCV | Building | Floor 3 | Room 301" |}.

(** A grid in the layout of the export: five title rows, the header row,
    and two course rows of which the first carries the student label. *)
Definition label : string := "Test Student (12345678) - Fall 2025".

Definition header_cells : Parser.Row :=
  [ None; Some "Course Listing"; Some "Drop"; Some "Swap"; Some "Credits";
    Some "Grading Basis"; Some "Section"; Some "Registration Status";
    Some "Instructional Format"; Some "Delivery Mode";
    Some "Meeting Patterns"; Some "Instructor"; Some "Start Date";
    Some "End Date" ].

Definition course_row (first : Parser.Cell) (listing section : string)
    : Parser.Row :=
  [ first; Some listing; None; None; Some "3"; Some "Graded"; Some section;
    Some "Registered"; Some "Lecture"; Some "In Person Learning";
    Some "2025-09-02 - 2025-12-04 | Mon Wed Fri | 9:00 a.m. - 10:00 a.m. | UBCV | Building | Floor: 1 | Room: 101";
    Some "Dr. Jane Smith"; Some "2025-09-02"; Some "2025-12-04" ].

Definition labelled_row : Parser.Row :=
  course_row (Some label) "COMP_V 101 - Introduction to Computing"
    "COMP_V 101-001".

Definition following_row : Parser.Row :=
  course_row None "MATH_V 200 - Calculus III" "MATH_V 200-101".

Definition grid : list Parser.Row :=
  [ [Some "My Enrolled Courses"]; []; []; []; []; header_cells;
    labelled_row; following_row ].

(** No other text form of a date is read. *)
Definition iso_only : string -> option string := fun _ => None.

(** A line that holds both ranges but no pipe. *)
Definition unpiped : string :=
  "2025-09-02 - 2025-12-04 Tue Thu 3:30 p.m. - 5:00 p.m.".

End Samples.

(** ** Escaping, character by character *)

Module Escape.

(** The escaped form of one character (RFC 5545, 3.3.11): a backslash, a
    semicolon and a comma get a backslash before them, a line feed becomes
    a backslash and the letter n; a carriage return is dropped. *)
Definition escape_char (c : ascii) : string :=
  if Ascii.eqb c Calendar.backslash
  then String Calendar.backslash (String Calendar.backslash "")
  else if Ascii.eqb c ";" then String Calendar.backslash ";"
  else if Ascii.eqb c "," then String Calendar.backslash ","
  else if Ascii.eqb c JS.LF then String Calendar.backslash "n"
  else if Ascii.eqb c JS.CR then ""
  else String c "".

(** The escaped form of a text: the escaped forms of its characters, one
    after the other. *)
Fixpoint escaped (s : string) : string :=
  match s with
  | EmptyString => EmptyString
  | String c s' => escape_char c ++ escaped s'
  end.

(** The characters that escaping changes into a backslash pair. *)
Definition special (c : ascii) : bool :=
  Ascii.eqb c Calendar.backslash || Ascii.eqb c ";" || Ascii.eqb c ",".

Fixpoint count_if (p : ascii -> bool) (s : string) : nat :=
  match s with
  | EmptyString => 0
  | String c s' => (if p c then 1 else 0) + count_if p s'
  end.

Definition backslashes : string -> nat :=
  count_if (Ascii.eqb Calendar.backslash).

End Escape.

(** ** Groups of a match *)

Module Groups.

(** Every entry of [added] is a group of [r] with a text of its language. *)
Definition from (r : Regex.re) (added : Regex.caps) : Prop :=
  Forall (fun nv : nat * string =>
            exists r0, In (fst nv, r0) (Spec.subgroups r)
                       /\ Spec.lang r0 (snd nv))
         added.

(** What a way of matching [r] on [s] from the groups [c] satisfies. *)
Definition sound (r : Regex.re) (s : string) (c : Regex.caps)
    (w : Regex.way) : Prop :=
  let '(m, rest, c') := w in
  s = m ++ rest /\ Spec.lang r m /\
  exists added, c' = (added ++ c)%list /\ from r added /\
                forall n, Spec.sets r n = true -> In n (map fst added).

End Groups.

(** ** Further notions of the properties *)

Module Text.

(** The value a calendar reader recovers from an escaped text (RFC 5545,
    3.3.11): a backslash stands with the character after it for that
    character, and with n or N for a line feed. *)
Fixpoint unescape (s : string) : string :=
  match s with
  | EmptyString => EmptyString
  | String c s' =>
      if Ascii.eqb c Calendar.backslash then
        match s' with
        | EmptyString => String c EmptyString
        | String d s'' =>
            String (if Ascii.eqb d "n" || Ascii.eqb d "N" then JS.LF else d)
                   (unescape s'')
        end
      else String c (unescape s')
  end.

Definition line_break (c : ascii) : bool :=
  Ascii.eqb c JS.CR || Ascii.eqb c JS.LF.

(** Number of lines that start with [p]. *)
Definition count_prefix (p : string) (lines : list string) : nat :=
  List.length (filter (fun l => JS.startsWith l p) lines).

(** The digits of a date, as the serializer prints them. *)
Definition date_digits (y m d : Z) : string :=
  Spec.four_digits y ++ Spec.two_digits m ++ Spec.two_digits d.

(** The digits of the calendar day with day number [n], as [formatDate]
    prints the local fields of a date. *)
Definition day_digits (n : Z) : string :=
  JS.toString (JS.Int (JSDate.YearFromDay n))
  ++ Calendar.pad2 (JS.Int (JSDate.MonthFromDay n + 1))
  ++ Calendar.pad2 (JS.Int (JSDate.DateFromDay n)).

Definition has_days (m : Meeting) : bool :=
  match days m with [] => false | _ => true end.

End Text.

Module Checks2.

Definition dash_free (s : string) : bool :=
  String.eqb (JS.replace_class (Ascii.eqb "-") "" s) s.

Definition two_digits_dash_free (k : Z) : bool :=
  dash_free (Spec.two_digits k).

Definition four_digits_dash_free (k : Z) : bool :=
  dash_free (Spec.four_digits k).

End Checks2.

(** ** The events of a calendar, one by one *)

Module Layout.

(** The pairs of a course and one of its meetings with a day set, in the
    order of the input. *)
Definition course_meetings (courses : list Course)
    : list (Course * Meeting) :=
  flat_map (fun c => map (pair c) (filter Text.has_days (meetings c)))
           courses.

(** The events of the pairs, the first made at clock reading [t]. *)
Fixpoint stamped {zone : JSDate.Zone} (clock : Calendar.Clock) (t : nat)
    (pairs : list (Course * Meeting)) : list Event :=
  match pairs with
  | [] => []
  | (c, m) :: rest =>
      Calendar.recurring_event (clock t) c m :: stamped clock (S t) rest
  end.

(** The starts of the lines every event holds once. *)
Definition required : list string :=
  [ "BEGIN:VEVENT"; "UID:"; "DTSTAMP:"; "DTSTART;TZID=America/Vancouver:";
    "DTEND;TZID=America/Vancouver:"; "SUMMARY:"; "CATEGORIES:";
    "STATUS:CONFIRMED"; "END:VEVENT" ].

Definition ruled (m : Meeting) : bool :=
  Spec.serialized m && JS.truthy (endDate m).

Definition placed (m : Meeting) : bool :=
  Spec.serialized m && JS.truthy (location m).

(** The lines of an event start with none of the calendar's own. *)
Definition frame_check (p : string) : bool :=
  (Text.count_prefix p Calendar.header_lines =? 0)%nat
  && negb (JS.startsWith "END:VCALENDAR" p).

End Layout.

(** ** Clock readings *)

Module Instant.

(** Milliseconds from the epoch to the given time of day [dn], in UTC. *)
Definition at_time (dn h mi s ms : Z) : Z :=
  (((dn * 24 + h) * 60 + mi) * 60 + s) * 1000 + ms.

(** A meeting whose start time was not read. *)
Definition untimed : Meeting :=
  {| startDate := Some "2025-09-02"; endDate := Some "2025-12-04";
     days := [TU]; startTime := None; endTime := Some "15:00";
     location := None |}.

End Instant.

(** ** The courses of the sample grid *)

Module Parsed.

Definition courses_of (o : Parser.outcome) : list Course :=
  match o with
  | Parser.Courses cs => cs
  | Parser.Failed _ => []
  end.

Definition sample : list Course :=
  courses_of (Parser.parseExcel Samples.iso_only Samples.grid).

(** A code as the course listing gives it: capital letters, a space and
    digits. *)
Definition code_shape (c : string) : Prop :=
  exists letters digits,
    c = letters ++ " " ++ digits
    /\ letters <> ""
    /\ Escape.count_if (fun a => negb (JS.is_upper a)) letters = 0%nat
    /\ digits <> "" /\ JS.all_digits digits = true.

(** A meeting as a line of the meeting patterns gives it: both dates in the
    form YYYY-MM-DD and both times. *)
Definition complete (m : Meeting) : Prop :=
  (exists d1 d2,
      startDate m = Some d1 /\ endDate m = Some d2
      /\ Spec.lang Parser.isoDate_re d1 /\ Spec.lang Parser.isoDate_re d2)
  /\ JS.truthy (startTime m) = true /\ JS.truthy (endTime m) = true.

(** The text is empty or its last character is not white space, as a
    trimmed text is. *)
Fixpoint solid_end (s : string) : bool :=
  match s with
  | EmptyString => true
  | String a s' =>
      match s' with
      | EmptyString => negb (JS.is_space a)
      | String _ _ => solid_end s'
      end
  end.

(** The end of the pattern of a course listing: the white space after the
    dash and the title. *)
Definition title_re : Regex.re :=
  Regex.Seq Regex.spaces (Regex.Group 3 (Regex.plus Regex.dot)).

Definition short_file : string :=
  "Failed to parse file: Invalid file format: insufficient data rows".

Definition wrong_format : string :=
  "Failed to parse file: Invalid file format: expected UBC Workday course schedule format".

End Parsed.

(** ** The course list (app module) *)

Module Display.

(** The day names of [createCourseElement]. *)
Definition dayNames (d : Weekday) : string :=
  match d with
  | MO => "Mon" | TU => "Tue" | WE => "Wed" | TH => "Thu"
  | FR => "Fri" | SA => "Sat" | SU => "Sun"
  end.

(** [meeting.days.map(d => dayNames[d] || d).join(', ')] *)
Definition days_text (ds : list Weekday) : string :=
  JS.join ", " (map dayNames ds).

(** [hours % 12 || 12]: the remainder has the sign of [hours]; zero and
    [NaN] are falsy. *)
Definition hours12 (hours : JS.num) : JS.num :=
  match hours with
  | JS.Int h => if Z.rem h 12 =? 0 then JS.Int 12 else JS.Int (Z.rem h 12)
  | JS.NaN => JS.Int 12
  end.

(** [None] is the [TypeError] of [minutes.toString()] when the time holds
    no colon. *)
Definition formatTime (time24 : option string) : option string :=
  match time24 with
  | Some (String _ _ as t) =>
      let parts := map JS.Number (JS.split ":" t) in
      let hours := nth 0 parts JS.NaN in
      let period := if Terms.ge hours 12 then "PM" else "AM" in
      match nth_error parts 1 with
      | Some minutes =>
          Some (JS.toString (hours12 hours) ++ ":"
                ++ JS.padStart 2 "0" (JS.toString minutes) ++ " " ++ period)
      | None => None
      end
  | _ => Some EmptyString
  end.

(** The days of the week in the order of the parser's table. *)
Definition week : list Weekday := map snd Parser.dayNames.

(** The day sets the parser can return: the sublists of the week. *)
Fixpoint sublists {A : Type} (l : list A) : list (list A) :=
  match l with
  | [] => [[]]
  | x :: rest => (map (cons x) (sublists rest) ++ sublists rest)%list
  end.

Definition Weekday_eqb (a b : Weekday) : bool :=
  String.eqb (day_code a) (day_code b).

Fixpoint days_eqb (a b : list Weekday) : bool :=
  match a, b with
  | [], [] => true
  | x :: a', y :: b' => Weekday_eqb x y && days_eqb a' b'
  | _, _ => false
  end.

Definition days_check (ds : list Weekday) : bool :=
  days_eqb (Parser.parseDays (days_text ds)) ds.

(** The display of a time read by the parser. *)
Definition time_check (h m : Z) : bool :=
  let ok (pm : bool) :=
    match Parser.convertTo24Hour (JS.nat_string h ++ ":" ++ Spec.two_digits m)
            (if pm then "p.m." else "a.m.") with
    | Some t =>
        match formatTime (Some t) with
        | Some r =>
            String.eqb r (JS.nat_string h ++ ":" ++ Spec.two_digits m ++ " "
                          ++ (if pm then "PM" else "AM"))
        | None => false
        end
    | None => false
    end in
  ok false && ok true.

(** [new Map()]: the entries in the order of their insertion. *)
Definition CourseMap : Type := list (string * Course).

Definition has (m : CourseMap) (k : string) : bool :=
  existsb (fun e => String.eqb (fst e) k) m.

(** [if (!courseMap.has(course.code)) courseMap.set(course.code, course)] *)
Definition keep_first (m : CourseMap) (course : Course) : CourseMap :=
  if has m (code course) then m else (m ++ [(code course, course)])%list.

Definition courseMap (courses : list Course) : CourseMap :=
  fold_left keep_first courses [].

(** An entry of a term group: the course, with the marker and the display
    name that a full-year course gets. *)
Record Entry : Type := mkEntry {
  entry_course : Course;
  isFullYear : bool;
  displayName : option string
}.

Definition plain (c : Course) : Entry :=
  {| entry_course := c; isFullYear := false; displayName := None |}.

Definition full_year (c : Course) : Entry :=
  {| entry_course := c; isFullYear := true;
     displayName := Some (Calendar.show (name c) ++ " (Full Year)") |}.

(** The keys of [coursesByTerm], in their order. *)
Definition termNames : list TermLabel :=
  [WinterTerm1; WinterTerm2; SummerTerm1; SummerTerm2; SummerFullTerm; Other].

Definition label_eqb (a b : TermLabel) : bool :=
  String.eqb (term_label a) (term_label b).

(** [groups[t].push(e)] *)
Definition push (groups : TermLabel -> list Entry) (t : TermLabel)
    (e : Entry) : TermLabel -> list Entry :=
  fun t' => if label_eqb t' t then (groups t' ++ [e])%list else groups t'.

(** One turn of the loop over the course map; each label other than the
    full year is a key of the groups. *)
Definition place (groups : TermLabel -> list Entry) (e : string * Course)
    : TermLabel -> list Entry :=
  let course := snd e in
  match App.determineTerm course with
  | WinterFullYear =>
      push (push groups WinterTerm1 (full_year course)) WinterTerm2
           (full_year course)
  | termInfo => push groups termInfo (plain course)
  end.

Definition coursesByTerm (courses : list Course) : TermLabel -> list Entry :=
  fold_left place (courseMap courses) (fun _ => []).

(** The entries in the order in which the list shows them; an empty group
    shows nothing. *)
Definition shown (courses : list Course) : list Entry :=
  flat_map (coursesByTerm courses) termNames.

(** [selectedCourses], a set of indices. *)
Definition selected (s : list nat) (i : nat) : bool := existsb (Nat.eqb i) s.

Definition add (s : list nat) (i : nat) : list nat :=
  if selected s i then s else (s ++ [i])%list.

Definition delete (s : list nat) (i : nat) : list nat :=
  filter (fun j => negb (Nat.eqb j i)) s.

(** One entry of the display loop: its box is checked and the index moves
    on. *)
Definition show_entry (st : list nat * nat) (e : Entry) : list nat * nat :=
  (add (fst st) (snd st), S (snd st)).

(** The selection that [displayCourses] leaves. *)
Definition displayCourses (courses : list Course) : list nat :=
  fst (fold_left show_entry (shown courses) ([], 0%nat)).

Fixpoint pick (s : list nat) (index : nat) (m : CourseMap) : list Course :=
  match m with
  | [] => []
  | (_, course) :: rest =>
      if selected s index then course :: pick s (S index) rest
      else pick s (S index) rest
  end.

Definition getSelectedCourses (courses : list Course) (s : list nat)
    : list Course :=
  pick s 0 (courseMap courses).

(** The entries a course adds to the group of term [t]. *)
Definition entries_of (t : TermLabel) (c : Course) : list Entry :=
  match App.determineTerm c with
  | WinterFullYear =>
      if label_eqb t WinterTerm1 || label_eqb t WinterTerm2
      then [full_year c] else []
  | t' => if label_eqb t t' then [plain c] else []
  end.

Definition is_full_year (c : Course) : bool :=
  label_eqb (App.determineTerm c) WinterFullYear.

(** What the course map holds once the courses [done] have gone through
    the loop: one entry for each code, that of the first course with it. *)
Definition first_of_code (m : CourseMap) (done : list Course) : Prop :=
  NoDup (map fst m)
  /\ (forall k c, In (k, c) m ->
        k = code c
        /\ exists pre post,
             done = (pre ++ c :: post)%list
             /\ forall c', In c' pre -> code c' <> code c)
  /\ (forall c, In c done -> In (code c) (map fst m)).

(** Two sections of one course, the second a laboratory. *)
Definition sections : list Course :=
  [ Samples.bare_course [Samples.lecture];
    Samples.bare_course [Samples.tutorial] ].

End Display.

(** ** The weekly grid (src/js/calendar-view.js) *)

Module Grid.

(** A course of a term calendar, with the marker and the display term that
    a full-year course gets. *)
Record Block : Type := mkBlock {
  block_course : Course;
  isFullYear : bool;
  displayTerm : option string
}.

Definition plain (c : Course) : Block :=
  {| block_course := c; isFullYear := false; displayTerm := None |}.

Definition full_year (c : Course) (term : string) : Block :=
  {| block_course := c; isFullYear := true;
     displayTerm := Some (term ++ " (Full Year)") |}.

(** The object [grouped]: its keys in the order of their insertion. *)
Definition Grouped : Type := list (TermLabel * list Block).

(** [grouped[t]], the empty list standing for [undefined]. *)
Fixpoint lookup (grouped : Grouped) (t : TermLabel) : list Block :=
  match grouped with
  | [] => []
  | (t', l) :: rest =>
      if Display.label_eqb t' t then l else lookup rest t
  end.

(** [if (!grouped[t]) grouped[t] = []; grouped[t].push(b)] *)
Fixpoint push (grouped : Grouped) (t : TermLabel) (b : Block) : Grouped :=
  match grouped with
  | [] => [(t, [b])]
  | (t', l) :: rest =>
      if Display.label_eqb t' t then (t', (l ++ [b])%list) :: rest
      else (t', l) :: push rest t b
  end.

(** [delete grouped[t]] *)
Definition delete (grouped : Grouped) (t : TermLabel) : Grouped :=
  filter (fun e => negb (Display.label_eqb (fst e) t)) grouped.

Definition group (grouped : Grouped) (course : Course) : Grouped :=
  match CalendarView.determineTerm course with
  | WinterFullYear =>
      push (push grouped WinterTerm1 (full_year course "Winter Term 1"))
           WinterTerm2 (full_year course "Winter Term 2")
  | term => push grouped term (plain course)
  end.

Definition groupCoursesByTerm (courses : list Course) : Grouped :=
  delete (fold_left group courses []) WinterFullYear.

(** The blocks a course adds to the calendar of term [t]. *)
Definition blocks_of (t : TermLabel) (c : Course) : list Block :=
  match CalendarView.determineTerm c with
  | WinterFullYear =>
      if Display.label_eqb t WinterTerm1
      then [full_year c "Winter Term 1"]
      else if Display.label_eqb t WinterTerm2
           then [full_year c "Winter Term 2"] else []
  | t' => if Display.label_eqb t t' then [plain c] else []
  end.

(** Distinct keys, none of them the full year, and no empty group. *)
Definition well_formed (grouped : Grouped) : Prop :=
  NoDup (map fst grouped)
  /\ ~ In WinterFullYear (map fst grouped)
  /\ forall t l, In (t, l) grouped -> l <> [].

End Grid.

(** ** Header rows *)

Module Headers.

Definition is_blank (c : ascii) : bool := Ascii.eqb c " ".

(** A word: a non-empty text without a space. *)
Definition word (t : string) : Prop :=
  t <> "" /\ Escape.count_if is_blank t = 0%nat.

(** A header row whose cells hold the three terms, one of them in capitals. *)
Definition row : Parser.Row :=
  [ None; Some "Drop"; Some "Swap"; Some "CREDITS"; Some "Grading Basis" ].

End Headers.

(** ** The parts of an event identifier *)

Module Uid.

Definition is_dash (c : ascii) : bool := Ascii.eqb c "-".

(** The two texts that [generateUID] builds from the course and the
    meeting. *)
Definition courseId (course : Course) : string :=
  JS.replace_class JS.is_space "" (code course).

Definition meetingId (meeting : Meeting) : string :=
  JS.replace_class (fun c => negb (JS.is_alnum c)) ""
    (Calendar.show (startDate meeting) ++ "-"
     ++ JS.join "" (map day_code (days meeting))).

(** A clock that moves on by one millisecond at each reading. *)
Definition ticking : Calendar.Clock := fun n => 1762153200123 + Z.of_nat n.

End Uid.

(** * Properties *)

(** ** Strings *)

Lemma append_nil_r (s : string) : s ++ "" = s.
Proof. induction s as [|c s IH]; simpl; [reflexivity | now rewrite IH]. Qed.

Lemma append_assoc (a b c : string) : (a ++ b) ++ c = a ++ b ++ c.
Proof. induction a as [|x a IH]; simpl; [reflexivity | now rewrite IH]. Qed.

Lemma length_append (a b : string) :
  String.length (a ++ b) = (String.length a + String.length b)%nat.
Proof. induction a as [|x a IH]; simpl; [reflexivity | now rewrite IH]. Qed.

Lemma startsWith_spec (s p : string) :
  JS.startsWith s p = true <-> exists b, s = p ++ b.
Proof.
  revert s; induction p as [|c p IH]; intros s; simpl.
  - split; [intros _; now exists s | reflexivity].
  - destruct s as [|d s].
    + split; [discriminate | intros [b H]; discriminate].
    + destruct (Ascii.eqb_spec c d) as [->|Hne]; simpl.
      * rewrite IH. split; intros [b H]; exists b.
        -- now rewrite H.
        -- now injection H.
      * split; [discriminate | intros [b H]; injection H; congruence].
Qed.

Lemma includes_spec (s p : string) :
  JS.includes s p = true <-> Spec.substring_of p s.
Proof.
  unfold Spec.substring_of.
  induction s as [|c s IH]; simpl.
  - destruct (JS.startsWith "" p) eqn:E.
    + apply startsWith_spec in E. destruct E as [b Hb].
      split; [intros _; exists "", b; exact Hb | reflexivity].
    + split; [discriminate|].
      intros [a [b H]]. destruct a; simpl in H.
      * assert (JS.startsWith "" p = true)
          by (apply startsWith_spec; now exists b).
        congruence.
      * discriminate.
  - destruct (JS.startsWith (String c s) p) eqn:E.
    + apply startsWith_spec in E. destruct E as [b Hb].
      split; [intros _; exists "", b; exact Hb | reflexivity].
    + rewrite IH. split.
      * intros [a [b H]]. exists (String c a), b. simpl. now rewrite H.
      * intros [a [b H]]. destruct a as [|x a]; simpl in H.
        -- assert (JS.startsWith (String c s) p = true)
             by (apply startsWith_spec; now exists b).
           congruence.
        -- injection H as _ H. now exists a, b.
Qed.


(** ** Finite checks *)

Lemma zrange_In (n : nat) : forall lo z,
  lo <= z < lo + Z.of_nat n -> In z (Spec.zrange lo n).
Proof.
  induction n as [|n IH]; intros lo z H; simpl.
  - lia.
  - destruct (Z.eq_dec lo z) as [->|Hne]; [now left | right].
    apply IH. lia.
Qed.

Lemma forallb_zrange (f : Z -> bool) (lo : Z) (n : nat) :
  forallb f (Spec.zrange lo n) = true ->
  forall z, lo <= z < lo + Z.of_nat n -> f z = true.
Proof.
  intros H z Hz. rewrite forallb_forall in H. apply H. now apply zrange_In.
Qed.

(** ** Time conversion *)

Lemma convert_check_all :
  forallb (fun h => forallb (Checks.convert_check h) (Spec.zrange 0 100))
          (Spec.zrange 1 12) = true.
Proof. vm_compute. reflexivity. Qed.

(** C9: on a time H:MM of the 12-hour clock (the hour written with or
    without a leading zero), convertTo24Hour maps 12 a.m. to hour 00, keeps
    12 p.m., adds 12 to the other p.m. hours, keeps the other a.m. hours, and
    returns the zero-padded HH:MM text; the four examples of the
    specification hold. *)
Theorem convertTo24Hour_spec :
  (forall h m (hours : string) (pm : bool),
      1 <= h <= 12 -> 0 <= m <= 99 ->
      hours = JS.nat_string h \/ hours = Spec.two_digits h ->
      Parser.convertTo24Hour (hours ++ ":" ++ Spec.two_digits m)
        (if pm then "p.m." else "a.m.")
      = Some (Spec.two_digits (Spec.hour24 h pm) ++ ":" ++ Spec.two_digits m))
  /\ Parser.convertTo24Hour "9:30" "a.m." = Some "09:30"
  /\ Parser.convertTo24Hour "12:00" "p.m." = Some "12:00"
  /\ Parser.convertTo24Hour "12:30" "a.m." = Some "00:30"
  /\ Parser.convertTo24Hour "2:45" "p.m." = Some "14:45".
Proof.
  split; [|repeat split; reflexivity].
  intros h m hours pm Hh Hm Hhours.
  pose proof (forallb_zrange _ _ _ convert_check_all h ltac:(simpl; lia)) as H1.
  cbv beta in H1.
  pose proof (forallb_zrange _ _ _ H1 m ltac:(simpl; lia)) as H2.
  unfold Checks.convert_check in H2.
  repeat (apply andb_prop in H2; destruct H2 as [H2 ?]).
  destruct Hhours as [->| ->], pm;
    match goal with
    | |- Parser.convertTo24Hour ?t ?p = _ =>
        destruct (Parser.convertTo24Hour t p); [|discriminate]
    end;
    match goal with
    | H : String.eqb ?r _ = true |- Some ?r = _ =>
        apply String.eqb_eq in H; now subst
    end.
Qed.

Lemma convertTo24Hour_spec_witness :
  Parser.convertTo24Hour "7:05" "p.m." = Some "19:05".
Proof.
  exact (proj1 convertTo24Hour_spec 7 5 "7" true ltac:(lia) ltac:(lia)
           ltac:(left; reflexivity)).
Defined.

(** ** Header validation *)

Lemma critical_lowered :
  map JS.toLowerCase Parser.criticalHeaders = Spec.critical_terms.
Proof. reflexivity. Qed.

(** C4, as the code has it: validateHeaders accepts a header row exactly
    when the row has at least five cells and each of "drop", "credits" and
    "grading" occurs in the lower-cased text of the non-empty cells joined
    by single spaces. *)
Theorem validateHeaders_spec (headers : Parser.Row) :
  Parser.validateHeaders headers = true <->
  (5 <= List.length headers)%nat /\
  forall t, In t Spec.critical_terms ->
    Spec.substring_of t
      (JS.toLowerCase (JS.join " " (Parser.truthy_cells headers))).
Proof.
  unfold Parser.validateHeaders.
  destruct (Nat.ltb_spec (List.length headers) 5) as [Hlt|Hge].
  - split; [discriminate | intros [H _]; lia].
  - rewrite forallb_forall. rewrite <- critical_lowered. split.
    + intros H. split; [exact Hge|].
      intros t Ht. apply in_map_iff in Ht. destruct Ht as [h [<- Hh]].
      apply includes_spec. now apply H.
    + intros [_ H] h Hh. apply includes_spec. apply H.
      now apply in_map.
Qed.

Lemma validateHeaders_spec_witness :
  Parser.validateHeaders
    [None; Some "Drop"; Some "Swap"; Some "Credits"; Some "Grading Basis"]
  = true
  /\ (5 <= 5)%nat.
Proof.
  split; [reflexivity|].
  exact (proj1 (proj1 (validateHeaders_spec
    [None; Some "Drop"; Some "Swap"; Some "Credits"; Some "Grading Basis"])
    eq_refl)).
Defined.

(** C4 as stated fails: a row of three cells that holds the three terms is
    rejected. *)
Lemma validateHeaders_short_row :
  ~ (forall headers,
        Parser.validateHeaders headers = true <->
        Spec.headers_hold_terms headers).
Proof.
  intros H.
  specialize (H [Some "Drop"; Some "Credits"; Some "Grading"]).
  assert (Hf : Parser.validateHeaders
                 [Some "Drop"; Some "Credits"; Some "Grading"] = false)
    by reflexivity.
  rewrite Hf in H. destruct H as [_ H].
  assert (false = true); [|discriminate].
  apply H. intros t Ht. apply includes_spec.
  simpl in Ht. destruct Ht as [<-|[<-|[<-|[]]]]; reflexivity.
Qed.


(** ** Term classification *)

Lemma view_text_none (t : string) :
  App.term_text t = None -> CalendarView.term_text t = None.
Proof.
  unfold App.term_text, CalendarView.term_text.
  destruct (JS.includes t "full year"), (JS.includes t "year long"),
    (JS.includes t "winter"), (JS.includes t "summer"),
    (JS.includes t "term 1"), (JS.includes t "term 2");
    simpl; congruence.
Qed.

(** The cascade of the code returns the label the cascade of the
    specification finds. *)
Lemma month_cascade_refines (s e : Z) (l : TermLabel) :
  Spec.month_cascade s e = Some l ->
  Terms.month_cascade (JS.Int s) (JS.Int e) = Some l.
Proof.
  unfold Spec.month_cascade, Terms.month_cascade, Terms.ge, Terms.le.
  repeat (match goal with
          | |- context [?a <=? ?b] => destruct (a <=? b)
          end; cbn [andb]);
    congruence.
Qed.

(** On month numbers the two cascades agree, also where no rule matches. *)
Lemma month_cascade_on_months (s e : Z) :
  1 <= s <= 12 -> 1 <= e <= 12 ->
  Terms.month_cascade (JS.Int s) (JS.Int e) = Spec.month_cascade s e.
Proof.
  intros Hs He.
  assert (Cs : s = 1 \/ s = 2 \/ s = 3 \/ s = 4 \/ s = 5 \/ s = 6 \/ s = 7
               \/ s = 8 \/ s = 9 \/ s = 10 \/ s = 11 \/ s = 12) by lia.
  assert (Ce : e = 1 \/ e = 2 \/ e = 3 \/ e = 4 \/ e = 5 \/ e = 6 \/ e = 7
               \/ e = 8 \/ e = 9 \/ e = 10 \/ e = 11 \/ e = 12) by lia.
  clear Hs He.
  repeat (destruct Cs as [->|Cs]); try subst s;
    repeat (destruct Ce as [->|Ce]); try subst e; reflexivity.
Qed.

(** C6: when the student term text matches no textual pattern and the course
    has a start and an end date, both classifiers return the first label of
    the month cascade of the specification that matches the two month
    numbers. *)
Theorem determineTerm_month_cascade
    (course : Course) (sd ed : string) (s e : Z) (l : TermLabel) :
  Spec.no_term_text course ->
  c_startDate course = Some sd -> sd <> "" ->
  c_endDate course = Some ed -> ed <> "" ->
  Terms.month_of sd = JS.Int s ->
  Terms.month_of ed = JS.Int e ->
  Spec.month_cascade s e = Some l ->
  App.determineTerm course = l /\ CalendarView.determineTerm course = l.
Proof.
  intros Hno Hsd Hsd0 Hed Hed0 Hs He Hl.
  apply month_cascade_refines in Hl.
  assert (Hd : Terms.dated_cascade (c_startDate course) (c_endDate course)
               = Some l).
  { rewrite Hsd, Hed. unfold Terms.dated_cascade.
    destruct sd; [congruence|]. destruct ed; [congruence|].
    now rewrite Hs, He. }
  unfold Spec.no_term_text in Hno.
  unfold App.determineTerm, CalendarView.determineTerm.
  destruct (Terms.termInfo course) as [t|].
  - rewrite (view_text_none _ Hno), Hno, Hd. now split.
  - rewrite Hd. now split.
Qed.

Lemma determineTerm_month_cascade_witness :
  App.determineTerm Examples.full_year_course = WinterFullYear
  /\ CalendarView.determineTerm Examples.full_year_course = WinterFullYear.
Proof.
  apply (determineTerm_month_cascade Examples.full_year_course
           "2025-09-02" "2026-04-08" 9 4);
    try reflexivity; discriminate.
Defined.

(** ** Calendar generation *)

Lemma getFirstOccurrence_truthy {zone : JSDate.Zone} sd ds tm :
  JS.truthy (Calendar.getFirstOccurrence sd ds tm)
  = JS.truthy sd && match ds with [] => false | _ => true end && JS.truthy tm.
Proof.
  unfold Calendar.getFirstOccurrence.
  destruct sd as [[|a sd]|]; simpl; try reflexivity;
    destruct ds as [|d ds]; simpl; try reflexivity;
    destruct tm as [[|b tm]|]; simpl; try reflexivity.
  match goal with |- context [Calendar.formatDate ?x] =>
    destruct (Calendar.formatDate x) end; reflexivity.
Qed.

Lemma recurring_event_passes {zone : JSDate.Zone} ts c m :
  days m <> [] ->
  Checks.passes (Calendar.recurring_event ts c m) = Spec.serialized m.
Proof.
  intros Hd. unfold Checks.passes, Spec.serialized. simpl.
  rewrite !getFirstOccurrence_truthy.
  destruct (days m); [congruence|].
  destruct (JS.truthy (startDate m)), (JS.truthy (startTime m)),
    (JS.truthy (endTime m)); reflexivity.
Qed.

Ltac count_step :=
  first
    [ rewrite count_occ_cons_eq by reflexivity
    | rewrite count_occ_cons_neq by discriminate ].

Lemma event_lines_count now e ds de :
  Spec.vevent_count (Calendar.event_lines now e ds de) = 1%nat.
Proof.
  unfold Spec.vevent_count, Calendar.event_lines.
  destruct (JS.truthy (rrule e)), (JS.truthy (Some (description e))),
    (JS.truthy (ev_location e)), (JS.truthy (Some (categories e)));
    simpl List.concat; simpl app; simpl append; repeat count_step; reflexivity.
Qed.

Lemma events_lines_count clock events : forall t,
  Spec.vevent_count (Calendar.events_lines clock t events)
  = List.length (filter Checks.passes events).
Proof.
  induction events as [|e events IH]; intros t; [reflexivity|].
  cbn [Calendar.events_lines filter]. unfold Checks.passes at 1.
  destruct (JS.truthy (dtstart e) && JS.truthy (dtend e)).
  - unfold Spec.vevent_count. rewrite count_occ_app.
    change (Spec.vevent_count
              (Calendar.event_lines (clock t) e (Calendar.show (dtstart e))
                 (Calendar.show (dtend e)))
            + Spec.vevent_count (Calendar.events_lines clock (S t) events)
            = List.length (e :: filter Checks.passes events))%nat.
    rewrite event_lines_count, IH. reflexivity.
  - apply IH.
Qed.

Lemma meeting_events_passing {zone : JSDate.Zone} clock c ms : forall t,
  List.length (filter Checks.passes (fst (Calendar.meeting_events clock t c ms)))
  = List.length (filter Spec.serialized ms).
Proof.
  induction ms as [|m ms IH]; intros t; simpl; [reflexivity|].
  unfold Calendar.createRecurringEvents.
  destruct (days m) as [|d ds] eqn:Hd.
  - specialize (IH t).
    destruct (Calendar.meeting_events clock t c ms) as [e2 t2]. simpl in *.
    unfold Spec.serialized at 1. rewrite Hd. simpl. exact IH.
  - specialize (IH (S t)).
    destruct (Calendar.meeting_events clock (S t) c ms) as [e2 t2].
    simpl in *.
    rewrite recurring_event_passes by (rewrite Hd; discriminate).
    destruct (Spec.serialized m); simpl; now rewrite IH.
Qed.

Lemma course_events_passing {zone : JSDate.Zone} clock courses : forall t,
  List.length (filter Checks.passes (fst (Calendar.course_events clock t courses)))
  = List.length (filter Spec.serialized (Spec.all_meetings courses)).
Proof.
  induction courses as [|c courses IH]; intros t; simpl; [reflexivity|].
  pose proof (meeting_events_passing clock c (meetings c) t) as H1.
  destruct (Calendar.meeting_events clock t c (meetings c)) as [e1 t1].
  specialize (IH t1).
  destruct (Calendar.course_events clock t1 courses) as [e2 t2].
  simpl in *. unfold Spec.all_meetings in *. simpl.
  rewrite !filter_app, !length_app. now rewrite H1, IH.
Qed.

Lemma generateICS_lines {zone : JSDate.Zone} clock courses :
  Calendar.generateICS clock courses
  = JS.join Calendar.CRLF (Calendar.generated_lines clock courses).
Proof.
  unfold Calendar.generateICS, Calendar.generated_lines.
  now destruct (Calendar.course_events clock 0 courses).
Qed.

(** C1, as the code has it: the text of generateICS is its lines joined by
    CRLF, and the number of BEGIN:VEVENT lines among them equals the number
    of meetings, over all the courses, that have a non-empty day set, a
    start date, a start time and an end time; the end date plays no part. *)
Theorem vevent_count_serialized {zone : JSDate.Zone} (clock : Calendar.Clock)
    (courses : list Course) :
  Calendar.generateICS clock courses
  = JS.join Calendar.CRLF (Calendar.generated_lines clock courses)
  /\ Spec.vevent_count (Calendar.generated_lines clock courses)
     = List.length (filter Spec.serialized (Spec.all_meetings courses)).
Proof.
  split; [apply generateICS_lines|].
  unfold Calendar.generated_lines.
  pose proof (course_events_passing clock courses 0) as H.
  destruct (Calendar.course_events clock 0 courses) as [events t].
  simpl in H. rewrite <- H.
  unfold Calendar.ics_lines, Spec.vevent_count.
  rewrite !count_occ_app.
  fold (Spec.vevent_count (Calendar.events_lines clock t events)).
  rewrite events_lines_count.
  replace (count_occ string_dec Calendar.header_lines "BEGIN:VEVENT")
    with 0%nat by (vm_compute; reflexivity).
  replace (count_occ string_dec ["END:VCALENDAR"] "BEGIN:VEVENT")
    with 0%nat by (vm_compute; reflexivity).
  lia.
Qed.

(** C1 as stated fails: a meeting with a day set and no end date is written
    as one event (without a recurrence rule), where the specification counts
    none. *)
Lemma vevent_without_end_date :
  Spec.count_sub "BEGIN:VEVENT"
    (Calendar.generateICS (zone := Zones.utc)
        Samples.same_millisecond Samples.open_ended_courses) = 1%nat
  /\ Spec.vevent_count
       (Calendar.generated_lines (zone := Zones.utc)
           Samples.same_millisecond Samples.open_ended_courses)
     = 1%nat
  /\ List.length
       (filter Spec.counted (Spec.all_meetings Samples.open_ended_courses))
     = 0%nat.
Proof. vm_compute. repeat split; reflexivity. Qed.

(** ** Escaping *)

Lemma replace_class_app p r (a b : string) :
  JS.replace_class p r (a ++ b)
  = JS.replace_class p r a ++ JS.replace_class p r b.
Proof.
  induction a as [|c a IH]; simpl; [reflexivity|].
  destruct (p c); simpl; rewrite IH; [now rewrite append_assoc | reflexivity].
Qed.

Lemma escapeText_app (a b : string) :
  Calendar.escapeText (a ++ b)
  = Calendar.escapeText a ++ Calendar.escapeText b.
Proof.
  unfold Calendar.escapeText. now rewrite !replace_class_app.
Qed.

Lemma escapeText_char (c : ascii) :
  Calendar.escapeText (String c "") = Escape.escape_char c.
Proof.
  destruct c as [[] [] [] [] [] [] [] []]; vm_compute; reflexivity.
Qed.

(** escapeText rewrites its text character by character. *)
Lemma escapeText_cons (c : ascii) (s : string) :
  Calendar.escapeText (String c s)
  = Escape.escape_char c ++ Calendar.escapeText s.
Proof.
  change (String c s) with (String c "" ++ s).
  now rewrite escapeText_app, escapeText_char.
Qed.

Lemma count_if_app p (a b : string) :
  Escape.count_if p (a ++ b)
  = (Escape.count_if p a + Escape.count_if p b)%nat.
Proof.
  induction a as [|c a IH]; simpl; [reflexivity | rewrite IH; lia].
Qed.

Lemma escape_char_backslashes (c : ascii) :
  Escape.backslashes (Escape.escape_char c)
  = ((if Ascii.eqb Calendar.backslash c then 1 else 0)
     + (if Escape.special c || Ascii.eqb c JS.LF then 1 else 0))%nat.
Proof.
  destruct c as [[] [] [] [] [] [] [] []]; vm_compute; reflexivity.
Qed.

Lemma escapeText_backslashes (s : string) :
  Escape.backslashes (Calendar.escapeText s)
  = (Escape.backslashes s
     + Escape.count_if (fun c => Escape.special c || Ascii.eqb c JS.LF) s)%nat.
Proof.
  induction s as [|c s IH]; [reflexivity|].
  rewrite escapeText_cons. unfold Escape.backslashes in *.
  rewrite count_if_app, IH.
  pose proof (escape_char_backslashes c) as H.
  unfold Escape.backslashes in H. rewrite H. simpl. lia.
Qed.

(** A text that holds a backslash, a semicolon or a comma is changed by
    escaping. *)
Lemma escapeText_changes (s : string) :
  (0 < Escape.count_if Escape.special s)%nat -> Calendar.escapeText s <> s.
Proof.
  intros H E.
  pose proof (escapeText_backslashes s) as B. rewrite E in B.
  assert (Escape.count_if Escape.special s
          <= Escape.count_if
               (fun c => Escape.special c || Ascii.eqb c JS.LF) s)%nat.
  { clear. induction s as [|c s IH]; simpl; [lia|].
    destruct (Escape.special c); simpl; lia. }
  lia.
Qed.

(** ** The lines of an event *)

Lemma join_In (sep : string) (lines : list string) (l : string) :
  In l lines -> Spec.substring_of l (JS.join sep lines).
Proof.
  induction lines as [|x lines IH]; intros H; [destruct H|].
  destruct H as [->|H].
  - destruct lines as [|y lines]; simpl.
    + exists "", "". simpl. now rewrite append_nil_r.
    + exists "", (sep ++ JS.join sep (y :: lines)). reflexivity.
  - destruct (IH H) as [a [b E]].
    destruct lines as [|y lines]; [destruct H|].
    exists (x ++ sep ++ a), b.
    change (JS.join sep (x :: y :: lines))
      with (x ++ sep ++ JS.join sep (y :: lines)).
    rewrite E. now rewrite !append_assoc.
Qed.

Lemma events_lines_incl clock events e : forall t,
  In e events -> Checks.passes e = true ->
  exists now,
    incl (Calendar.event_lines now e (Calendar.show (dtstart e))
            (Calendar.show (dtend e)))
         (Calendar.events_lines clock t events).
Proof.
  induction events as [|x events IH]; intros t Hin Hp; [destruct Hin|].
  cbn [Calendar.events_lines].
  destruct Hin as [->|Hin].
  - unfold Checks.passes in Hp. rewrite Hp.
    exists (clock t). apply incl_appl, incl_refl.
  - destruct (JS.truthy (dtstart x) && JS.truthy (dtend x)).
    + destruct (IH (S t) Hin Hp) as [now H]. exists now.
      now apply incl_appr.
    + now apply IH.
Qed.

Lemma meeting_events_In {zone : JSDate.Zone} clock c ms m : forall t,
  In m ms -> days m <> [] ->
  exists ts,
    In (Calendar.recurring_event ts c m)
       (fst (Calendar.meeting_events clock t c ms)).
Proof.
  induction ms as [|x ms IH]; intros t Hin Hd; [destruct Hin|].
  cbn [Calendar.meeting_events]. unfold Calendar.createRecurringEvents.
  destruct Hin as [->|Hin].
  - destruct (days m) as [|d ds]; [congruence|].
    destruct (Calendar.meeting_events clock (S t) c ms) as [e2 t2].
    exists (clock t). now left.
  - destruct (days x) as [|d ds].
    + destruct (IH t Hin Hd) as [ts H].
      destruct (Calendar.meeting_events clock t c ms) as [e2 t2].
      now exists ts.
    + destruct (IH (S t) Hin Hd) as [ts H].
      destruct (Calendar.meeting_events clock (S t) c ms) as [e2 t2].
      exists ts. now right.
Qed.

Lemma course_events_In {zone : JSDate.Zone} clock courses c m : forall t,
  In c courses -> In m (meetings c) -> days m <> [] ->
  exists ts,
    In (Calendar.recurring_event ts c m)
       (fst (Calendar.course_events clock t courses)).
Proof.
  induction courses as [|x courses IH]; intros t Hc Hm Hd; [destruct Hc|].
  cbn [Calendar.course_events].
  destruct Hc as [->|Hc].
  - destruct (meeting_events_In clock c (meetings c) m t Hm Hd) as [ts H].
    destruct (Calendar.meeting_events clock t c (meetings c)) as [e1 t1].
    destruct (Calendar.course_events clock t1 courses) as [e2 t2].
    exists ts. simpl in *. apply in_or_app. now left.
  - destruct (Calendar.meeting_events clock t x (meetings x)) as [e1 t1].
    destruct (IH t1 Hc Hm Hd) as [ts H].
    destruct (Calendar.course_events clock t1 courses) as [e2 t2].
    exists ts. simpl in *. apply in_or_app. now right.
Qed.

Lemma serialized_days m : Spec.serialized m = true -> days m <> [].
Proof.
  unfold Spec.serialized. destruct (days m); [discriminate | discriminate].
Qed.

(** The lines of a serialized meeting are lines of the document. *)
Lemma generated_event_lines {zone : JSDate.Zone} clock courses c m :
  In c courses -> In m (meetings c) -> Spec.serialized m = true ->
  exists ts now,
    let e := Calendar.recurring_event ts c m in
    incl (Calendar.event_lines now e (Calendar.show (dtstart e))
            (Calendar.show (dtend e)))
         (Calendar.generated_lines clock courses).
Proof.
  intros Hc Hm Hs.
  pose proof (serialized_days m Hs) as Hd.
  destruct (course_events_In clock courses c m 0 Hc Hm Hd) as [ts Hin].
  unfold Calendar.generated_lines.
  destruct (Calendar.course_events clock 0 courses) as [events t].
  simpl in Hin.
  assert (Hp : Checks.passes (Calendar.recurring_event ts c m) = true)
    by (rewrite recurring_event_passes; assumption).
  destruct (events_lines_incl clock events _ t Hin Hp) as [now H].
  exists ts, now. cbv zeta. unfold Calendar.ics_lines.
  apply incl_appr, incl_appl. exact H.
Qed.

Ltac pick_block :=
  simpl; repeat (first [left; reflexivity | right]).

Lemma escapeText_escaped (text : string) :
  Calendar.escapeText text = Escape.escaped text.
Proof.
  induction text as [|c text IH]; [reflexivity|].
  rewrite escapeText_cons, IH. reflexivity.
Qed.

(** C10: escapeText is the escaping of RFC 5545 character by character (a
    backslash before each backslash, semicolon and comma, backslash-n for a
    line feed, carriage returns dropped); for every serialized meeting of a
    course the document holds the SUMMARY, DESCRIPTION and LOCATION lines
    with their values escaped in this way, and the CATEGORIES line with the
    format of the course (or "Lecture") as it is; a format with a comma, a
    semicolon or a backslash is therefore written unescaped. *)
Theorem categories_written_verbatim {zone : JSDate.Zone}
    (clock : Calendar.Clock) (courses : list Course) (c : Course)
    (m : Meeting) :
  In c courses -> In m (meetings c) -> Spec.serialized m = true ->
  let lines := Calendar.generated_lines clock courses in
  let cat := if JS.truthy (format c) then Calendar.show (format c)
             else "Lecture" in
  (forall text, Calendar.escapeText text = Escape.escaped text)
  /\ (forall n, name c = Some n ->
      In ("SUMMARY:" ++ Escape.escaped (code c ++ " - " ++ n)) lines)
  /\ (Calendar.buildDescription c <> "" ->
      In ("DESCRIPTION:" ++ Escape.escaped (Calendar.buildDescription c))
         lines)
  /\ (forall l, location m = Some l -> l <> "" ->
      In ("LOCATION:" ++ Escape.escaped l) lines)
  /\ In ("CATEGORIES:" ++ cat) lines
  /\ Spec.substring_of ("CATEGORIES:" ++ cat)
       (Calendar.generateICS clock courses)
  /\ forall f, format c = Some f ->
       (0 < Escape.count_if Escape.special f)%nat ->
       cat = f /\ Escape.escaped f <> f.
Proof.
  intros Hc Hm Hs lines cat.
  destruct (generated_event_lines clock courses c m Hc Hm Hs)
    as [ts [now Hincl]].
  cbv zeta in Hincl. fold lines in Hincl.
  set (e := Calendar.recurring_event ts c m) in *.
  assert (Hcat : In ("CATEGORIES:" ++ cat) lines).
  { apply Hincl. unfold Calendar.event_lines.
    apply in_concat. exists ["CATEGORIES:" ++ cat]. split; [|now left].
    assert (Ht : JS.truthy (Some (categories e)) = true).
    { simpl. destruct (format c) as [[|a f]|]; reflexivity. }
    rewrite Ht. pick_block. }
  split; [exact escapeText_escaped|].
  split; [|split; [|split; [|split; [exact Hcat|split]]]].
  - intros n Hn. rewrite <- escapeText_escaped. apply Hincl.
    unfold Calendar.event_lines. apply in_concat.
    exists ["SUMMARY:" ++ Calendar.escapeText (summary e)].
    split; [pick_block|]. left. subst e.
    cbn [summary Calendar.recurring_event]. now rewrite Hn.
  - intros Hne. rewrite <- escapeText_escaped. apply Hincl.
    unfold Calendar.event_lines. apply in_concat.
    exists ["DESCRIPTION:"
            ++ Calendar.escapeText (Calendar.buildDescription c)].
    split; [|now left].
    assert (Ht : JS.truthy (Some (description e)) = true).
    { simpl. destruct (Calendar.buildDescription c); [congruence|reflexivity]. }
    rewrite Ht. pick_block.
  - intros l Hl Hne. rewrite <- escapeText_escaped. apply Hincl.
    unfold Calendar.event_lines. apply in_concat.
    exists ["LOCATION:" ++ Calendar.escapeText (Calendar.show (location m))].
    split; [|left; now rewrite Hl].
    change (ev_location e) with (location m). rewrite Hl.
    destruct l as [|a l]; [congruence|]. pick_block.
  - rewrite generateICS_lines. now apply join_In.
  - intros f Hf Hsp. split.
    + subst cat. rewrite Hf. destruct f; [simpl in Hsp; lia | reflexivity].
    + rewrite <- escapeText_escaped. now apply escapeText_changes.
Qed.

Lemma categories_written_verbatim_witness :
  In "SUMMARY:TEST 201 - Field Work"
     (Calendar.generated_lines (zone := Zones.utc) Samples.same_millisecond
        [Samples.seminar])
  /\ In "CATEGORIES:Seminar, Online"
       (Calendar.generated_lines (zone := Zones.utc) Samples.same_millisecond
          [Samples.seminar])
  /\ Escape.escaped "Seminar, Online" <> "Seminar, Online".
Proof.
  pose proof (categories_written_verbatim (zone := Zones.utc)
                Samples.same_millisecond [Samples.seminar]
                Samples.seminar Samples.lecture
                ltac:(simpl; tauto) ltac:(simpl; tauto) ltac:(reflexivity))
    as H.
  cbv zeta in H.
  destruct H as [_ [Hsum [_ [_ [Hcat [_ Hf]]]]]].
  split; [exact (Hsum "Field Work" eq_refl)|]. split.
  - exact Hcat.
  - exact (proj2 (Hf "Seminar, Online" eq_refl ltac:(vm_compute; lia))).
Defined.

(** C7 does not hold of the code: two meetings of one course that share
    start date and day set, serialized within one millisecond, get the same
    UID. *)
Theorem uid_collision {zone : JSDate.Zone} :
  map uid (Calendar.generated_events Samples.same_millisecond
             Samples.twin_courses)
  = [ "TEST101-20250902TU-1762153200123@workday-cal";
      "TEST101-20250902TU-1762153200123@workday-cal" ]
  /\ ~ NoDup (map uid (Calendar.generated_events Samples.same_millisecond
                         Samples.twin_courses))
  /\ Spec.vevent_count
       (Calendar.generated_lines Samples.same_millisecond
          Samples.twin_courses) = 2%nat.
Proof.
  assert (E : map uid (Calendar.generated_events Samples.same_millisecond
                         Samples.twin_courses)
              = [ "TEST101-20250902TU-1762153200123@workday-cal";
                  "TEST101-20250902TU-1762153200123@workday-cal" ])
    by reflexivity.
  split; [exact E|]. split.
  - rewrite E. intros H.
    inversion H as [|x l Hnin _]. apply Hnin. now left.
  - unfold Calendar.generated_lines.
    pose proof (course_events_passing Samples.same_millisecond
                  Samples.twin_courses 0) as H.
    destruct (Calendar.course_events Samples.same_millisecond 0
                Samples.twin_courses) as [events t].
    cbn [fst] in H.
    unfold Calendar.ics_lines, Spec.vevent_count.
    rewrite !count_occ_app.
    fold (Spec.vevent_count
            (Calendar.events_lines Samples.same_millisecond t events)).
    rewrite events_lines_count, H. reflexivity.
Qed.

(** C8 does not hold of the code: the fields are joined by a backslash and
    the letter n before escaping, escaping doubles that backslash, and the
    DESCRIPTION value separates the fields by two backslashes and n.  In the
    texts below a backslash is a plain character: the first text holds
    backslash, n between its fields and the second backslash, backslash, n;
    the third is what escaping the fields joined by line feeds gives. *)
Theorem description_separator_escaped {zone : JSDate.Zone} :
  Calendar.buildDescription (Samples.bare_course [Samples.lecture])
  = "Course: TEST 101 - Test Course\nInstructor: Test Instructor\nCredits: 3"
  /\ In "DESCRIPTION:Course: TEST 101 - Test Course\\nInstructor: Test Instructor\\nCredits: 3"
        (Calendar.generated_lines Samples.same_millisecond
           [Samples.bare_course [Samples.lecture]])
  /\ Calendar.escapeText
       (JS.join (String JS.LF "")
          ["Course: TEST 101 - Test Course"; "Instructor: Test Instructor";
           "Credits: 3"])
     = "Course: TEST 101 - Test Course\nInstructor: Test Instructor\nCredits: 3".
Proof.
  split; [vm_compute; reflexivity|]. split; [|vm_compute; reflexivity].
  destruct (generated_event_lines Samples.same_millisecond
              [Samples.bare_course [Samples.lecture]]
              (Samples.bare_course [Samples.lecture]) Samples.lecture
              ltac:(now left) ltac:(now left) eq_refl) as [ts [now Hincl]].
  cbv zeta in Hincl. apply Hincl.
  unfold Calendar.event_lines. apply in_concat.
  exists ["DESCRIPTION:"
          ++ Calendar.escapeText
               (Calendar.buildDescription
                  (Samples.bare_course [Samples.lecture]))].
  split; [|left; vm_compute; reflexivity].
  cbn [description Calendar.recurring_event].
  replace (JS.truthy (Some (Calendar.buildDescription
                              (Samples.bare_course [Samples.lecture]))))
    with true by (vm_compute; reflexivity).
  cbn [rrule ev_location categories Calendar.recurring_event].
  do 3 right. left. reflexivity.
Qed.

(** ** The matcher and the language of a pattern *)

Lemma from_weaken (r r' : Regex.re) (added : Regex.caps) :
  incl (Spec.subgroups r) (Spec.subgroups r') ->
  Groups.from r added -> Groups.from r' added.
Proof.
  intros Hi H. unfold Groups.from in *.
  eapply Forall_impl; [|exact H].
  intros [n v] [r0 [Hin Hl]]. exists r0. split; [now apply Hi | exact Hl].
Qed.

Lemma from_app (r : Regex.re) (a b : Regex.caps) :
  Groups.from r a -> Groups.from r b -> Groups.from r (a ++ b)%list.
Proof. unfold Groups.from. intros. now apply Forall_app. Qed.

Lemma in_map_after m1 (w : Regex.way) (l : list Regex.way) :
  In w (map (Regex.after m1) l) ->
  exists m2 rest c, w = (m1 ++ m2, rest, c) /\ In (m2, rest, c) l.
Proof.
  intros H. apply in_map_iff in H. destruct H as [[[m2 rest] c] [E Hin]].
  exists m2, rest, c. split; [now rewrite <- E | exact Hin].
Qed.

Lemma star_ways_sound (g : bool) (r0 : Regex.re) :
  (forall s c w, In w (Regex.ways r0 s c) -> Groups.sound r0 s c w) ->
  forall fuel s c w,
    In w (Regex.star_ways fuel (Regex.ways r0) g s c) ->
    Groups.sound (Regex.Star g r0) s c w.
Proof.
  intros IH0. induction fuel as [|f IH]; intros s c w Hin.
  - simpl in Hin. destruct Hin as [<-|[]]. simpl.
    repeat split; [constructor|]. exists []. repeat split.
    + constructor.
    + intros n Hn. discriminate.
  - cbn [Regex.star_ways] in Hin.
    assert (Hcase :
      w = (EmptyString, s, c) \/
      In w (flat_map
              (fun w0 : Regex.way =>
                 let '(m1, rest1, c1) := w0 in
                 match m1 with
                 | EmptyString => []
                 | String _ _ =>
                     map (Regex.after m1)
                       (Regex.star_ways f (Regex.ways r0) g rest1 c1)
                 end) (Regex.ways r0 s c))).
    { destruct g.
      - apply in_app_or in Hin. destruct Hin as [H|[H|[]]]; auto.
      - destruct Hin as [H|H]; auto. }
    clear Hin. destruct Hcase as [->|Hin].
    + simpl. repeat split; [constructor|]. exists []. repeat split.
      * constructor.
      * intros n Hn. discriminate.
    + apply in_flat_map in Hin. destruct Hin as [[[m1 rest1] c1] [H1 H2]].
      destruct m1 as [|a m1]; [destruct H2|].
      apply in_map_after in H2. destruct H2 as [m2 [rest [c' [-> H2]]]].
      apply IH0 in H1. apply IH in H2. simpl in H1, H2. simpl.
      destruct H1 as [E1 [L1 [add1 [EC1 [F1 _]]]]].
      destruct H2 as [E2 [L2 [add2 [EC2 [F2 _]]]]].
      split; [rewrite E1, E2; now rewrite append_assoc|].
      split.
      { change (String a (m1 ++ m2)) with (String a m1 ++ m2).
        now constructor. }
      exists (add2 ++ add1)%list. repeat split.
      * now rewrite EC2, EC1, app_assoc.
      * apply from_app; [exact F2|].
        eapply from_weaken; [|exact F1]. apply incl_refl.
      * intros n Hn. discriminate.
Qed.

(** Every way of the matcher splits the input, consumes a text of the
    language, and adds groups of the pattern holding texts of their
    sub-patterns, among them each group the pattern always sets. *)
Lemma ways_sound (r : Regex.re) :
  forall s c w, In w (Regex.ways r s c) -> Groups.sound r s c w.
Proof.
  induction r as [p| |r1 IH1 r2 IH2|r1 IH1 r2 IH2|g r0 IH0|n r0 IH0];
    intros s c w Hin.
  - simpl in Hin. destruct s as [|a s]; [destruct Hin|].
    destruct (p a) eqn:Hp; [|destruct Hin].
    destruct Hin as [<-|[]]. simpl. repeat split; [now constructor|].
    exists []. repeat split; [constructor | intros n Hn; discriminate].
  - simpl in Hin. destruct Hin as [<-|[]]. simpl.
    repeat split; [constructor|].
    exists []. repeat split; [constructor | intros n Hn; discriminate].
  - simpl in Hin. apply in_flat_map in Hin.
    destruct Hin as [[[m1 rest1] c1] [H1 H2]].
    apply in_map_after in H2. destruct H2 as [m2 [rest [c' [-> H2]]]].
    apply IH1 in H1. apply IH2 in H2. simpl in H1, H2. simpl.
    destruct H1 as [E1 [L1 [add1 [EC1 [F1 S1]]]]].
    destruct H2 as [E2 [L2 [add2 [EC2 [F2 S2]]]]].
    split; [now rewrite E1, E2, append_assoc|].
    split; [now constructor|].
    exists (add2 ++ add1)%list. repeat split.
    + now rewrite EC2, EC1, app_assoc.
    + apply from_app.
      * eapply from_weaken; [|exact F2]. simpl. apply incl_appr, incl_refl.
      * eapply from_weaken; [|exact F1]. simpl. apply incl_appl, incl_refl.
    + intros n Hn. rewrite map_app. apply in_or_app.
      apply orb_prop in Hn. destruct Hn as [Hn|Hn]; [right|left]; auto.
  - simpl in Hin. apply in_app_or in Hin. destruct Hin as [H|H].
    + apply IH1 in H. destruct w as [[m rest] c']. simpl in *.
      destruct H as [E [L [add [EC [F S]]]]].
      repeat split; [exact E | now apply Spec.lang_alt_l |].
      exists add. repeat split; [exact EC | |].
      * eapply from_weaken; [|exact F]. simpl. apply incl_appl, incl_refl.
      * intros n Hn. apply andb_prop in Hn. apply S, Hn.
    + apply IH2 in H. destruct w as [[m rest] c']. simpl in *.
      destruct H as [E [L [add [EC [F S]]]]].
      repeat split; [exact E | now apply Spec.lang_alt_r |].
      exists add. repeat split; [exact EC | |].
      * eapply from_weaken; [|exact F]. simpl. apply incl_appr, incl_refl.
      * intros n Hn. apply andb_prop in Hn. apply S, Hn.
  - simpl in Hin. eapply star_ways_sound in Hin; [exact Hin | exact IH0].
  - simpl in Hin. apply in_map_iff in Hin.
    destruct Hin as [[[m rest] c1] [<- H]].
    apply IH0 in H. simpl in *.
    destruct H as [E [L [add [EC [F S]]]]].
    repeat split; [exact E | now constructor |].
    exists ((n, m) :: add). repeat split.
    + now rewrite EC.
    + constructor.
      * exists r0. split; [now left | exact L].
      * eapply from_weaken; [|exact F]. simpl. apply incl_tl, incl_refl.
    + intros k Hk. simpl. apply orb_prop in Hk. destruct Hk as [Hk|Hk].
      * left. now apply Nat.eqb_eq.
      * right. now apply S.
Qed.

Lemma star_ways_nil fuel step g s c :
  In (EmptyString, s, c) (Regex.star_ways fuel step g s c).
Proof.
  destruct fuel as [|f]; simpl; [now left|].
  destruct g; [apply in_or_app; right; now left | now left].
Qed.

Lemma star_ways_mono step g : forall f f' s c w,
  (f <= f')%nat ->
  In w (Regex.star_ways f step g s c) ->
  In w (Regex.star_ways f' step g s c).
Proof.
  induction f as [|f IH]; intros f' s c w Hle Hin.
  - simpl in Hin. destruct Hin as [<-|[]]. apply star_ways_nil.
  - destruct f' as [|f']; [lia|].
    cbn [Regex.star_ways] in *.
    set (more f0 :=
           flat_map
             (fun w0 : Regex.way =>
                let '(m1, rest1, c1) := w0 in
                match m1 with
                | EmptyString => []
                | String _ _ =>
                    map (Regex.after m1) (Regex.star_ways f0 step g rest1 c1)
                end) (step s c)) in *.
    assert (Hmore : In w (more f) -> In w (more f')).
    { unfold more. intros H. apply in_flat_map in H.
      destruct H as [[[m1 rest1] c1] [H1 H2]].
      apply in_flat_map. exists (m1, rest1, c1). split; [exact H1|].
      destruct m1 as [|a m1]; [exact H2|].
      apply in_map_iff in H2. destruct H2 as [w2 [<- H2]].
      apply in_map. apply IH with (f' := f') in H2; [exact H2 | lia]. }
    destruct g.
    + apply in_app_or in Hin. apply in_or_app.
      destruct Hin as [H|H]; [left; now apply Hmore | now right].
    + destruct Hin as [H|H]; [now left | right; now apply Hmore].
Qed.

(** The matcher finds every text of the language at the head of its
    input. *)
Lemma ways_complete (r : Regex.re) (m : string) :
  Spec.lang r m ->
  forall rest c, exists c', In (m, rest, c') (Regex.ways r (m ++ rest) c).
Proof.
  induction 1 as [p a Hp| |r1 r2 m1 m2 _ IH1 _ IH2|r1 r2 m _ IH|r1 r2 m _ IH
                 |g r|g r m1 m2 _ IH1 _ IH2|n r m _ IH]; intros rest c.
  - simpl. rewrite Hp. exists c. now left.
  - simpl. exists c. now left.
  - destruct (IH1 (m2 ++ rest) c) as [c1 H1].
    destruct (IH2 rest c1) as [c2 H2].
    exists c2. rewrite append_assoc. simpl. apply in_flat_map.
    exists (m1, m2 ++ rest, c1). split; [exact H1|].
    apply in_map_iff. exists (m2, rest, c2). split; [reflexivity | exact H2].
  - destruct (IH rest c) as [c' H]. exists c'. simpl.
    apply in_or_app. now left.
  - destruct (IH rest c) as [c' H]. exists c'. simpl.
    apply in_or_app. now right.
  - exists c. simpl. apply star_ways_nil.
  - destruct m1 as [|a m1]; [exact (IH2 rest c)|].
    destruct (IH1 (m2 ++ rest) c) as [c1 H1].
    destruct (IH2 rest c1) as [c2 H2].
    exists c2. rewrite append_assoc.
    cbn [Regex.ways append String.length Regex.star_ways].
    assert (Hin :
      In (String a m1 ++ m2, rest, c2)
         (flat_map
            (fun w0 : Regex.way =>
               let '(m0, rest1, c0) := w0 in
               match m0 with
               | EmptyString => []
               | String _ _ =>
                   map (Regex.after m0)
                     (Regex.star_ways (String.length (m1 ++ m2 ++ rest))
                        (Regex.ways r) g rest1 c0)
               end) (Regex.ways r (String a (m1 ++ m2 ++ rest)) c))).
    { apply in_flat_map. exists (String a m1, m2 ++ rest, c1).
      split; [exact H1|].
      apply in_map_iff. exists (m2, rest, c2). split; [reflexivity|].
      simpl in H2. eapply star_ways_mono; [|exact H2].
      rewrite !length_append. lia. }
    destruct g; [apply in_or_app; now left | now right].
  - destruct (IH rest c) as [c' H]. exists ((n, m) :: c'). simpl.
    apply in_map_iff. exists (m, rest, c'). split; [reflexivity | exact H].
Qed.

(** The match that [exec] returns is the first way at some position. *)
Lemma exec_sound (r : Regex.re) : forall s m c,
  Regex.exec r s = Some (m, c) ->
  exists a rest, s = a ++ m ++ rest
                 /\ In (m, rest, c) (Regex.ways r (m ++ rest) []).
Proof.
  induction s as [|x s IH]; intros m c H; simpl in H.
  - destruct (Regex.ways r "" []) as [|[[m0 rest0] c0] l] eqn:E;
      [discriminate|].
    injection H as -> ->.
    assert (Hin : In (m, rest0, c) (Regex.ways r "" [])) by (rewrite E; now left).
    pose proof (ways_sound r _ _ _ Hin) as [Es _].
    exists "", rest0. split; [exact Es | now rewrite <- Es].
  - destruct (Regex.ways r (String x s) []) as [|[[m0 rest0] c0] l] eqn:E.
    + destruct (IH m c H) as [a [rest [Es Hin]]].
      exists (String x a), rest. split; [simpl; now rewrite Es | exact Hin].
    + injection H as -> ->.
      assert (Hin : In (m, rest0, c) (Regex.ways r (String x s) []))
        by (rewrite E; now left).
      pose proof (ways_sound r _ _ _ Hin) as [Es _].
      exists "", rest0. split; [exact Es | now rewrite <- Es].
Qed.

(** [exec] finds a match exactly when the text holds one. *)
Lemma exec_has_match (r : Regex.re) (s : string) :
  Regex.exec r s <> None <-> Spec.has_match r s.
Proof.
  split.
  - destruct (Regex.exec r s) as [[m c]|] eqn:E; [intros _|congruence].
    apply exec_sound in E. destruct E as [a [rest [Es Hin]]].
    exists a, m, rest. split; [exact Es|].
    now pose proof (ways_sound r _ _ _ Hin) as [_ [L _]].
  - intros [a [m [b [-> L]]]].
    induction a as [|x a IH].
    + destruct (ways_complete r m L b []) as [c' Hin].
      simpl. destruct (m ++ b) as [|y t] eqn:E; simpl;
        destruct (Regex.ways r _ []) as [|[[m0 r0] c0] l];
        try discriminate; destruct Hin.
    + simpl.
      destruct (Regex.ways r (String x (a ++ m ++ b)) [])
        as [|[[m0 r0] c0] l]; [exact IH | discriminate].
Qed.

(** ** Meeting patterns *)

Lemma exec_groups (r : Regex.re) (s m : string) (c : Regex.caps) :
  Regex.exec r s = Some (m, c) ->
  Groups.from r c /\ forall n, Spec.sets r n = true -> In n (map fst c).
Proof.
  intros H. apply exec_sound in H. destruct H as [a [rest [_ Hin]]].
  pose proof (ways_sound r _ _ _ Hin) as [_ [_ [added [-> [F S]]]]].
  rewrite app_nil_r. now split.
Qed.

Lemma group_lookup (n : nat) (c : Regex.caps) :
  In n (map fst c) -> exists v, Regex.group n c = Some v /\ In (n, v) c.
Proof.
  induction c as [|[k v] c IH]; intros H; [destruct H|].
  simpl. destruct (Nat.eqb_spec k n) as [->|Hne].
  - exists v. split; [reflexivity | now left].
  - destruct H as [H|H]; [simpl in H; congruence|].
    destruct (IH H) as [v' [E Hin]]. exists v'. split; [exact E | now right].
Qed.

(** A group that the pattern always sets holds a text of one of the
    sub-patterns with its number. *)
Lemma exec_group (r : Regex.re) (s m : string) (c : Regex.caps) (n : nat) :
  Regex.exec r s = Some (m, c) -> Spec.sets r n = true ->
  exists v r0, Regex.group n c = Some v
               /\ In (n, r0) (Spec.subgroups r) /\ Spec.lang r0 v.
Proof.
  intros H Hn. destruct (exec_groups r s m c H) as [F S].
  destruct (group_lookup n c (S n Hn)) as [v [E Hin]].
  unfold Groups.from in F. rewrite Forall_forall in F.
  destruct (F _ Hin) as [r0 [Hr0 L]]. now exists v, r0.
Qed.

Ltac inv_lang :=
  repeat match goal with
         | H : Spec.lang (Regex.Seq _ _) _ |- _ => inversion H; subst; clear H
         | H : Spec.lang (Regex.Alt _ _) _ |- _ => inversion H; subst; clear H
         | H : Spec.lang (Regex.Chr _) _ |- _ => inversion H; subst; clear H
         | H : Spec.lang Regex.Eps _ |- _ => inversion H; subst; clear H
         | H : Spec.lang (Regex.Group _ _) _ |- _ =>
             inversion H; subst; clear H
         end.

Lemma digit_not_colon (a : ascii) :
  JS.is_digit a = true -> Ascii.eqb a ":" = false.
Proof.
  destruct a as [[] [] [] [] [] [] [] []]; vm_compute; congruence.
Qed.

(** A clock text holds its colon: the time conversion does not throw. *)
Lemma clock_converts (v period : string) :
  Spec.lang Parser.clock_re v -> Parser.convertTo24Hour v period <> None.
Proof.
  intros L. unfold Parser.clock_re, Regex.seqs, Regex.opt, Regex.lit,
    Regex.lit_char, Regex.digit in L.
  inv_lang;
    repeat match goal with
           | H : JS.is_digit _ = true |- _ => apply digit_not_colon in H
           | H : Ascii.eqb ":" _ = true |- _ =>
               apply Ascii.eqb_eq in H; subst
           end;
    unfold Parser.convertTo24Hour; simpl JS.split;
    repeat match goal with
           | H : Ascii.eqb _ ":" = false |- _ => rewrite H
           end;
    simpl; discriminate.
Qed.

Lemma timeRange_clock (s m : string) (c : Regex.caps) (n : nat) :
  Regex.exec Parser.timeRange_re s = Some (m, c) -> n = 1%nat \/ n = 3%nat ->
  exists v, Regex.group n c = Some v /\ Spec.lang Parser.clock_re v.
Proof.
  intros H Hn.
  assert (Hs : Spec.sets Parser.timeRange_re n = true)
    by (destruct Hn as [->| ->]; reflexivity).
  destruct (exec_group _ _ _ _ n H Hs) as [v [r0 [E [Hin L]]]].
  exists v. split; [exact E|].
  simpl in Hin.
  destruct Hn as [->| ->];
    repeat (destruct Hin as [Hin|Hin];
            [first [ discriminate Hin
                   | injection Hin; intros; subst; assumption ]|]);
    destruct Hin.
Qed.

Lemma dateRange_iso (s m : string) (c : Regex.caps) (n : nat) :
  Regex.exec Parser.dateRange_re s = Some (m, c) -> n = 1%nat \/ n = 2%nat ->
  exists v, Regex.group n c = Some v /\ Spec.lang Parser.isoDate_re v.
Proof.
  intros H Hn.
  assert (Hs : Spec.sets Parser.dateRange_re n = true)
    by (destruct Hn as [->| ->]; reflexivity).
  destruct (exec_group _ _ _ _ n H Hs) as [v [r0 [E [Hin L]]]].
  exists v. split; [exact E|].
  simpl in Hin.
  destruct Hn as [->| ->];
    repeat (destruct Hin as [Hin|Hin];
            [first [ discriminate Hin
                   | injection Hin; intros; subst; assumption ]|]);
    destruct Hin.
Qed.

(** What one line of the cell yields: no error; one meeting, with the dates
    of the date range of its first field, when the first and third fields
    hold their ranges; nothing otherwise. *)
Lemma parseMeetingLine_cases (line : string) :
  (exists m f0 f1 f2 more whole dc d1 d2,
      Parser.parseMeetingLine line = Some [m]
      /\ Spec.fields line = f0 :: f1 :: f2 :: more
      /\ Regex.exec Parser.dateRange_re f0 = Some (whole, dc)
      /\ Regex.exec Parser.timeRange_re f2 <> None
      /\ Regex.group 1 dc = Some d1 /\ Regex.group 2 dc = Some d2
      /\ Spec.lang Parser.isoDate_re d1 /\ Spec.lang Parser.isoDate_re d2
      /\ startDate m = Some d1 /\ endDate m = Some d2
      /\ days m = Parser.parseDays f1)
  \/ (Parser.parseMeetingLine line = Some []
      /\ forall f0 f1 f2 more,
           Spec.fields line = f0 :: f1 :: f2 :: more ->
           Regex.exec Parser.dateRange_re f0 = None
           \/ Regex.exec Parser.timeRange_re f2 = None).
Proof.
  unfold Parser.parseMeetingLine, Spec.fields.
  destruct (map JS.trim (JS.split "|" line)) as [|f0 [|f1 [|f2 more]]];
    try (right; split; [reflexivity | intros; discriminate]).
  destruct (Regex.exec Parser.dateRange_re f0) as [[whole dc]|] eqn:Ed.
  2:{ right. split; [reflexivity|]. intros ? ? ? ? E.
      injection E as <- <- <- <-. now left. }
  destruct (Regex.exec Parser.timeRange_re f2) as [[tw tc]|] eqn:Et.
  2:{ right. split; [reflexivity|]. intros ? ? ? ? E.
      injection E as <- <- <- <-. now right. }
  left.
  destruct (timeRange_clock _ _ _ 1 Et ltac:(now left)) as [v1 [E1 L1]].
  destruct (timeRange_clock _ _ _ 3 Et ltac:(now right)) as [v3 [E3 L3]].
  destruct (dateRange_iso _ _ _ 1 Ed ltac:(now left)) as [d1 [G1 I1]].
  destruct (dateRange_iso _ _ _ 2 Ed ltac:(now right)) as [d2 [G2 I2]].
  rewrite E1, E3. cbn [Calendar.show].
  pose proof (clock_converts v1 (Calendar.show (Regex.group 2 tc)) L1) as C1.
  pose proof (clock_converts v3 (Calendar.show (Regex.group 4 tc)) L3) as C3.
  destruct (Parser.convertTo24Hour v1 _) as [st|]; [|congruence].
  destruct (Parser.convertTo24Hour v3 _) as [et|]; [|congruence].
  eexists _, f0, f1, f2, more, whole, dc, d1, d2.
  split; [reflexivity|].
  repeat split; try assumption; try discriminate; congruence.
Qed.

Lemma parseMeetingLine_total (line : string) :
  exists ms, Parser.parseMeetingLine line = Some ms.
Proof.
  destruct (parseMeetingLine_cases line)
    as [[m [f0 [f1 [f2 [more [whole [dc [d1 [d2 [H _]]]]]]]]]]|[H _]];
    eauto.
Qed.

Lemma parseMeetingLines_total (lines : list string) :
  exists ms, Parser.parseMeetingLines lines = Some ms.
Proof.
  induction lines as [|l lines [ms' IH]]; simpl; [eauto|].
  destruct (parseMeetingLine_total l) as [ms H]. rewrite H, IH. eauto.
Qed.

(** parseMeetingPatterns never throws. *)
Lemma parseMeetingPatterns_total (pattern : string) :
  exists ms, Parser.parseMeetingPatterns pattern = Some ms.
Proof.
  unfold Parser.parseMeetingPatterns.
  destruct pattern; [eauto | apply parseMeetingLines_total].
Qed.

Lemma parseMeetingLine_iff (line : string) :
  (exists m, Parser.parseMeetingLine line = Some [m])
  <-> Spec.meeting_line line.
Proof.
  unfold Spec.meeting_line.
  destruct (parseMeetingLine_cases line)
    as [[m [f0 [f1 [f2 [more [whole [dc [d1 [d2 [H [F [Ed [Et _]]]]]]]]]]]]]
       |[H Hno]].
  - split; [intros _|intros _; eauto].
    exists f0, f1, f2, more. split; [exact F|].
    split; apply exec_has_match; congruence.
  - split.
    + intros [m Hm]. congruence.
    + intros [f0 [f1 [f2 [more [F [Hd Ht]]]]]].
      apply exec_has_match in Hd, Ht.
      destruct (Hno _ _ _ _ F); contradiction.
Qed.

Lemma digit_not_space (a : ascii) :
  JS.is_digit a = true -> JS.is_space a = false.
Proof.
  destruct a as [[] [] [] [] [] [] [] []]; vm_compute; congruence.
Qed.

Lemma ways_chr_hit (p : ascii -> bool) a s c :
  p a = true -> Regex.ways (Regex.Chr p) (String a s) c = [(String a "", s, c)].
Proof. intros H. simpl. now rewrite H. Qed.

Lemma ways_seq_chr (p : ascii -> bool) r a s c :
  p a = true ->
  Regex.ways (Regex.Seq (Regex.Chr p) r) (String a s) c
  = map (Regex.after (String a "")) (Regex.ways r s c).
Proof. intros H. simpl. rewrite H. simpl. now rewrite app_nil_r. Qed.

(** An ISO date at the head of the input is matched in one way. *)
Lemma ways_isoDate (d rest : string) (c : Regex.caps) :
  Spec.lang Parser.isoDate_re d ->
  Regex.ways Parser.isoDate_re (d ++ rest) c = [(d, rest, c)].
Proof.
  intros L.
  unfold Parser.isoDate_re, Regex.seqs, Regex.lit, Regex.lit_char,
    Regex.digit in *.
  inv_lang.
  cbn [append].
  repeat (rewrite ways_seq_chr by assumption).
  rewrite ways_chr_hit by assumption.
  reflexivity.
Qed.

Lemma ways_spaces_one (a : ascii) (s : string) (c : Regex.caps) :
  JS.is_space a = false ->
  Regex.ways Regex.spaces (String " " (String a s)) c
  = [ (" ", String a s, c); ("", String " " (String a s), c) ].
Proof.
  intros H. unfold Regex.spaces, Regex.space.
  cbn [Regex.ways String.length Regex.star_ways].
  assert (Hs : JS.is_space " " = true) by reflexivity.
  rewrite Hs. cbn [flat_map map app Regex.after append Regex.star_ways
                   Regex.ways].
  rewrite H. reflexivity.
Qed.

Lemma ways_spaces_none (a : ascii) (s : string) (c : Regex.caps) :
  JS.is_space a = false ->
  Regex.ways Regex.spaces (String a s) c = [("", String a s, c)].
Proof.
  intros H. unfold Regex.spaces, Regex.space.
  cbn [Regex.ways String.length Regex.star_ways]. rewrite H. reflexivity.
Qed.

Lemma isoDate_head (d : string) :
  Spec.lang Parser.isoDate_re d ->
  exists a t, d = String a t /\ JS.is_digit a = true.
Proof.
  intros L.
  unfold Parser.isoDate_re, Regex.seqs, Regex.lit, Regex.lit_char,
    Regex.digit in *.
  inv_lang. cbn [append]. eauto.
Qed.

(** On a first field of the form [d1 - d2] the date range is read as the
    two dates. *)
Lemma dateRange_canonical (d1 d2 : string) :
  Spec.lang Parser.isoDate_re d1 -> Spec.lang Parser.isoDate_re d2 ->
  Regex.exec Parser.dateRange_re (d1 ++ " - " ++ d2)
  = Some (d1 ++ " - " ++ d2, [(2%nat, d2); (1%nat, d1)]).
Proof.
  intros L1 L2.
  assert (W : Regex.ways Parser.dateRange_re (d1 ++ " - " ++ d2) []
              = [(d1 ++ " - " ++ d2, "", [(2%nat, d2); (1%nat, d1)])]).
  { destruct (isoDate_head d2 L2) as [a [t [E Ha]]].
    pose proof (digit_not_space a Ha) as Hsp.
    unfold Parser.dateRange_re, Regex.seqs.
    cbn [Regex.ways].
    rewrite (ways_isoDate d1 _ _ L1).
    cbn [map flat_map app append].
    fold Regex.spaces.
    change (Regex.Star true Regex.space) with Regex.spaces.
    rewrite (ways_spaces_one "-" _ _ eq_refl).
    cbn [map flat_map app append Regex.ways Regex.lit Regex.lit_char
         Ascii.eqb Bool.eqb].
    change (Regex.Star true Regex.space) with Regex.spaces.
    rewrite E. rewrite (ways_spaces_one a t _ Hsp).
    rewrite <- E.
    cbn [map flat_map app].
    assert (W2 : Regex.ways Parser.isoDate_re d2 [(1%nat, d1)]
                 = [(d2, "", [(1%nat, d1)])]).
    { pose proof (ways_isoDate d2 "" [(1%nat, d1)] L2) as W2.
      now rewrite append_nil_r in W2. }
    assert (W3 : Regex.ways Parser.isoDate_re (String " " d2) [(1%nat, d1)]
                 = []) by reflexivity.
    rewrite W2, W3.
    cbn [map flat_map app Regex.after append].
    rewrite ?append_nil_r. reflexivity. }
  destruct (isoDate_head d1 L1) as [a1 [t1 [E1 _]]].
  revert W. rewrite E1. cbn [append]. intros W.
  cbn [Regex.exec]. rewrite W. reflexivity.
Qed.

Lemma split_nonempty sep s : JS.split sep s <> [].
Proof.
  destruct s as [|c s]; simpl; [discriminate|].
  destruct (Ascii.eqb c sep); [discriminate|].
  destruct (JS.split sep s); discriminate.
Qed.

Lemma split_one_app (sep : ascii) (a b : string) :
  JS.split sep a = [a] ->
  JS.split sep (a ++ String sep b) = a :: JS.split sep b.
Proof.
  induction a as [|c a IH]; intros H; simpl.
  - now rewrite Ascii.eqb_refl.
  - simpl in H. destruct (Ascii.eqb c sep) eqn:E; [discriminate|].
    destruct (JS.split sep a) as [|x xs] eqn:Es.
    + now destruct (split_nonempty sep a).
    + injection H as Hx Hxs. subst x xs. now rewrite IH.
Qed.

Lemma non_blank_truthy (l : string) :
  Spec.non_blank l -> JS.truthy (Some (JS.trim l)) = true.
Proof.
  unfold Spec.non_blank. destruct (JS.trim l); [congruence | reflexivity].
Qed.

(** Two lines with a blank line between them are parsed one after the
    other. *)
Lemma two_blocks (l1 l2 : string) (m1 m2 : Meeting) :
  Spec.one_line l1 -> Spec.one_line l2 ->
  Spec.non_blank l1 -> Spec.non_blank l2 ->
  Parser.parseMeetingLine l1 = Some [m1] ->
  Parser.parseMeetingLine l2 = Some [m2] ->
  Parser.parseMeetingPatterns (l1 ++ Samples.blank_line ++ l2)
  = Some [m1; m2].
Proof.
  intros O1 O2 N1 N2 P1 P2.
  assert (Hl : Parser.pattern_lines (l1 ++ Samples.blank_line ++ l2)
               = [l1; l2]).
  { unfold Parser.pattern_lines, Samples.blank_line.
    change (l1 ++ String JS.LF (String JS.LF "") ++ l2)
      with (l1 ++ String JS.LF ("" ++ String JS.LF l2)).
    rewrite (split_one_app _ _ _ O1).
    rewrite (split_one_app JS.LF "" l2 eq_refl).
    unfold Spec.one_line in O2. rewrite O2.
    cbn [filter]. rewrite (non_blank_truthy _ N1), (non_blank_truthy _ N2).
    reflexivity. }
  unfold Parser.parseMeetingPatterns.
  destruct (l1 ++ Samples.blank_line ++ l2) eqn:E.
  - destruct l1; discriminate.
  - rewrite Hl. simpl. now rewrite P1, P2.
Qed.

Lemma pattern_lines_empty : Parser.pattern_lines "" = [].
Proof. reflexivity. Qed.

Lemma parseMeetingLines_length (lines : list string) (ms : list Meeting) :
  Parser.parseMeetingLines lines = Some ms ->
  (List.length ms <= List.length lines)%nat.
Proof.
  revert ms. induction lines as [|l lines IH]; intros ms H; simpl in H.
  - injection H as <-. simpl. lia.
  - destruct (parseMeetingLine_cases l)
      as [[m [f0 [f1 [f2 [more [whole [dc [d1 [d2 [E _]]]]]]]]]]|[E _]];
      rewrite E in H;
      destruct (Parser.parseMeetingLines lines) as [ms'|]; try discriminate;
      injection H as <-; specialize (IH ms' eq_refl); simpl; lia.
Qed.

(** C5, as the code has it: parseMeetingPatterns parses the non-blank lines
    of the cell one by one and never throws; a line yields one meeting
    exactly when it has at least three pipe-separated fields of which the
    first holds a date range and the third a time range, and no meeting
    otherwise; a meeting of a line that starts with [d1 - d2] carries these
    two dates; two such lines with a blank line between them yield their two
    meetings in order, as in the reading-break test of the repository. *)
Theorem parseMeetingPatterns_lines :
  (forall pattern,
      Parser.parseMeetingPatterns pattern
      = Parser.parseMeetingLines (Parser.pattern_lines pattern)
      /\ exists ms,
           Parser.parseMeetingPatterns pattern = Some ms
           /\ (List.length ms
               <= List.length (Parser.pattern_lines pattern))%nat)
  /\ (forall line,
         exists ms,
           Parser.parseMeetingLine line = Some ms
           /\ (List.length ms <= 1)%nat
           /\ (ms <> [] <-> Spec.meeting_line line))
  /\ (forall line m d1 d2 f1 f2 more,
         Parser.parseMeetingLine line = Some [m] ->
         Spec.fields line = (d1 ++ " - " ++ d2) :: f1 :: f2 :: more ->
         Spec.lang Parser.isoDate_re d1 -> Spec.lang Parser.isoDate_re d2 ->
         startDate m = Some d1 /\ endDate m = Some d2)
  /\ (forall l1 l2 m1 m2,
         Spec.one_line l1 -> Spec.one_line l2 ->
         Spec.non_blank l1 -> Spec.non_blank l2 ->
         Parser.parseMeetingLine l1 = Some [m1] ->
         Parser.parseMeetingLine l2 = Some [m2] ->
         Parser.parseMeetingPatterns (l1 ++ Samples.blank_line ++ l2)
         = Some [m1; m2])
  /\ map (fun m => (startDate m, endDate m))
         (match Parser.parseMeetingPatterns
                  (Samples.before_break ++ Samples.blank_line
                   ++ Samples.after_break) with
          | Some ms => ms
          | None => []
          end)
     = [ (Some "2026-01-05", Some "2026-02-11");
         (Some "2026-02-23", Some "2026-04-08") ].
Proof.
  split; [|split; [|split; [|split]]].
  - intros pattern.
    assert (E : Parser.parseMeetingPatterns pattern
                = Parser.parseMeetingLines (Parser.pattern_lines pattern)).
    { unfold Parser.parseMeetingPatterns. now destruct pattern. }
    split; [exact E|].
    destruct (parseMeetingPatterns_total pattern) as [ms H].
    exists ms. split; [exact H|].
    rewrite E in H. now apply parseMeetingLines_length.
  - intros line.
    pose proof (parseMeetingLine_iff line) as Hiff.
    destruct (parseMeetingLine_cases line)
      as [[m [f0 [f1 [f2 [more [whole [dc [d1 [d2 [E _]]]]]]]]]]|[E _]].
    + exists [m]. split; [exact E|]. split; [simpl; lia|].
      split; [intros _; apply Hiff; eauto | discriminate].
    + exists []. split; [exact E|]. split; [simpl; lia|].
      split; [congruence|].
      intros Hm. apply Hiff in Hm. destruct Hm as [m Hm]. congruence.
  - intros line m d1 d2 f1 f2 more Hm Hf L1 L2.
    destruct (parseMeetingLine_cases line)
      as [(m' & f0 & f1' & f2' & more' & whole & dc & e1 & e2 & E & F & Ed
           & _ & G1 & G2 & _ & _ & S1 & S2 & _)|[E _]];
      [|congruence].
    rewrite Hm in E. injection E as <-.
    rewrite Hf in F. injection F as F0 F1 F2 F3. subst f0 f1' f2' more'.
    pose proof (dateRange_canonical d1 d2 L1 L2) as Hc.
    cbn [append] in Hc, Ed. rewrite Hc in Ed.
    injection Ed as <- <-. simpl in G1, G2.
    split; congruence.
  - exact two_blocks.
  - vm_compute. reflexivity.
Qed.

Lemma parseMeetingPatterns_lines_witness :
  Parser.parseMeetingPatterns
    (Samples.before_break ++ Samples.blank_line ++ Samples.after_break)
  = Some [ Samples.block "2026-01-05" "2026-02-11";
           Samples.block "2026-02-23" "2026-04-08" ].
Proof.
  apply (proj1 (proj2 (proj2 (proj2 parseMeetingPatterns_lines)))).
  - reflexivity.
  - reflexivity.
  - vm_compute. discriminate.
  - vm_compute. discriminate.
  - vm_compute. reflexivity.
  - vm_compute. reflexivity.
Defined.

(** C5 as stated fails: a line that holds a date range and a time range but
    no pipe yields no meeting. *)
Lemma unpiped_line_dropped :
  Spec.has_match Parser.dateRange_re Samples.unpiped
  /\ Spec.has_match Parser.timeRange_re Samples.unpiped
  /\ Parser.parseMeetingPatterns Samples.unpiped = Some [].
Proof.
  split; [|split].
  - apply exec_has_match. vm_compute. discriminate.
  - apply exec_has_match. vm_compute. discriminate.
  - vm_compute. reflexivity.
Qed.

(** ** Student context *)

Lemma ways_seq_inv r1 r2 s c m rest c' :
  In (m, rest, c') (Regex.ways (Regex.Seq r1 r2) s c) ->
  exists m1 m2 mid c1,
    m = m1 ++ m2 /\ In (m1, mid, c1) (Regex.ways r1 s c)
    /\ In (m2, rest, c') (Regex.ways r2 mid c1).
Proof.
  simpl. intros H. apply in_flat_map in H.
  destruct H as [[[m1 mid] c1] [H1 H2]].
  apply in_map_after in H2. destruct H2 as [m2 [rest' [c2 [E H2]]]].
  injection E as -> -> ->. now exists m1, m2, mid, c1.
Qed.

Lemma ways_group_inv n r s c m rest c' :
  In (m, rest, c') (Regex.ways (Regex.Group n r) s c) ->
  exists c0, c' = (n, m) :: c0 /\ In (m, rest, c0) (Regex.ways r s c).
Proof.
  simpl. intros H. apply in_map_iff in H.
  destruct H as [[[m0 rest0] c0] [E H]]. injection E as -> -> <-.
  now exists c0.
Qed.

Lemma ways_no_groups r s c m rest c' :
  Spec.subgroups r = [] ->
  In (m, rest, c') (Regex.ways r s c) -> c' = c.
Proof.
  intros Hg H. apply ways_sound in H. simpl in H.
  destruct H as [_ [_ [added [-> [F _]]]]].
  unfold Groups.from in F. rewrite Hg in F.
  destruct added as [|x added]; [reflexivity|].
  inversion F as [|? ? [r0 [[] _]] _].
Qed.

Lemma lang_plus_class (p : ascii -> bool) (m : string) :
  Spec.lang (Regex.plus (Regex.Chr p)) m ->
  m <> "" /\ Escape.count_if (fun a => negb (p a)) m = 0%nat.
Proof.
  unfold Regex.plus. intros L.
  inversion L as [| |r1 r2 m1 m2 L1 L2| | | | |]; subst.
  inversion L1 as [p0 a Hp| | | | | | |]; subst.
  split; [discriminate|].
  simpl. rewrite Hp. simpl. clear L L1 Hp.
  remember (Regex.Star true (Regex.Chr p)) as r eqn:Er.
  induction L2 as [| | | | | |g r0 n1 n2 La IHa Lb IHb|]; try discriminate;
    [reflexivity|].
  injection Er as -> ->. inversion La as [p0 b Hq| | | | | | |]; subst.
  simpl. rewrite Hq. simpl. now apply IHb.
Qed.

Lemma digits_all (m : string) :
  Escape.count_if (fun a => negb (JS.is_digit a)) m = 0%nat ->
  JS.all_digits m = true.
Proof.
  induction m as [|a m IH]; simpl; [reflexivity|].
  destruct (JS.is_digit a); simpl; [exact IH | discriminate].
Qed.

Lemma exec_head (r : Regex.re) (s m rest : string) (c : Regex.caps)
    (l : list Regex.way) :
  Regex.ways r s [] = (m, rest, c) :: l -> Regex.exec r s = Some (m, c).
Proof. intros E. destruct s; simpl; rewrite E; reflexivity. Qed.

Lemma includes_paren_cons (a : ascii) (s : string) :
  JS.includes (String a s) "(" = false ->
  a <> "("%char /\ JS.includes s "(" = false.
Proof.
  cbn [JS.includes JS.startsWith].
  destruct (Ascii.eqb_spec "(" a) as [<-|Hne]; cbn [andb]; [discriminate|].
  intros H. split; [congruence | exact H].
Qed.

(** A text is cut at its first opening parenthesis in one way only. *)
Lemma first_paren (n1 : string) : forall n2 t1 t2,
  JS.includes n1 "(" = false -> JS.includes n2 "(" = false ->
  n1 ++ String "(" t1 = n2 ++ String "(" t2 -> n1 = n2 /\ t1 = t2.
Proof.
  induction n1 as [|a n1 IH]; intros n2 t1 t2 H1 H2 E.
  - destruct n2 as [|b n2]; cbn [append] in E.
    + injection E as E. now split.
    + injection E as E _. subst b.
      apply includes_paren_cons in H2. now destruct H2.
  - destruct n2 as [|b n2]; cbn [append] in E.
    + injection E as E _. subst a.
      apply includes_paren_cons in H1. now destruct H1.
    + injection E as -> E.
      apply includes_paren_cons in H1, H2.
      destruct (IH n2 t1 t2 (proj2 H1) (proj2 H2) E) as [-> ->]. now split.
Qed.

(** A run of digits ends at a closing parenthesis in one way only. *)
Lemma digits_to_paren (d1 : string) : forall d2 t1 t2,
  JS.all_digits d1 = true -> JS.all_digits d2 = true ->
  d1 ++ String ")" t1 = d2 ++ String ")" t2 -> d1 = d2 /\ t1 = t2.
Proof.
  induction d1 as [|a d1 IH]; intros d2 t1 t2 H1 H2 E.
  - destruct d2 as [|b d2]; cbn [append] in E.
    + injection E as E. now split.
    + injection E as E _. subst b. discriminate H2.
  - destruct d2 as [|b d2]; cbn [append] in E.
    + injection E as E _. subst a. discriminate H1.
    + injection E as -> E. cbn [JS.all_digits] in H1, H2.
      apply andb_prop in H1, H2.
      destruct (IH d2 t1 t2 (proj2 H1) (proj2 H2) E) as [-> ->]. now split.
Qed.

(** The ways of the pattern of the row loop. *)
Lemma studentMatch_way (s whole rest : string) (caps : Regex.caps) :
  In (whole, rest, caps) (Regex.ways Parser.studentMatch_re s []) ->
  exists name id,
    s = name ++ "(" ++ id ++ ")" ++ rest
    /\ caps = [(2%nat, id); (1%nat, name)]
    /\ name <> "" /\ JS.includes name "(" = false
    /\ id <> "" /\ JS.all_digits id = true.
Proof.
  intros Hin.
  pose proof (ways_sound _ _ _ _ Hin) as [Es _].
  unfold Parser.studentMatch_re, Regex.seqs in Hin.
  apply ways_seq_inv in Hin.
  destruct Hin as [m1 [m234 [mid1 [c1 [Ew [H1 Hin]]]]]].
  apply ways_seq_inv in Hin.
  destruct Hin as [m2 [m34 [mid2 [c2 [E234 [H2 Hin]]]]]].
  apply ways_seq_inv in Hin.
  destruct Hin as [m3 [m4 [mid3 [c3 [E34 [H3 H4]]]]]].
  apply ways_group_inv in H1. destruct H1 as [c0 [-> H1]].
  apply ways_group_inv in H3. destruct H3 as [c2' [-> H3]].
  pose proof (fun Hg => ways_no_groups _ _ _ _ _ _ Hg H1) as G1.
  specialize (G1 eq_refl).
  pose proof (fun Hg => ways_no_groups _ _ _ _ _ _ Hg H2) as G2.
  specialize (G2 eq_refl).
  pose proof (fun Hg => ways_no_groups _ _ _ _ _ _ Hg H3) as G3.
  specialize (G3 eq_refl).
  pose proof (fun Hg => ways_no_groups _ _ _ _ _ _ Hg H4) as G4.
  specialize (G4 eq_refl).
  subst c0. subst c2. subst c2'. subst caps. subst whole m234 m34.
  apply ways_sound in H1, H2, H3, H4. simpl in H1, H2, H3, H4.
  destruct H1 as [_ [L1 _]]. destruct H2 as [_ [L2 _]].
  destruct H3 as [_ [L3 _]]. destruct H4 as [_ [L4 _]].
  unfold Regex.lit, Regex.lit_char in L2, L4.
  inversion L2 as [p a Hp| | | | | | |]; subst.
  inversion L4 as [p b Hq| | | | | | |]; subst.
  apply Ascii.eqb_eq in Hp, Hq. subst a b.
  apply lang_plus_class in L1, L3.
  destruct L1 as [N1 P1]. destruct L3 as [N3 P3].
  exists m1, m3. repeat split; try assumption.
  - repeat (rewrite append_assoc; simpl). reflexivity.
  - clear - P1. induction m1 as [|a m IH]; [reflexivity|].
    cbn [Escape.count_if] in P1.
    cbn [JS.includes JS.startsWith].
    destruct (Ascii.eqb_spec a "(") as [->|Hne]; cbn [negb] in P1;
      [discriminate|].
    destruct (Ascii.eqb_spec "(" a) as [<-|_]; [congruence|].
    cbn [andb]. now apply IH.
  - now apply digits_all.
Qed.

Lemma lang_star_class (p : ascii -> bool) (m : string) :
  Escape.count_if (fun a => negb (p a)) m = 0%nat ->
  Spec.lang (Regex.Star true (Regex.Chr p)) m.
Proof.
  induction m as [|a m IH]; cbn [Escape.count_if]; intros H.
  - constructor.
  - destruct (p a) eqn:Hp; cbn [negb] in H; [|discriminate].
    change (String a m) with (String a "" ++ m).
    constructor; [now constructor | now apply IH].
Qed.

Lemma class_plus_lang (p : ascii -> bool) (m : string) :
  m <> "" -> Escape.count_if (fun a => negb (p a)) m = 0%nat ->
  Spec.lang (Regex.plus (Regex.Chr p)) m.
Proof.
  destruct m as [|a m]; [congruence|]. intros _.
  cbn [Escape.count_if]. intros H.
  destruct (p a) eqn:Hp; cbn [negb] in H; [|discriminate].
  change (String a m) with (String a "" ++ m). unfold Regex.plus.
  constructor; [now constructor | now apply lang_star_class].
Qed.

Lemma no_paren_count (m : string) :
  JS.includes m "(" = false ->
  Escape.count_if (fun a => negb (negb (Ascii.eqb a "("))) m = 0%nat.
Proof.
  induction m as [|a m IH]; [reflexivity|]. intros H.
  apply includes_paren_cons in H. destruct H as [Hne H].
  cbn [Escape.count_if].
  destruct (Ascii.eqb_spec a "(") as [->|_]; [congruence|].
  cbn [negb]. now apply IH.
Qed.

Lemma all_digits_count (m : string) :
  JS.all_digits m = true ->
  Escape.count_if (fun a => negb (JS.is_digit a)) m = 0%nat.
Proof.
  induction m as [|a m IH]; [reflexivity|]. cbn [JS.all_digits].
  intros H. apply andb_prop in H. destruct H as [Ha H].
  cbn [Escape.count_if]. rewrite Ha. cbn [negb]. now apply IH.
Qed.

(** The match of the row loop on a label that opens with the name. *)
Lemma studentMatch_label (name id rest : string) :
  name <> "" -> JS.includes name "(" = false ->
  id <> "" -> JS.all_digits id = true ->
  exists whole,
    Regex.exec Parser.studentMatch_re (name ++ "(" ++ id ++ ")" ++ rest)
    = Some (whole, [(2%nat, id); (1%nat, name)]).
Proof.
  intros N1 P1 N2 D2.
  assert (L : Spec.lang Parser.studentMatch_re (name ++ "(" ++ id ++ ")")).
  { unfold Parser.studentMatch_re, Regex.seqs.
    constructor; [constructor; apply class_plus_lang;
                  [exact N1 | now apply no_paren_count]|].
    change ("(" ++ id ++ ")") with ("(" ++ (id ++ ")")).
    constructor; [constructor; reflexivity|].
    constructor; [|constructor; reflexivity].
    constructor. apply class_plus_lang; [exact N2 | now apply all_digits_count]. }
  destruct (ways_complete _ _ L rest []) as [c' Hin].
  replace ((name ++ "(" ++ id ++ ")") ++ rest)
    with (name ++ "(" ++ id ++ ")" ++ rest) in Hin
    by (repeat (rewrite append_assoc; simpl); reflexivity).
  destruct (Regex.ways Parser.studentMatch_re
              (name ++ "(" ++ id ++ ")" ++ rest) [])
    as [|[[m0 rest0] c0] l] eqn:E; [destruct Hin|].
  exists m0. rewrite (exec_head _ _ _ _ _ _ E).
  assert (H0 : In (m0, rest0, c0)
                 (Regex.ways Parser.studentMatch_re
                    (name ++ "(" ++ id ++ ")" ++ rest) []))
    by (rewrite E; now left).
  apply studentMatch_way in H0.
  destruct H0 as (n' & i' & El & -> & N1' & P1' & N2' & D2').
  apply first_paren in El; try assumption. destruct El as [<- El].
  apply digits_to_paren in El; try assumption. destruct El as [<- _].
  reflexivity.
Qed.

Section StudentContext.

Variable date_parse : string -> option string.

Lemma parseCourseRow_student (row headers : Parser.Row) (s : StudentInfo) :
  exists c,
    Parser.parseCourseRow date_parse row headers (Some s) = Some c
    /\ student c = Some s.
Proof.
  unfold Parser.parseCourseRow.
  match goal with
  | |- context [let '(code, name) := ?p in _] => destruct p as [cd nm]
  end.
  match goal with
  | |- context [Parser.parseMeetingPatterns ?p] =>
      destruct (parseMeetingPatterns_total p) as [ms ->]
  end.
  eexists. split; [reflexivity|]. simpl.
  destruct (Parser.cell row 0) as [[|a c0]|]; reflexivity.
Qed.

Lemma parse_row_student (row headers : Parser.Row)
    (st : option StudentInfo) (s : StudentInfo) :
  Parser.row_student row st = Some s ->
  exists cs,
    Parser.parse_row date_parse row headers st = Some (Some s, cs)
    /\ forall c, In c cs -> student c = Some s.
Proof.
  intros H. unfold Parser.parse_row.
  destruct row as [|c0 row].
  - unfold Parser.row_student in H. simpl in H. subst st. exists []. split; [reflexivity | intros c []].
  - rewrite H.
    destruct (Parser.cell (c0 :: row) 1) as [[|a v]|];
      try (exists []; split; [reflexivity | intros c []]).
    destruct (JS.includes (String a v) "_V ");
      [|exists []; split; [reflexivity | intros c []]].
    destruct (parseCourseRow_student (c0 :: row) headers s) as [c [-> Hs]].
    destruct (code c).
    + exists []. split; [reflexivity | intros c' []].
    + exists [c]. split; [reflexivity|].
      intros c' [<-|[]]. exact Hs.
Qed.

Lemma row_student_keep (row : Parser.Row) (st : option StudentInfo) :
  Parser.row_student row None = None -> Parser.row_student row st = st.
Proof.
  unfold Parser.row_student.
  destruct (Parser.cell row 0) as [[|a c0]|]; try reflexivity.
  destruct (JS.includes (String a c0) "(" && JS.includes (String a c0) ")");
    [|reflexivity].
  destruct (Regex.exec Parser.studentMatch_re (String a c0)) as [[w c]|];
    [discriminate | reflexivity].
Qed.

Lemma parse_rows_block (headers : Parser.Row) (s : StudentInfo)
    (block : list Parser.Row) :
  (forall r, In r block -> Parser.row_student r None = None) ->
  exists cs,
    Parser.parse_rows date_parse block headers (Some s) = Some (Some s, cs)
    /\ forall c, In c cs -> student c = Some s.
Proof.
  induction block as [|r block IH]; intros Hno.
  - exists []. split; [reflexivity | intros c []].
  - assert (Hr : Parser.row_student r (Some s) = Some s)
      by (apply row_student_keep, Hno; now left).
    destruct (parse_row_student r headers (Some s) s Hr) as [cs1 [E1 H1]].
    destruct IH as [cs2 [E2 H2]]; [intros r' Hr'; apply Hno; now right|].
    exists (cs1 ++ cs2)%list. split.
    + simpl. now rewrite E1, E2.
    + intros c Hc. apply in_app_or in Hc. destruct Hc; auto.
Qed.

End StudentContext.

Lemma no_label_row (r : Parser.Row) :
  (forall l, Parser.cell r 0 = Some l ->
             ~ Spec.has_match Parser.studentMatch_re l) ->
  Parser.row_student r None = None.
Proof.
  intros H. unfold Parser.row_student.
  destruct (Parser.cell r 0) as [[|a c0]|]; try reflexivity.
  destruct (JS.includes (String a c0) "(" && JS.includes (String a c0) ")");
    [|reflexivity].
  destruct (Regex.exec Parser.studentMatch_re (String a c0)) as [[w c]|] eqn:E;
    [|reflexivity].
  exfalso. apply (H _ eq_refl). apply exec_has_match. congruence.
Qed.

(** C3 does not hold of the code.  A row whose first cell holds a label
    that opens with a name (a non-empty text without an opening
    parenthesis) followed by digits in parentheses sets the student of the
    loop to the trimmed name, the digits and the fixed term text
    "Current Term", whatever follows the closing parenthesis; the course of
    that row and the courses of the rows after it, up to the next row with a
    label, refer to that student.  The term of the label is lost: for the
    label "Test Student (12345678) - Fall 2025", which [parseStudentInfo]
    reads as the term "Fall 2025", the courses of the grid carry the term
    "Current Term". *)
Theorem student_carried_forward :
  (forall (date_parse : string -> option string) (headers row : Parser.Row)
          (block : list Parser.Row) (st0 : option StudentInfo)
          (name id rest : string),
     name <> "" -> JS.includes name "(" = false ->
     id <> "" -> JS.all_digits id = true ->
     Parser.cell row 0 = Some (name ++ "(" ++ id ++ ")" ++ rest) ->
     (forall r l, In r block -> Parser.cell r 0 = Some l ->
                  ~ Spec.has_match Parser.studentMatch_re l) ->
     exists courses,
       Parser.parse_rows date_parse (row :: block) headers st0
       = Some (Some {| s_name := JS.trim name; s_id := id;
                       s_term := "Current Term" |}, courses)
       /\ forall c, In c courses ->
            student c = Some {| s_name := JS.trim name; s_id := id;
                                s_term := "Current Term" |})
  /\ Parser.parseStudentInfo Samples.label
     = Some {| s_name := "Test Student"; s_id := "12345678";
               s_term := "Fall 2025" |}
  /\ match Parser.parseExcel Samples.iso_only Samples.grid with
     | Parser.Courses cs => map student cs
     | Parser.Failed _ => []
     end
     = [ Some {| s_name := "Test Student"; s_id := "12345678";
                 s_term := "Current Term" |};
         Some {| s_name := "Test Student"; s_id := "12345678";
                 s_term := "Current Term" |} ].
Proof.
  split; [|split; vm_compute; reflexivity].
  intros date_parse headers row block st0 name id rest N1 P1 N2 D2 Hc Hno.
  destruct (studentMatch_label name id rest N1 P1 N2 D2) as [whole E].
  set (s := {| s_name := JS.trim name; s_id := id;
               s_term := "Current Term" |}).
  assert (Hrs : Parser.row_student row st0 = Some s).
  { unfold Parser.row_student. rewrite Hc.
    assert (Hp1 : JS.includes (name ++ "(" ++ id ++ ")" ++ rest) "(" = true).
    { apply includes_spec. now exists name, (id ++ ")" ++ rest). }
    assert (Hp2 : JS.includes (name ++ "(" ++ id ++ ")" ++ rest) ")" = true).
    { apply includes_spec.
      exists (name ++ "(" ++ id), rest.
      repeat (rewrite append_assoc; simpl). reflexivity. }
    destruct (name ++ "(" ++ id ++ ")" ++ rest) as [|a l] eqn:El.
    - destruct name; [congruence | discriminate El].
    - rewrite Hp1, Hp2, E. reflexivity. }
  destruct (parse_row_student date_parse row headers st0 s Hrs)
    as [cs1 [E1 H1]].
  destruct (parse_rows_block date_parse headers s block) as [cs2 [E2 H2]].
  { intros r Hr. apply no_label_row. intros l Hl. now apply (Hno r l). }
  exists (cs1 ++ cs2)%list. split.
  - cbn [Parser.parse_rows]. now rewrite E1, E2.
  - intros c Hin. apply in_app_or in Hin. destruct Hin; auto.
Qed.

Lemma student_carried_forward_witness :
  exists courses,
    Parser.parse_rows Samples.iso_only
      [Samples.labelled_row; Samples.following_row]
      Samples.header_cells None
    = Some (Some {| s_name := "Test Student"; s_id := "12345678";
                    s_term := "Current Term" |}, courses)
    /\ forall c, In c courses ->
         student c = Some {| s_name := "Test Student"; s_id := "12345678";
                             s_term := "Current Term" |}.
Proof.
  refine (proj1 student_carried_forward Samples.iso_only
            Samples.header_cells Samples.labelled_row
            [Samples.following_row] None
            "Test Student " "12345678" " - Fall 2025" _ _ _ _ _ _).
  - discriminate.
  - reflexivity.
  - discriminate.
  - reflexivity.
  - reflexivity.
  - intros r l [<-|[]] E. vm_compute in E. discriminate.
Defined.

(** ** Days, years and months *)

Ltac zdiv := Z.div_mod_to_equations; lia.

Lemma DayFromYear_succ (y : Z) :
  JSDate.DayFromYear (y + 1)
  = JSDate.DayFromYear y + 365 + JSDate.leap_days y.
Proof.
  unfold JSDate.DayFromYear, JSDate.leap_days, JSDate.InLeapYear.
  destruct (Z.eqb_spec (y mod 4) 0), (Z.eqb_spec (y mod 100) 0),
    (Z.eqb_spec (y mod 400) 0); cbn [negb]; zdiv.
Qed.

Lemma leap_days_range (y : Z) : 0 <= JSDate.leap_days y <= 1.
Proof. unfold JSDate.leap_days. destruct (JSDate.InLeapYear y); lia. Qed.

Lemma DayFromYear_mono (a b : Z) :
  a <= b -> JSDate.DayFromYear a <= JSDate.DayFromYear b.
Proof. unfold JSDate.DayFromYear. intros. zdiv. Qed.

(** The year of a day starts on or before it, and the next year after it. *)
Lemma YearFromDay_spec (d : Z) :
  JSDate.DayFromYear (JSDate.YearFromDay d) <= d
  < JSDate.DayFromYear (JSDate.YearFromDay d + 1).
Proof.
  unfold JSDate.YearFromDay.
  set (y0 := 1970 + 400 * d / 146097).
  destruct (Z.ltb_spec d (JSDate.DayFromYear y0)) as [H1|H1].
  - replace (y0 - 1 + 1) with y0 by lia. split; [|exact H1].
    unfold JSDate.DayFromYear in *. subst y0. zdiv.
  - destruct (Z.leb_spec (JSDate.DayFromYear (y0 + 1)) d) as [H2|H2].
    + split; [exact H2|].
      unfold JSDate.DayFromYear in *. subst y0. zdiv.
    + split; [exact H1 | exact H2].
Qed.

Lemma YearFromDay_bounds (d lo hi : Z) :
  JSDate.DayFromYear lo <= d < JSDate.DayFromYear (hi + 1) ->
  lo <= JSDate.YearFromDay d <= hi.
Proof.
  intros [Hlo Hhi]. pose proof (YearFromDay_spec d) as [H1 H2].
  split.
  - destruct (Z_lt_le_dec (JSDate.YearFromDay d) lo) as [Hlt|]; [|assumption].
    pose proof (DayFromYear_mono (JSDate.YearFromDay d + 1) lo ltac:(lia)).
    lia.
  - destruct (Z_lt_le_dec hi (JSDate.YearFromDay d)) as [Hlt|]; [|assumption].
    pose proof (DayFromYear_mono (hi + 1) (JSDate.YearFromDay d) ltac:(lia)).
    lia.
Qed.

Lemma DayWithinYear_range (d : Z) :
  0 <= JSDate.DayWithinYear d
  < 365 + JSDate.leap_days (JSDate.YearFromDay d).
Proof.
  unfold JSDate.DayWithinYear.
  pose proof (YearFromDay_spec d) as [H1 H2].
  rewrite DayFromYear_succ in H2. lia.
Qed.

Ltac month_case :=
  unfold Spec.days_in_month, Spec.month_length, JSDate.month_start;
  repeat match goal with
         | |- context [?a =? ?b] => destruct (Z.eqb_spec a b); try lia
         | |- context [?a <=? ?b] => destruct (Z.leb_spec a b); try lia
         end;
  cbn [orb]; lia.

(** The calendar date of a day number is a valid date with that day
    number. *)
Lemma civil_of_day (n : Z) :
  let Y := JSDate.YearFromDay n in
  let M := JSDate.MonthFromDay n + 1 in
  let D := JSDate.DateFromDay n in
  Spec.valid_date Y M D /\ Spec.day_number Y M D = n.
Proof.
  cbv zeta.
  pose proof (DayWithinYear_range n) as Hr.
  pose proof (leap_days_range (JSDate.YearFromDay n)) as Hl.
  unfold Spec.valid_date, Spec.day_number, JSDate.DateFromDay,
    JSDate.MonthFromDay, JSDate.month_in_year.
  set (dy := JSDate.DayWithinYear n) in *.
  set (l := JSDate.leap_days (JSDate.YearFromDay n)) in *.
  assert (En : n = JSDate.DayFromYear (JSDate.YearFromDay n) + dy)
    by (subst dy; unfold JSDate.DayWithinYear; lia).
  destruct (Z.ltb_spec dy 31); [month_case|].
  destruct (Z.ltb_spec dy (59 + l)); [month_case|].
  destruct (Z.ltb_spec dy (90 + l)); [month_case|].
  destruct (Z.ltb_spec dy (120 + l)); [month_case|].
  destruct (Z.ltb_spec dy (151 + l)); [month_case|].
  destruct (Z.ltb_spec dy (181 + l)); [month_case|].
  destruct (Z.ltb_spec dy (212 + l)); [month_case|].
  destruct (Z.ltb_spec dy (243 + l)); [month_case|].
  destruct (Z.ltb_spec dy (273 + l)); [month_case|].
  destruct (Z.ltb_spec dy (304 + l)); [month_case|].
  destruct (Z.ltb_spec dy (334 + l)); month_case.
Qed.

Lemma MonthFromDay_range (n : Z) : 0 <= JSDate.MonthFromDay n <= 11.
Proof. pose proof (civil_of_day n) as [[H _] _]. lia. Qed.

(** The days of a valid date from the start of its year. *)
Lemma day_number_range (y m d : Z) :
  Spec.valid_date y m d ->
  JSDate.DayFromYear y <= Spec.day_number y m d < JSDate.DayFromYear (y + 1).
Proof.
  intros [Hm Hd]. rewrite DayFromYear_succ.
  pose proof (leap_days_range y) as Hl.
  unfold Spec.day_number in *.
  assert (Hc : m = 1 \/ m = 2 \/ m = 3 \/ m = 4 \/ m = 5 \/ m = 6 \/ m = 7
               \/ m = 8 \/ m = 9 \/ m = 10 \/ m = 11 \/ m = 12) by lia.
  revert Hd.
  repeat (destruct Hc as [->|Hc]; [month_case|]).
  subst m. month_case.
Qed.

(** Setting the day of the month to the present date plus [k] moves a date
    [k] days on. *)
Lemma MakeDay_shift (n k : Z) :
  JSDate.MakeDay (JSDate.YearFromDay n) (JSDate.MonthFromDay n)
    (JSDate.DateFromDay n + k) = n + k.
Proof.
  pose proof (MonthFromDay_range n) as Hm.
  unfold JSDate.MakeDay.
  replace (JSDate.MonthFromDay n / 12) with 0 by zdiv.
  replace (JSDate.MonthFromDay n mod 12) with (JSDate.MonthFromDay n) by zdiv.
  rewrite Z.add_0_r.
  unfold JSDate.DateFromDay, JSDate.DayWithinYear. lia.
Qed.

Lemma MakeDay_valid (y m d : Z) :
  1 <= m <= 12 -> JSDate.MakeDay y (m - 1) d = Spec.day_number y m d.
Proof.
  intros Hm. unfold JSDate.MakeDay, Spec.day_number.
  replace ((m - 1) / 12) with 0 by zdiv.
  replace ((m - 1) mod 12) with (m - 1) by zdiv.
  now rewrite Z.add_0_r.
Qed.

Lemma month_checked :
  forallb (fun l =>
             forallb (fun m => forallb (Checks.month_check l m)
                                 (Spec.zrange 1 31))
                     (Spec.zrange 1 12))
          (Spec.zrange 0 2) = true.
Proof. vm_compute. reflexivity. Qed.

(** The calendar date of the day number of a valid date is that date. *)
Lemma civil_of_day_number (y m d : Z) :
  Spec.valid_date y m d ->
  JSDate.YearFromDay (Spec.day_number y m d) = y
  /\ JSDate.MonthFromDay (Spec.day_number y m d) + 1 = m
  /\ JSDate.DateFromDay (Spec.day_number y m d) = d.
Proof.
  intros Hv.
  pose proof (day_number_range y m d Hv) as R.
  assert (Ey : JSDate.YearFromDay (Spec.day_number y m d) = y).
  { pose proof (YearFromDay_bounds (Spec.day_number y m d) y y R). lia. }
  destruct Hv as [Hm Hd].
  pose proof (leap_days_range y) as Hl.
  assert (Hd31 : 1 <= d <= 31).
  { unfold Spec.days_in_month, Spec.month_length in Hd.
    destruct (m =? 2); [lia|].
    destruct ((m =? 4) || (m =? 6) || (m =? 9) || (m =? 11)); lia. }
  pose proof (forallb_zrange _ _ _ month_checked (JSDate.leap_days y)
                ltac:(simpl; lia)) as H1.
  cbv beta in H1.
  pose proof (forallb_zrange _ _ _ H1 m ltac:(simpl; lia)) as H2.
  cbv beta in H2.
  pose proof (forallb_zrange _ _ _ H2 d ltac:(simpl; lia)) as H3.
  unfold Checks.month_check in H3. unfold Spec.days_in_month in Hd.
  apply orb_prop in H3. destruct H3 as [H3|H3]; [apply Z.ltb_lt in H3; lia|].
  apply Z.eqb_eq in H3.
  assert (Em : JSDate.MonthFromDay (Spec.day_number y m d) = m - 1).
  { unfold JSDate.MonthFromDay, JSDate.DayWithinYear. rewrite Ey.
    unfold Spec.day_number.
    replace (JSDate.DayFromYear y
             + JSDate.month_start (m - 1) (JSDate.leap_days y) + d - 1
             - JSDate.DayFromYear y)
      with (JSDate.month_start (m - 1) (JSDate.leap_days y) + d - 1) by lia.
    exact H3. }
  split; [exact Ey|]. split; [lia|].
  unfold JSDate.DateFromDay, JSDate.DayWithinYear. rewrite Em, Ey.
  unfold Spec.day_number. lia.
Qed.

(** A day number belongs to one valid date only. *)
Lemma day_number_inj (y m d y' m' d' : Z) :
  Spec.valid_date y m d -> Spec.valid_date y' m' d' ->
  Spec.day_number y m d = Spec.day_number y' m' d' ->
  y = y' /\ m = m' /\ d = d'.
Proof.
  intros Hv Hv' E.
  destruct (civil_of_day_number y m d Hv) as [A [B C]].
  destruct (civil_of_day_number y' m' d' Hv') as [A' [B' C']].
  rewrite E in A, B, C. lia.
Qed.

(** ** First occurrence *)

Lemma two_digits_checked :
  forallb Checks.two_digits_check (Spec.zrange 0 (Z.to_nat 100)) = true.
Proof. vm_compute. reflexivity. Qed.

Lemma four_digits_checked :
  forallb Checks.four_digits_check (Spec.zrange 1000 (Z.to_nat 9000)) = true.
Proof. vm_compute. reflexivity. Qed.

Lemma num_is_eq n z : Checks.num_is n z = true -> n = JS.Int z.
Proof.
  destruct n as [|v]; simpl; [discriminate|].
  intros H. apply Z.eqb_eq in H. now subst.
Qed.

Lemma single_eq l s : Checks.single l s = true -> l = [s].
Proof.
  destruct l as [|x [|y l]]; simpl; try discriminate.
  intros H. apply String.eqb_eq in H. now subst.
Qed.

Lemma two_digits_facts (k : Z) :
  0 <= k <= 99 ->
  Calendar.pad2 (JS.Int k) = Spec.two_digits k
  /\ JS.Number (Spec.two_digits k) = JS.Int k
  /\ JS.split "-" (Spec.two_digits k) = [Spec.two_digits k]
  /\ JS.includes (Spec.two_digits k) ":" = false.
Proof.
  intros Hk.
  pose proof (forallb_zrange _ _ _ two_digits_checked k ltac:(lia))
    as H.
  unfold Checks.two_digits_check in H.
  repeat (apply andb_prop in H; destruct H as [H ?]).
  repeat split.
  - now apply String.eqb_eq.
  - now apply num_is_eq.
  - now apply single_eq.
  - now apply negb_true_iff.
Qed.

Lemma four_digits_facts (y : Z) :
  1000 <= y <= 9999 ->
  JS.toString (JS.Int y) = Spec.four_digits y
  /\ JS.Number (Spec.four_digits y) = JS.Int y
  /\ JS.split "-" (Spec.four_digits y) = [Spec.four_digits y].
Proof.
  intros Hy.
  pose proof (forallb_zrange _ _ _ four_digits_checked y ltac:(lia))
    as H.
  unfold Checks.four_digits_check in H.
  repeat (apply andb_prop in H; destruct H as [H ?]).
  repeat split.
  - now apply String.eqb_eq.
  - now apply num_is_eq.
  - now apply single_eq.
Qed.

Lemma remove_first_app (c : ascii) (a b : string) :
  JS.includes a (String c "") = false ->
  JS.remove_first c (a ++ String c b) = a ++ b.
Proof.
  induction a as [|x a IH]; intros H; simpl.
  - now rewrite Ascii.eqb_refl.
  - cbn [JS.includes JS.startsWith] in H.
    destruct (Ascii.eqb_spec c x) as [->|Hne]; cbn [andb] in H;
      [discriminate|].
    destruct (Ascii.eqb_spec x c) as [->|_]; [congruence|].
    now rewrite IH.
Qed.

Lemma split_iso_date (y m d : Z) :
  1000 <= y <= 9999 -> 0 <= m <= 99 -> 0 <= d <= 99 ->
  JS.split "-" (Spec.iso_date y m d)
  = [Spec.four_digits y; Spec.two_digits m; Spec.two_digits d].
Proof.
  intros Hy Hm Hd.
  destruct (four_digits_facts y Hy) as [_ [_ Sy]].
  destruct (two_digits_facts m Hm) as [_ [_ [Sm _]]].
  destruct (two_digits_facts d Hd) as [_ [_ [Sd _]]].
  unfold Spec.iso_date.
  change (Spec.four_digits y ++ "-" ++ Spec.two_digits m ++ "-"
          ++ Spec.two_digits d)
    with (Spec.four_digits y
          ++ String "-" (Spec.two_digits m ++ String "-" (Spec.two_digits d))).
  rewrite (split_one_app _ _ _ Sy), (split_one_app _ _ _ Sm), Sd.
  reflexivity.
Qed.

Lemma insert_sorted_In (x y : Z) (l : list Z) :
  In y (Calendar.insert_sorted x l) <-> y = x \/ In y l.
Proof.
  induction l as [|z l IH]; simpl; [intuition|].
  destruct (x <=? z); simpl; rewrite ?IH; intuition.
Qed.

Lemma sort_In (y : Z) (l : list Z) : In y (Calendar.sort l) <-> In y l.
Proof.
  induction l as [|x l IH]; simpl; [reflexivity|].
  rewrite insert_sorted_In, IH. intuition.
Qed.

(** The loop keeps the least distance to a target day, and stops at 0. *)
Lemma first_offset_least (wd : Z) (l : list Z) : forall acc,
  0 <= wd < 7 -> (forall t, In t l -> 0 <= t < 7) -> 0 <= acc < 7 ->
  let r := Calendar.first_offset wd l acc in
  0 <= r < 7
  /\ (forall t, In t l -> r <= (t - wd) mod 7)
  /\ (acc <> 0 -> r <= acc)
  /\ ((exists t, In t l /\ (t - wd) mod 7 = r)
      \/ (r = acc /\ (acc <> 0 \/ l = []))).
Proof.
  induction l as [|t l IH]; intros acc Hwd Hl Hacc; cbv zeta.
  - simpl. split; [lia|]. split; [intros t []|]. split; [lia|].
    right. split; [reflexivity | now right].
  - cbn [Calendar.first_offset].
    assert (Ht : 0 <= t < 7) by (apply Hl; now left).
    assert (Hrem : Z.rem (t - wd + 7) 7 = (t - wd) mod 7).
    { rewrite Z.rem_mod_nonneg by lia. zdiv. }
    rewrite Hrem.
    assert (Hd : 0 <= (t - wd) mod 7 < 7) by (apply Z.mod_pos_bound; lia).
    assert (Hl' : forall t', In t' l -> 0 <= t' < 7)
      by (intros t' Ht'; apply Hl; now right).
    destruct (Z.eqb_spec ((t - wd) mod 7) 0) as [E0|N0].
    + cbn [orb]. split; [lia|]. split; [|split].
      * intros t' Ht'.
        assert (0 <= t' < 7) by (now apply Hl).
        apply Z.mod_pos_bound. lia.
      * lia.
      * left. exists t. split; [now left | exact E0].
    + destruct (Z.eqb_spec wd t) as [->|Nwt].
      { exfalso. apply N0. rewrite Z.sub_diag. reflexivity. }
      cbn [orb].
      destruct (Z.eqb_spec acc 0) as [->|Nacc].
      * cbn [orb].
        destruct (IH ((t - wd) mod 7) Hwd Hl' Hd) as [R1 [R2 [R3 R4]]].
        split; [lia|]. split; [|split].
        -- intros t' [<-|Ht']; [apply R3; exact N0 | now apply R2].
        -- lia.
        -- left. destruct R4 as [[t' [Ht' E]]|[E _]].
           ++ exists t'. split; [now right | exact E].
           ++ exists t. split; [now left | now rewrite E].
      * cbn [orb].
        destruct (Z.ltb_spec ((t - wd) mod 7) acc) as [Hlt|Hge].
        -- destruct (IH ((t - wd) mod 7) Hwd Hl' Hd) as [R1 [R2 [R3 R4]]].
           split; [lia|]. split; [|split].
           ++ intros t' [<-|Ht']; [apply R3; exact N0 | now apply R2].
           ++ intros _. specialize (R3 N0). lia.
           ++ left. destruct R4 as [[t' [Ht' E]]|[E _]].
              ** exists t'. split; [now right | exact E].
              ** exists t. split; [now left | now rewrite E].
        -- destruct (IH acc Hwd Hl' Hacc) as [R1 [R2 [R3 R4]]].
           split; [lia|]. split; [|split].
           ++ intros t' [<-|Ht']; [specialize (R3 Nacc); lia | now apply R2].
           ++ intros _. now apply R3.
           ++ destruct R4 as [[t' [Ht' E]]|[E _]].
              ** left. exists t'. split; [now right | exact E].
              ** right. split; [exact E | now left].
Qed.

Lemma dayMap_range (d : Weekday) : 0 <= Calendar.dayMap d < 7.
Proof. destruct d; simpl; lia. Qed.

Lemma dayMap_inj (a b : Weekday) :
  Calendar.dayMap a = Calendar.dayMap b -> a = b.
Proof. destruct a, b; simpl; intros H; try reflexivity; discriminate. Qed.

Lemma dayMap_weekday_of (n : Z) :
  Calendar.dayMap (Spec.weekday_of n) = JSDate.WeekDay n.
Proof.
  unfold Spec.weekday_of, JSDate.WeekDay.
  pose proof (Z.mod_pos_bound (n + 4) 7 ltac:(lia)) as H.
  destruct ((n + 4) mod 7) as [|p|p]; try lia; try reflexivity.
  do 3 (destruct p as [p|p|]; try lia; try reflexivity).
Qed.

Lemma getFirstOccurrence_body {zone : JSDate.Zone} (sd : string)
    (ds : list Weekday) (tm : string) :
  sd <> "" -> ds <> [] -> tm <> "" ->
  Calendar.getFirstOccurrence (Some sd) ds (Some tm)
  = let baseDate :=
      JSDate.make (Calendar.part 0 (JS.split "-" sd))
        (Calendar.pred (Calendar.part 1 (JS.split "-" sd)))
        (Calendar.part 2 (JS.split "-" sd)) in
    Some
      (Calendar.formatDate
         (match baseDate with
          | Some base =>
              JSDate.setDate baseDate
                (Calendar.plus (JSDate.getDate baseDate)
                   (Calendar.first_offset
                      (JSDate.WeekDay (JSDate.LocalDay base))
                      (Calendar.sort (map Calendar.dayMap ds)) 0))
          | None => None
          end)
       ++ "T" ++ JS.remove_first ":" tm ++ "00").
Proof.
  intros Hs Hd Ht.
  destruct sd as [|a sd]; [congruence|].
  destruct ds as [|d0 ds]; [congruence|].
  destruct tm as [|b tm]; [congruence|].
  reflexivity.
Qed.

(** The offset of the loop is the distance to the first day, from the start
    day on, whose weekday is in the day set. *)
Lemma first_offset_first (n0 : Z) (ds : list Weekday) :
  ds <> [] ->
  let k := Calendar.first_offset (JSDate.WeekDay n0)
             (Calendar.sort (map Calendar.dayMap ds)) 0 in
  0 <= k < 7
  /\ In (Spec.weekday_of (n0 + k)) ds
  /\ forall j, 0 <= j < k -> ~ In (Spec.weekday_of (n0 + j)) ds.
Proof.
  intros Hne. cbv zeta.
  set (wd := JSDate.WeekDay n0).
  set (l := Calendar.sort (map Calendar.dayMap ds)).
  assert (Hwd : 0 <= wd < 7)
    by (unfold wd, JSDate.WeekDay; apply Z.mod_pos_bound; lia).
  assert (Hl : forall t, In t l -> 0 <= t < 7).
  { intros t Ht. apply sort_In, in_map_iff in Ht.
    destruct Ht as [c [<- _]]. apply dayMap_range. }
  destruct (first_offset_least wd l 0 Hwd Hl ltac:(lia))
    as [R1 [R2 [_ R4]]].
  set (k := Calendar.first_offset wd l 0) in *.
  assert (Hex : exists t, In t l /\ (t - wd) mod 7 = k).
  { destruct R4 as [H|[_ [H|H]]]; [exact H | congruence |].
    destruct ds as [|c ds]; [congruence|].
    assert (Hin : In (Calendar.dayMap c) l)
      by (apply sort_In; now left).
    rewrite H in Hin. destruct Hin. }
  split; [exact R1|]. split.
  - destruct Hex as [t [Ht Ek]].
    pose proof (Hl t Ht) as Htr.
    apply sort_In, in_map_iff in Ht. destruct Ht as [c [Ec Hc]].
    replace (Spec.weekday_of (n0 + k)) with c; [exact Hc|].
    apply dayMap_inj. rewrite dayMap_weekday_of, Ec.
    unfold JSDate.WeekDay in *. subst wd. zdiv.
  - intros j Hj Hin.
    assert (Hin' : In (Calendar.dayMap (Spec.weekday_of (n0 + j))) l)
      by (apply sort_In; now apply in_map).
    pose proof (R2 _ Hin') as Hle.
    rewrite dayMap_weekday_of in Hle.
    unfold JSDate.WeekDay in *. subst wd. revert Hle. zdiv.
Qed.

Lemma DayFromYear_1000 : JSDate.DayFromYear 1000 = -354285.
Proof. reflexivity. Qed.

Lemma DayFromYear_9999 : JSDate.DayFromYear 9999 = 2932532.
Proof. reflexivity. Qed.

Lemma DayFromYear_10000 : JSDate.DayFromYear 10000 = 2932897.
Proof. reflexivity. Qed.

(** *** Dates in the time zone of the host *)

Lemma TimeWithinDay_range (t : Z) :
  0 <= JSDate.TimeWithinDay t < JSDate.msPerDay.
Proof.
  unfold JSDate.TimeWithinDay, JSDate.msPerDay. apply Z.mod_pos_bound. lia.
Qed.

Lemma fixed_whole_days (offset : Z) :
  Z.abs offset < JSDate.msPerDay -> Zones.whole_days (Zones.fixed offset).
Proof.
  intros H. split; [intros t isUTC; exact H|].
  intros d tod Ht.
  unfold JSDate.LocalDay, JSDate.LocalTime, JSDate.UTC, JSDate.MakeDate,
    JSDate.Day, JSDate.msPerDay in *.
  cbn [JSDate.LocalTZA Zones.fixed].
  replace (d * 86400000 + tod - offset + offset) with (tod + d * 86400000)
    by lia.
  rewrite Z.div_add by lia. rewrite Z.div_small by lia. lia.
Qed.

(** Daylight saving moves no local time to another day. *)
Lemma vancouver_whole_days : Zones.whole_days Zones.vancouver_2025.
Proof.
  split.
  - intros t isUTC. unfold Zones.vancouver_2025, JSDate.LocalTZA.
    destruct isUTC;
      repeat match goal with
             | |- context [?a <? ?b] => destruct (a <? b)
             end; vm_compute; reflexivity.
  - intros d tod Ht.
    unfold JSDate.LocalDay, JSDate.LocalTime, JSDate.UTC, JSDate.MakeDate,
      JSDate.Day, Zones.vancouver_2025, JSDate.LocalTZA, JSDate.msPerDay,
      Zones.vancouver_spring, Zones.vancouver_fall in *.
    repeat match goal with
           | |- context [?a <? ?b] => destruct (Z.ltb_spec a b)
           end;
      Z.div_mod_to_equations; lia.
Qed.

Lemma made_in_range {zone : JSDate.Zone} (D tod : Z) :
  Zones.whole_days zone ->
  -400000 <= D <= 3000000 -> 0 <= tod < JSDate.msPerDay ->
  JSDate.TimeClip (JSDate.UTC (JSDate.MakeDate D tod))
  = Some (JSDate.UTC (JSDate.MakeDate D tod)).
Proof.
  intros [Hb _] HD Ht.
  unfold JSDate.TimeClip, JSDate.UTC, JSDate.MakeDate.
  specialize (Hb (D * JSDate.msPerDay + tod) false).
  unfold JSDate.msPerDay in *.
  replace (Z.abs _ <=? 8640000000000000) with true
    by (symmetry; apply Z.leb_le; lia).
  reflexivity.
Qed.

Lemma formatDate_local {zone : JSDate.Zone} (tv : Z) :
  Calendar.formatDate (Some tv) = Text.day_digits (JSDate.LocalDay tv).
Proof. reflexivity. Qed.

Lemma day_number_bounds (y m d : Z) :
  1000 <= y <= 9999 -> 1 <= m <= 12 -> 0 <= d <= 99 ->
  -354286 <= Spec.day_number y m d < 2932897 + 99.
Proof.
  intros Hy Hm Hd.
  pose proof (DayFromYear_mono 1000 y ltac:(lia)) as Hlo.
  pose proof (DayFromYear_mono y 9999 ltac:(lia)) as Hhi.
  rewrite DayFromYear_1000 in Hlo. rewrite DayFromYear_9999 in Hhi.
  pose proof (leap_days_range y) as Hl.
  unfold Spec.day_number, JSDate.month_start.
  repeat match goal with
         | |- context [?a <=? ?b] => destruct (Z.leb_spec a b)
         | |- context [?a =? ?b] => destruct (Z.eqb_spec a b)
         end; lia.
Qed.

(** The date that [new Date(year, month - 1, day)] builds from the parts of
    a start date YYYY-MM-DD: local midnight of the day with its day number,
    the day counted on when it lies past the end of the month. *)
Lemma make_iso {zone : JSDate.Zone} (y m d : Z) :
  1000 <= y <= 9999 -> 1 <= m <= 12 -> 0 <= d <= 99 ->
  JSDate.make (Calendar.part 0 (JS.split "-" (Spec.iso_date y m d)))
    (Calendar.pred (Calendar.part 1 (JS.split "-" (Spec.iso_date y m d))))
    (Calendar.part 2 (JS.split "-" (Spec.iso_date y m d)))
  = JSDate.TimeClip
      (JSDate.UTC (JSDate.MakeDate (Spec.day_number y m d) 0)).
Proof.
  intros Hy Hm Hd.
  rewrite split_iso_date by lia.
  cbn [Calendar.part nth_error].
  destruct (four_digits_facts y Hy) as [_ [Ny _]].
  destruct (two_digits_facts m ltac:(lia)) as [_ [Nm _]].
  destruct (two_digits_facts d Hd) as [_ [Nd _]].
  rewrite Ny, Nm, Nd. cbn [Calendar.pred JSDate.make].
  replace ((0 <=? y) && (y <=? 99)) with false
    by (symmetry; apply andb_false_iff; right; apply Z.leb_gt; lia).
  now rewrite (MakeDay_valid y m d Hm).
Qed.

(** In a zone that skips no day, the first occurrence from a start date
    YYYY-MM-DD: the digits of the day that lies the offset of the loop after
    the day of the start date. *)
Lemma getFirstOccurrence_by_day_number {zone : JSDate.Zone} (y m d : Z)
    (ds : list Weekday) (tm : string) :
  Zones.whole_days zone ->
  1000 <= y <= 9999 -> 1 <= m <= 12 -> 0 <= d <= 99 ->
  ds <> [] -> tm <> "" ->
  let n0 := Spec.day_number y m d in
  Calendar.getFirstOccurrence (Some (Spec.iso_date y m d)) ds (Some tm)
  = Some (Text.day_digits
            (n0 + Calendar.first_offset (JSDate.WeekDay n0)
                    (Calendar.sort (map Calendar.dayMap ds)) 0)
          ++ "T" ++ JS.remove_first ":" tm ++ "00").
Proof.
  intros Hz Hy Hm Hd Hds Htm n0.
  pose proof (day_number_bounds y m d Hy Hm Hd) as Hn0. fold n0 in Hn0.
  destruct (first_offset_first n0 ds Hds) as [Hk _]. cbv zeta in Hk.
  rewrite getFirstOccurrence_body.
  2:{ unfold Spec.iso_date, Spec.four_digits. discriminate. }
  2:{ exact Hds. }
  2:{ exact Htm. }
  cbv zeta. rewrite make_iso by assumption. fold n0.
  rewrite made_in_range; [|exact Hz|lia|unfold JSDate.msPerDay; lia].
  set (u := JSDate.UTC (JSDate.MakeDate n0 0)).
  assert (HL : JSDate.LocalDay u = n0)
    by (apply (proj2 Hz); unfold JSDate.msPerDay; lia).
  rewrite HL.
  set (k := Calendar.first_offset (JSDate.WeekDay n0)
              (Calendar.sort (map Calendar.dayMap ds)) 0) in *.
  cbn [JSDate.getDate JSDate.lift Calendar.plus JSDate.setDate].
  change (JSDate.Day (JSDate.LocalTime u)) with (JSDate.LocalDay u).
  rewrite HL, MakeDay_shift.
  pose proof (TimeWithinDay_range (JSDate.LocalTime u)) as Htod.
  rewrite made_in_range; [|exact Hz|lia|exact Htod].
  rewrite formatDate_local, (proj2 Hz) by exact Htod.
  reflexivity.
Qed.

(** C2, as the code has it: in a host time zone that skips no calendar
    day, for a start date that is a valid calendar date YYYY-MM-DD of a year
    from 1000 to 9998, a non-empty day set and a time HH:MM,
    getFirstOccurrence returns the digits YYYYMMDD of the first date on or
    after the start date whose weekday is in the day set, then T, the time
    without its colon and 00; the example of the specification holds. *)
Theorem getFirstOccurrence_first_on_or_after {zone : JSDate.Zone} :
  Zones.whole_days zone ->
  (forall (y m d h mi : Z) (ds : list Weekday),
      1000 <= y <= 9998 -> Spec.valid_date y m d -> ds <> [] ->
      0 <= h <= 99 -> 0 <= mi <= 99 ->
      exists k Y M D,
        0 <= k < 7
        /\ Spec.valid_date Y M D
        /\ Spec.day_number Y M D = Spec.day_number y m d + k
        /\ In (Spec.weekday_of (Spec.day_number Y M D)) ds
        /\ (forall j, 0 <= j < k ->
                      ~ In (Spec.weekday_of (Spec.day_number y m d + j)) ds)
        /\ Calendar.getFirstOccurrence (Some (Spec.iso_date y m d)) ds
             (Some (Spec.two_digits h ++ ":" ++ Spec.two_digits mi))
           = Some (Spec.four_digits Y ++ Spec.two_digits M
                   ++ Spec.two_digits D ++ "T" ++ Spec.two_digits h
                   ++ Spec.two_digits mi ++ "00"))
  /\ Spec.weekday_of (Spec.day_number 2025 9 2) = TU
  /\ Calendar.getFirstOccurrence (Some "2025-09-02") [TU; TH] (Some "14:00")
     = Some "20250902T140000".
Proof.
  intros Hz. split; [|split; [reflexivity|]].
  2:{ pose proof (getFirstOccurrence_by_day_number 2025 9 2 [TU; TH] "14:00"
                    Hz ltac:(lia) ltac:(lia) ltac:(lia)
                    ltac:(discriminate) ltac:(discriminate)) as E.
      cbv zeta in E. exact E. }
  intros y m d h mi ds Hy Hv Hds Hh Hmi.
  set (n0 := Spec.day_number y m d).
  pose proof (day_number_range y m d Hv) as Hn0. fold n0 in Hn0.
  pose proof (DayFromYear_mono 1000 y ltac:(lia)) as Hlo.
  pose proof (DayFromYear_mono (y + 1) 9999 ltac:(lia)) as Hhi.
  rewrite DayFromYear_1000 in Hlo. rewrite DayFromYear_9999 in Hhi.
  destruct (first_offset_first n0 ds Hds) as [Hk [Hin Hmin]].
  set (k := Calendar.first_offset (JSDate.WeekDay n0)
              (Calendar.sort (map Calendar.dayMap ds)) 0) in *.
  pose proof (civil_of_day (n0 + k)) as [HV HN]. cbv zeta in HV, HN.
  set (Y := JSDate.YearFromDay (n0 + k)) in *.
  set (M := JSDate.MonthFromDay (n0 + k) + 1) in *.
  set (D := JSDate.DateFromDay (n0 + k)) in *.
  exists k, Y, M, D.
  split; [exact Hk|]. split; [exact HV|]. split; [exact HN|].
  split; [now rewrite HN|]. split; [exact Hmin|].
  assert (HY : 1000 <= Y <= 9999).
  { apply YearFromDay_bounds.
    rewrite DayFromYear_1000.
    replace (9999 + 1) with 10000 by lia. rewrite DayFromYear_10000. lia. }
  destruct Hv as [Hm Hd].
  assert (Hd99 : 0 <= d <= 99).
  { unfold Spec.days_in_month, Spec.month_length in Hd.
    pose proof (leap_days_range y).
    destruct (m =? 2); [lia|].
    destruct ((m =? 4) || (m =? 6) || (m =? 9) || (m =? 11)); lia. }
  destruct HV as [HM HD].
  assert (HD99 : 0 <= D <= 99).
  { unfold Spec.days_in_month, Spec.month_length in HD.
    pose proof (leap_days_range Y).
    destruct (M =? 2); [lia|].
    destruct ((M =? 4) || (M =? 6) || (M =? 9) || (M =? 11)); lia. }
  rewrite (getFirstOccurrence_by_day_number y m d ds) by
    (first [exact Hz | lia | exact Hds
           | unfold Spec.two_digits; discriminate]).
  cbv zeta. fold n0. fold k. unfold Text.day_digits.
  fold Y. fold D. fold M.
  destruct (four_digits_facts Y HY) as [SY _].
  destruct (two_digits_facts M ltac:(lia)) as [PM _].
  destruct (two_digits_facts D HD99) as [PD _].
  destruct (two_digits_facts h Hh) as [_ [_ [_ Ch]]].
  rewrite SY, PM, PD.
  change (Spec.two_digits h ++ ":" ++ Spec.two_digits mi)
    with (Spec.two_digits h ++ String ":" (Spec.two_digits mi)).
  rewrite (remove_first_app _ _ _ Ch).
  repeat (rewrite append_assoc; cbn [append]). reflexivity.
Qed.

Lemma getFirstOccurrence_first_on_or_after_witness :
  exists k Y M D,
    0 <= k < 7
    /\ Spec.valid_date Y M D
    /\ Spec.day_number Y M D = Spec.day_number 2025 9 3 + k
    /\ In (Spec.weekday_of (Spec.day_number Y M D)) [TU; MO]
    /\ (forall j, 0 <= j < k ->
                  ~ In (Spec.weekday_of (Spec.day_number 2025 9 3 + j))
                       [TU; MO])
    /\ Calendar.getFirstOccurrence (zone := Zones.vancouver_2025)
         (Some (Spec.iso_date 2025 9 3)) [TU; MO]
         (Some (Spec.two_digits 14 ++ ":" ++ Spec.two_digits 0))
       = Some (Spec.four_digits Y ++ Spec.two_digits M
               ++ Spec.two_digits D ++ "T" ++ Spec.two_digits 14
               ++ Spec.two_digits 0 ++ "00").
Proof.
  apply (proj1 (getFirstOccurrence_first_on_or_after
                  (zone := Zones.vancouver_2025) vancouver_whole_days)
           2025 9 3 14 0 [TU; MO]).
  - lia.
  - vm_compute. repeat split; discriminate.
  - discriminate.
  - lia.
  - lia.
Defined.

(** C2 as stated fails for a year below 1000: the year is printed without
    padding.  The first day of the year 500 is a Friday; with the day set
    {FR} the date part has seven digits. *)
Lemma short_year_not_padded :
  Spec.iso_date 500 1 1 = "0500-01-01"
  /\ Spec.valid_date 500 1 1
  /\ Spec.weekday_of (Spec.day_number 500 1 1) = FR
  /\ Calendar.getFirstOccurrence (zone := Zones.utc) (Some "0500-01-01")
       [FR] (Some "09:00")
     = Some "5000101T090000"
  /\ Calendar.getFirstOccurrence (zone := Zones.utc) (Some "0500-01-01")
       [FR] (Some "09:00")
     <> Some (Spec.four_digits 500 ++ Spec.two_digits 1 ++ Spec.two_digits 1
              ++ "T" ++ "0900" ++ "00").
Proof.
  split; [reflexivity|]. split; [vm_compute; repeat split; discriminate|].
  split; [reflexivity|]. split; [vm_compute; reflexivity|].
  vm_compute. discriminate.
Qed.

(** Where the zone skips a calendar day the result need not fall on a day
    of the day set: Pacific/Apia had no 30 December 2011, and from Thursday
    the 29th the first Friday comes out as Saturday the 31st. *)
Lemma skipped_day_missed :
  Spec.weekday_of (Spec.day_number 2011 12 29) = TH
  /\ Calendar.getFirstOccurrence (zone := Zones.apia_2011)
       (Some "2011-12-29") [FR] (Some "09:00")
     = Some "20111231T090000"
  /\ Spec.weekday_of (Spec.day_number 2011 12 31) = SA
  /\ ~ Zones.whole_days Zones.apia_2011.
Proof.
  split; [reflexivity|]. split; [vm_compute; reflexivity|].
  split; [reflexivity|].
  intros [_ H].
  assert (Hr : 0 <= 0 < JSDate.msPerDay) by (unfold JSDate.msPerDay; lia).
  specialize (H (Spec.day_number 2011 12 30) 0 Hr).
  vm_compute in H. discriminate H.
Qed.


(** * Further properties *)

(** ** Escaping and its inverse *)

Lemma unescape_escape_char (c : ascii) (t : string) :
  Text.unescape (Escape.escape_char c ++ t)
  = (if Ascii.eqb c JS.CR then "" else String c "") ++ Text.unescape t.
Proof.
  destruct c as [[] [] [] [] [] [] [] []]; reflexivity.
Qed.

(** X1: reading an escaped text back gives the text without its carriage
    returns. *)
Theorem unescape_escapeText (s : string) :
  Text.unescape (Calendar.escapeText s)
  = JS.replace_class (Ascii.eqb JS.CR) "" s.
Proof.
  induction s as [|c s IH]; [reflexivity|].
  rewrite escapeText_cons, unescape_escape_char, IH.
  cbn [JS.replace_class].
  rewrite (Ascii.eqb_sym JS.CR c).
  destruct (Ascii.eqb c JS.CR); reflexivity.
Qed.

Lemma escape_char_no_break (c : ascii) :
  Escape.count_if Text.line_break (Escape.escape_char c) = 0%nat.
Proof.
  destruct c as [[] [] [] [] [] [] [] []]; reflexivity.
Qed.

(** X2: an escaped text holds no carriage return and no line feed. *)
Theorem escapeText_one_line (s : string) :
  Escape.count_if Text.line_break (Calendar.escapeText s) = 0%nat.
Proof.
  induction s as [|c s IH]; [reflexivity|].
  rewrite escapeText_cons, count_if_app, escape_char_no_break, IH.
  reflexivity.
Qed.

(** ** Recurrence rule *)

Lemma two_digits_dash_free_checked :
  forallb Checks2.two_digits_dash_free (Spec.zrange 0 (Z.to_nat 100)) = true.
Proof. vm_compute. reflexivity. Qed.

Lemma four_digits_dash_free_checked :
  forallb Checks2.four_digits_dash_free (Spec.zrange 0 (Z.to_nat 10000))
  = true.
Proof. vm_compute. reflexivity. Qed.

Lemma date_digits_of_iso (y m d : Z) :
  0 <= y <= 9999 -> 0 <= m <= 99 -> 0 <= d <= 99 ->
  JS.replace_class (Ascii.eqb "-") "" (Spec.iso_date y m d)
  = Text.date_digits y m d.
Proof.
  intros Hy Hm Hd.
  pose proof (forallb_zrange _ _ _ four_digits_dash_free_checked y ltac:(lia))
    as Ey.
  pose proof (forallb_zrange _ _ _ two_digits_dash_free_checked m ltac:(lia))
    as Em.
  pose proof (forallb_zrange _ _ _ two_digits_dash_free_checked d ltac:(lia))
    as Ed.
  apply String.eqb_eq in Ey, Em, Ed.
  unfold Spec.iso_date, Text.date_digits.
  rewrite !replace_class_app, Ey, Em, Ed. reflexivity.
Qed.

(** X3: buildRRule gives no rule exactly when the end date or the day set is
    missing; for an end date YYYY-MM-DD the rule is weekly until the end of
    that day, on the days of the meeting in their order. *)
Theorem buildRRule_spec :
  (forall m,
      Calendar.buildRRule m = None
      <-> JS.truthy (endDate m) = false \/ days m = [])
  /\ (forall m y mo d,
         0 <= y <= 9999 -> 0 <= mo <= 99 -> 0 <= d <= 99 ->
         endDate m = Some (Spec.iso_date y mo d) -> days m <> [] ->
         Calendar.buildRRule m
         = Some ("FREQ=WEEKLY;UNTIL=" ++ Text.date_digits y mo d
                 ++ "T235959;BYDAY=" ++ JS.join "," (map day_code (days m)))).
Proof.
  split.
  - intros m. unfold Calendar.buildRRule.
    destruct (endDate m) as [[|a e]|]; simpl;
      destruct (days m) as [|x l]; simpl; split; intros H;
      try reflexivity; try discriminate; try (now left); try (now right);
      destruct H; discriminate.
  - intros m y mo d Hy Hmo Hd He Hds.
    pose proof (date_digits_of_iso y mo d Hy Hmo Hd) as E.
    unfold Calendar.buildRRule. rewrite He.
    destruct (days m) as [|x l] eqn:Ed; [congruence|].
    assert (Hi : exists a t, Spec.iso_date y mo d = String a t)
      by (unfold Spec.iso_date, Spec.four_digits; simpl; eauto).
    destruct Hi as [a [t Hi]]. rewrite Hi in *. rewrite E.
    repeat (rewrite append_assoc; cbn [append]). reflexivity.
Qed.

Lemma buildRRule_spec_witness :
  Calendar.buildRRule Samples.lecture
  = Some "FREQ=WEEKLY;UNTIL=20251204T235959;BYDAY=TU".
Proof.
  exact (proj2 buildRRule_spec Samples.lecture 2025 12 4
           ltac:(lia) ltac:(lia) ltac:(lia) eq_refl ltac:(discriminate)).
Defined.

(** ** Event identifiers *)

Lemma count_if_removed (p q : ascii -> bool) (s : string) :
  (forall c, p c = true -> q c = true) ->
  Escape.count_if p (JS.replace_class q "" s) = 0%nat.
Proof.
  intros H. induction s as [|c s IH]; [reflexivity|].
  cbn [JS.replace_class]. destruct (q c) eqn:Eq.
  - exact IH.
  - cbn [Escape.count_if]. destruct (p c) eqn:Ep.
    + apply H in Ep. congruence.
    + exact IH.
Qed.

Lemma space_not_alnum (c : ascii) :
  JS.is_space c = true -> negb (JS.is_alnum c) = true.
Proof.
  destruct c as [[] [] [] [] [] [] [] []]; vm_compute; congruence.
Qed.

Lemma digit_char_no_space (n : Z) :
  JS.is_space (JS.digit_char (n mod 10)) = false.
Proof.
  pose proof (Z.mod_pos_bound n 10 ltac:(lia)) as H.
  assert (Hc : n mod 10 = 0 \/ n mod 10 = 1 \/ n mod 10 = 2 \/ n mod 10 = 3
               \/ n mod 10 = 4 \/ n mod 10 = 5 \/ n mod 10 = 6
               \/ n mod 10 = 7 \/ n mod 10 = 8 \/ n mod 10 = 9) by lia.
  repeat (destruct Hc as [->|Hc]; [reflexivity|]). now rewrite Hc.
Qed.

Lemma digits_of_no_space (fuel : nat) : forall n acc,
  Escape.count_if JS.is_space acc = 0%nat ->
  Escape.count_if JS.is_space (JS.digits_of fuel n acc) = 0%nat.
Proof.
  induction fuel as [|f IH]; intros n acc H; cbn [JS.digits_of].
  - cbn [Escape.count_if]. now rewrite digit_char_no_space.
  - destruct (n / 10 =? 0).
    + cbn [Escape.count_if]. now rewrite digit_char_no_space.
    + apply IH. cbn [Escape.count_if]. now rewrite digit_char_no_space.
Qed.

Lemma toString_no_space (z : Z) :
  Escape.count_if JS.is_space (JS.toString (JS.Int z)) = 0%nat.
Proof.
  unfold JS.toString, JS.nat_string.
  destruct (z <? 0).
  - change ("-" ++ JS.digits_of (Z.to_nat (Z.log2 (- z))) (- z) "")
      with (String "-" (JS.digits_of (Z.to_nat (Z.log2 (- z))) (- z) "")).
    cbn [Escape.count_if].
    now rewrite digits_of_no_space.
  - now apply digits_of_no_space.
Qed.

(** X4: a UID holds no white space (so no line break), whatever the course
    code and the start date hold, and ends with the fixed domain. *)
Theorem generateUID_no_space (timestamp : Z) (course : Course)
    (meeting : Meeting) :
  Escape.count_if JS.is_space (Calendar.generateUID timestamp course meeting)
  = 0%nat
  /\ exists prefix,
       Calendar.generateUID timestamp course meeting
       = prefix ++ "@workday-cal".
Proof.
  unfold Calendar.generateUID. split.
  - rewrite !count_if_app.
    rewrite (count_if_removed JS.is_space JS.is_space) by auto.
    rewrite (count_if_removed JS.is_space (fun c => negb (JS.is_alnum c)))
      by apply space_not_alnum.
    rewrite toString_no_space. reflexivity.
  - eexists. rewrite <- !append_assoc. reflexivity.
Qed.

(** ** The layout of the calendar *)

Lemma meeting_events_stamped {zone : JSDate.Zone} clock c ms : forall t,
  Calendar.meeting_events clock t c ms
  = (Layout.stamped clock t (map (pair c) (filter Text.has_days ms)),
     (t + List.length (filter Text.has_days ms))%nat).
Proof.
  induction ms as [|m ms IH]; intros t; cbn [Calendar.meeting_events].
  - cbn. f_equal. lia.
  - unfold Calendar.createRecurringEvents. cbn [filter].
    assert (Hd : Text.has_days m
                 = match days m with [] => false | _ => true end)
      by reflexivity.
    rewrite Hd. clear Hd.
    destruct (days m) as [|d ds] eqn:Ed.
    + rewrite IH. reflexivity.
    + rewrite IH. cbn [map Layout.stamped List.length app]. f_equal. lia.
Qed.

Lemma stamped_app {zone : JSDate.Zone} clock l1 : forall l2 t,
  Layout.stamped clock t (l1 ++ l2)%list
  = (Layout.stamped clock t l1
     ++ Layout.stamped clock (t + List.length l1) l2)%list.
Proof.
  induction l1 as [|[c m] l1 IH]; intros l2 t; cbn [app Layout.stamped List.length].
  - now rewrite Nat.add_0_r.
  - rewrite IH. do 3 f_equal. lia.
Qed.

Lemma course_events_stamped {zone : JSDate.Zone} clock courses : forall t,
  Calendar.course_events clock t courses
  = (Layout.stamped clock t (Layout.course_meetings courses),
     (t + List.length (Layout.course_meetings courses))%nat).
Proof.
  induction courses as [|c cs IH]; intros t; cbn [Calendar.course_events].
  - cbn. f_equal. lia.
  - rewrite meeting_events_stamped, IH.
    unfold Layout.course_meetings. cbn [flat_map].
    rewrite stamped_app, length_app, !length_map. f_equal. lia.
Qed.

Lemma count_prefix_app (p : string) (a b : list string) :
  Text.count_prefix p (a ++ b)%list
  = (Text.count_prefix p a + Text.count_prefix p b)%nat.
Proof. unfold Text.count_prefix. now rewrite filter_app, length_app. Qed.

Ltac count_lines :=
  unfold Text.count_prefix;
  cbn [List.concat app filter JS.startsWith append Ascii.eqb Bool.eqb andb
       List.length JS.truthy];
  reflexivity.

Lemma passes_serialized {zone : JSDate.Zone} ts c m :
  Checks.passes (Calendar.recurring_event ts c m) = Spec.serialized m.
Proof.
  unfold Checks.passes, Spec.serialized. cbn [dtstart dtend Calendar.recurring_event].
  rewrite !getFirstOccurrence_truthy.
  destruct (JS.truthy (startDate m)), (days m), (JS.truthy (startTime m)),
    (JS.truthy (endTime m)); reflexivity.
Qed.

Lemma categories_truthy {zone : JSDate.Zone} ts c m :
  JS.truthy (Some (categories (Calendar.recurring_event ts c m))) = true.
Proof.
  cbn [categories Calendar.recurring_event].
  destruct (format c) as [[|a f]|]; reflexivity.
Qed.

Lemma event_lines_required {zone : JSDate.Zone} now ts c m ds de p :
  In p Layout.required ->
  Text.count_prefix p
    (Calendar.event_lines now (Calendar.recurring_event ts c m) ds de)
  = 1%nat.
Proof.
  intros Hp. unfold Calendar.event_lines.
  rewrite categories_truthy.
  cbn [rrule description ev_location ev_status uid summary
       Calendar.recurring_event].
  destruct (JS.truthy (Calendar.buildRRule m)),
    (JS.truthy (Some (Calendar.buildDescription c))),
    (JS.truthy (location m));
    cbn [List.concat app JS.truthy];
    repeat (destruct Hp as [<-|Hp]; [count_lines|]); destruct Hp.
Qed.

Lemma event_lines_rrule {zone : JSDate.Zone} now ts c m ds de :
  Text.count_prefix "RRULE:"
    (Calendar.event_lines now (Calendar.recurring_event ts c m) ds de)
  = (if JS.truthy (rrule (Calendar.recurring_event ts c m)) then 1 else 0)%nat.
Proof.
  unfold Calendar.event_lines.
  rewrite categories_truthy.
  cbn [rrule description ev_location ev_status uid summary
       Calendar.recurring_event].
  destruct (JS.truthy (Calendar.buildRRule m)),
    (JS.truthy (Some (Calendar.buildDescription c))),
    (JS.truthy (location m)); count_lines.
Qed.

Lemma event_lines_location {zone : JSDate.Zone} now ts c m ds de :
  Text.count_prefix "LOCATION:"
    (Calendar.event_lines now (Calendar.recurring_event ts c m) ds de)
  = (if JS.truthy (location m) then 1 else 0)%nat.
Proof.
  unfold Calendar.event_lines.
  rewrite categories_truthy.
  cbn [rrule description ev_location ev_status uid summary
       Calendar.recurring_event].
  destruct (JS.truthy (Calendar.buildRRule m)),
    (JS.truthy (Some (Calendar.buildDescription c))),
    (JS.truthy (location m)); count_lines.
Qed.

Lemma rrule_truthy (m : Meeting) :
  Spec.serialized m = true ->
  JS.truthy (Calendar.buildRRule m) = JS.truthy (endDate m).
Proof.
  unfold Spec.serialized, Calendar.buildRRule.
  destruct (days m); [discriminate|].
  destruct (endDate m) as [[|a e]|]; reflexivity.
Qed.

(** Lines of the events of a list of pairs that start with [p], when each
    event that is written holds one such line or none. *)
Lemma stamped_count {zone : JSDate.Zone} (p : string) (g : Meeting -> bool) :
  (forall now ts c m ds de,
      Spec.serialized m = true ->
      Text.count_prefix p
        (Calendar.event_lines now (Calendar.recurring_event ts c m) ds de)
      = (if g m then 1 else 0)%nat) ->
  forall pairs clock clock' t t',
    Text.count_prefix p
      (Calendar.events_lines clock t (Layout.stamped clock' t' pairs))
    = List.length
        (filter (fun cm => Spec.serialized (snd cm) && g (snd cm)) pairs).
Proof.
  intros H pairs. induction pairs as [|[c m] rest IH]; intros clock clock' t t'.
  - reflexivity.
  - cbn [Layout.stamped Calendar.events_lines filter snd].
    pose proof (passes_serialized (clock' t') c m) as Hp.
    unfold Checks.passes in Hp. rewrite Hp.
    destruct (Spec.serialized m) eqn:Es; cbn [andb].
    + rewrite count_prefix_app, H, IH by exact Es.
      destruct (g m); reflexivity.
    + apply IH.
Qed.

Lemma pairs_filter (g : Meeting -> bool) (c : Course) (ms : list Meeting) :
  (forall m, g m = true -> Text.has_days m = true) ->
  filter (fun cm => g (snd cm)) (map (pair c) (filter Text.has_days ms))
  = map (pair c) (filter g ms).
Proof.
  intros H. induction ms as [|m ms IH]; [reflexivity|].
  cbn [filter]. destruct (Text.has_days m) eqn:Ed.
  - cbn [map filter snd]. rewrite IH. destruct (g m); reflexivity.
  - rewrite IH. destruct (g m) eqn:Eg; [|reflexivity].
    apply H in Eg. congruence.
Qed.

Lemma course_meetings_count (g : Meeting -> bool) (courses : list Course) :
  (forall m, g m = true -> Text.has_days m = true) ->
  List.length (filter (fun cm => g (snd cm)) (Layout.course_meetings courses))
  = List.length (filter g (Spec.all_meetings courses)).
Proof.
  intros H. unfold Layout.course_meetings, Spec.all_meetings.
  induction courses as [|c cs IH]; [reflexivity|].
  cbn [flat_map]. rewrite !filter_app, !length_app, IH, pairs_filter by exact H.
  now rewrite length_map.
Qed.

Lemma serialized_has_days (g : Meeting -> bool) (m : Meeting) :
  Spec.serialized m && g m = true -> Text.has_days m = true.
Proof.
  unfold Spec.serialized, Text.has_days. destruct (days m); [discriminate|reflexivity].
Qed.

Lemma generated_lines_stamped {zone : JSDate.Zone} clock courses :
  Calendar.generated_lines clock courses
  = (Calendar.header_lines
     ++ Calendar.events_lines clock
          (List.length (Layout.course_meetings courses))
          (Layout.stamped clock 0 (Layout.course_meetings courses))
     ++ ["END:VCALENDAR"])%list.
Proof.
  unfold Calendar.generated_lines. rewrite course_events_stamped. reflexivity.
Qed.

Lemma generated_count {zone : JSDate.Zone}
    (p : string) (g : Meeting -> bool) clock courses :
  (forall now ts c m ds de,
      Spec.serialized m = true ->
      Text.count_prefix p
        (Calendar.event_lines now (Calendar.recurring_event ts c m) ds de)
      = (if g m then 1 else 0)%nat) ->
  JS.startsWith "END:VCALENDAR" p = false ->
  Text.count_prefix p (Calendar.generated_lines clock courses)
  = (Text.count_prefix p Calendar.header_lines
     + List.length
         (filter (fun m => Spec.serialized m && g m)
                 (Spec.all_meetings courses)))%nat.
Proof.
  intros H Hend. rewrite generated_lines_stamped, !count_prefix_app.
  rewrite (stamped_count p g H).
  rewrite (course_meetings_count (fun m => Spec.serialized m && g m))
    by apply serialized_has_days.
  assert (E : Text.count_prefix p ["END:VCALENDAR"] = 0%nat)
    by (unfold Text.count_prefix; cbn [filter]; now rewrite Hend).
  rewrite E. lia.
Qed.

Lemma required_checked : forallb Layout.frame_check Layout.required = true.
Proof. vm_compute. reflexivity. Qed.

Lemma filter_true {A : Type} (f g : A -> bool) (l : list A) :
  (forall x, f x = g x) -> filter f l = filter g l.
Proof.
  intros H. induction l as [|x l IH]; [reflexivity|].
  cbn [filter]. now rewrite H, IH.
Qed.

(** X5: the events of a calendar follow the courses and their meetings in
    the order of the input, one for each meeting with a day set; the k-th
    event is made at the k-th reading of the clock, and the events are
    written only after all of them are made. *)
Theorem generated_events_in_order {zone : JSDate.Zone} (clock : Calendar.Clock)
    (courses : list Course) :
  Calendar.generated_events clock courses
  = Layout.stamped clock 0 (Layout.course_meetings courses)
  /\ map snd (Layout.course_meetings courses)
     = filter Text.has_days (Spec.all_meetings courses)
  /\ Calendar.generated_lines clock courses
     = (Calendar.header_lines
        ++ Calendar.events_lines clock
             (List.length (Layout.course_meetings courses))
             (Calendar.generated_events clock courses)
        ++ ["END:VCALENDAR"])%list.
Proof.
  assert (E : Calendar.generated_events clock courses
              = Layout.stamped clock 0 (Layout.course_meetings courses)).
  { unfold Calendar.generated_events. now rewrite course_events_stamped. }
  split; [exact E|]. split.
  - unfold Layout.course_meetings, Spec.all_meetings.
    induction courses as [|c cs IH]; [reflexivity|].
    cbn [flat_map]. rewrite map_app, filter_app, map_map. cbn [snd].
    rewrite map_id. f_equal.
    apply IH. unfold Calendar.generated_events. now rewrite course_events_stamped.
  - rewrite E. apply generated_lines_stamped.
Qed.

Lemma frame_check_spec (p : string) :
  Layout.frame_check p = true ->
  Text.count_prefix p Calendar.header_lines = 0%nat
  /\ JS.startsWith "END:VCALENDAR" p = false.
Proof.
  unfold Layout.frame_check. intros Hc.
  apply andb_prop in Hc. destruct Hc as [Hh He].
  apply Nat.eqb_eq in Hh. apply negb_true_iff in He. now split.
Qed.

Lemma required_frame (p : string) :
  In p Layout.required ->
  Text.count_prefix p Calendar.header_lines = 0%nat
  /\ JS.startsWith "END:VCALENDAR" p = false.
Proof.
  intros Hp. apply frame_check_spec.
  exact (proj1 (forallb_forall Layout.frame_check Layout.required)
           required_checked p Hp).
Qed.

(** X6: every event of the calendar is closed and holds exactly one UID,
    DTSTAMP, DTSTART, DTEND, SUMMARY, CATEGORIES and STATUS line: the lines
    that start with each of these are as many as the serialized meetings. *)
Theorem event_lines_once {zone : JSDate.Zone}
    (clock : Calendar.Clock) (courses : list Course)
    (p : string) :
  In p Layout.required ->
  Text.count_prefix p (Calendar.generated_lines clock courses)
  = List.length (filter Spec.serialized (Spec.all_meetings courses)).
Proof.
  intros Hp. destruct (required_frame p Hp) as [Hh He].
  rewrite (generated_count p (fun _ => true) clock courses
             (fun now ts c m ds de _ =>
                event_lines_required now ts c m ds de p Hp) He).
  rewrite Hh. cbn [Nat.add]. f_equal. apply filter_true.
  intros m. apply andb_true_r.
Qed.

Lemma event_lines_once_witness :
  Text.count_prefix "UID:"
    (Calendar.generated_lines (zone := Zones.utc)
        Samples.same_millisecond Samples.twin_courses)
  = 2%nat.
Proof.
  exact (event_lines_once (zone := Zones.utc)
      Samples.same_millisecond Samples.twin_courses "UID:"
           ltac:(cbn; tauto)).
Defined.

(** X7: besides the two rules of the time zone, the calendar holds one RRULE
    line for each serialized meeting with an end date, and one LOCATION line
    for each serialized meeting with a location. *)
Theorem rrule_lines {zone : JSDate.Zone}
    (clock : Calendar.Clock) (courses : list Course) :
  Text.count_prefix "RRULE:" (Calendar.generated_lines clock courses)
  = (2 + List.length (filter Layout.ruled (Spec.all_meetings courses)))%nat
  /\ Text.count_prefix "LOCATION:" (Calendar.generated_lines clock courses)
     = List.length (filter Layout.placed (Spec.all_meetings courses)).
Proof.
  split.
  - rewrite (generated_count "RRULE:" (fun m => JS.truthy (endDate m)));
      [reflexivity| |reflexivity].
    intros now ts c m ds de Hs. rewrite event_lines_rrule.
    cbn [rrule Calendar.recurring_event]. now rewrite rrule_truthy.
  - rewrite (generated_count "LOCATION:" (fun m => JS.truthy (location m)));
      [reflexivity| |reflexivity].
    intros now ts c m ds de _. apply event_lines_location.
Qed.

Lemma stamped_unwritten {zone : JSDate.Zone} clock clock' pairs : forall t t',
  filter (fun cm => Spec.serialized (snd cm)) pairs = [] ->
  Calendar.events_lines clock t (Layout.stamped clock' t' pairs) = [].
Proof.
  induction pairs as [|[c m] rest IH]; intros t t' H; [reflexivity|].
  cbn [filter snd] in H. cbn [Layout.stamped Calendar.events_lines].
  pose proof (passes_serialized (clock' t') c m) as Hp.
  unfold Checks.passes in Hp. rewrite Hp.
  destruct (Spec.serialized m); [discriminate|]. now apply IH.
Qed.

(** X8: when no meeting has a day set, a start date and both times, the
    calendar is the fixed frame with no event, whatever the clock reads. *)
Theorem empty_calendar {zone : JSDate.Zone}
    (clock : Calendar.Clock) (courses : list Course) :
  filter Spec.serialized (Spec.all_meetings courses) = [] ->
  Calendar.generateICS clock courses
  = JS.join Calendar.CRLF (Calendar.header_lines ++ ["END:VCALENDAR"])%list.
Proof.
  intros H. rewrite generateICS_lines, generated_lines_stamped.
  rewrite stamped_unwritten; [reflexivity|].
  apply length_zero_iff_nil.
  pose proof (course_meetings_count (fun m => Spec.serialized m && true)
                courses (serialized_has_days _)) as E.
  rewrite (filter_true _ Spec.serialized (Spec.all_meetings courses)) in E
    by (intros; apply andb_true_r).
  rewrite H in E.
  rewrite (filter_true _ (fun cm => Spec.serialized (snd cm) && true)).
  - exact E.
  - intros x. now rewrite andb_true_r.
Qed.

Lemma empty_calendar_witness :
  Calendar.generateICS (zone := Zones.utc) Samples.same_millisecond
    [Samples.bare_course [Instant.untimed]]
  = JS.join Calendar.CRLF (Calendar.header_lines ++ ["END:VCALENDAR"])%list.
Proof.
  exact (empty_calendar (zone := Zones.utc) Samples.same_millisecond
           [Samples.bare_course [Instant.untimed]] eq_refl).
Defined.

(** ** Time stamps *)

Lemma at_time_parts (dn h mi s ms : Z) :
  0 <= h < 24 -> 0 <= mi < 60 -> 0 <= s < 60 -> 0 <= ms < 1000 ->
  let now := Instant.at_time dn h mi s ms in
  JSDate.Day now = dn /\ JSDate.HourFromTime now = h
  /\ JSDate.MinFromTime now = mi /\ JSDate.SecFromTime now = s.
Proof.
  intros Hh Hmi Hs Hms. cbv zeta.
  unfold JSDate.Day, JSDate.HourFromTime, JSDate.MinFromTime,
    JSDate.SecFromTime, JSDate.msPerDay, Instant.at_time.
  repeat split; Z.div_mod_to_equations; lia.
Qed.

(** X9: the time stamp of a clock reading is the UTC date and time of day of
    the reading as YYYYMMDDTHHMMSSZ, the milliseconds dropped, for the years
    1000 to 9999. *)
Theorem getCurrentTimestamp_spec (y m d h mi s ms : Z) :
  1000 <= y <= 9999 -> Spec.valid_date y m d ->
  0 <= h < 24 -> 0 <= mi < 60 -> 0 <= s < 60 -> 0 <= ms < 1000 ->
  Calendar.getCurrentTimestamp
    (Instant.at_time (Spec.day_number y m d) h mi s ms)
  = Text.date_digits y m d ++ "T" ++ Spec.two_digits h
    ++ Spec.two_digits mi ++ Spec.two_digits s ++ "Z".
Proof.
  intros Hy Hv Hh Hmi Hs Hms.
  destruct (at_time_parts (Spec.day_number y m d) h mi s ms Hh Hmi Hs Hms)
    as [ED [EH [EM ES]]].
  destruct (civil_of_day_number y m d Hv) as [EY [EMo EDa]].
  unfold Calendar.getCurrentTimestamp. rewrite ED, EH, EM, ES, EY, EMo, EDa.
  assert (Hm : 0 <= m <= 99) by (destruct Hv; lia).
  assert (Hd : 0 <= d <= 99).
  { destruct Hv as [Hm' Hd']. unfold Spec.days_in_month, Spec.month_length in Hd'.
    pose proof (leap_days_range y).
    destruct (m =? 2); [lia|].
    destruct ((m =? 4) || (m =? 6) || (m =? 9) || (m =? 11)); lia. }
  destruct (four_digits_facts y Hy) as [-> _].
  destruct (two_digits_facts m Hm) as [-> _].
  destruct (two_digits_facts d Hd) as [-> _].
  destruct (two_digits_facts h ltac:(lia)) as [-> _].
  destruct (two_digits_facts mi ltac:(lia)) as [-> _].
  destruct (two_digits_facts s ltac:(lia)) as [-> _].
  unfold Text.date_digits. cbv zeta.
  now rewrite !append_assoc.
Qed.

Lemma getCurrentTimestamp_spec_witness :
  Calendar.getCurrentTimestamp
    (Instant.at_time (Spec.day_number 2025 11 3) 7 0 0 123)
  = "20251103T070000Z".
Proof.
  apply (getCurrentTimestamp_spec 2025 11 3 7 0 0 123);
    try lia; unfold Spec.valid_date; vm_compute; intuition discriminate.
Defined.

(** ** Start dates that are not calendar dates *)

(** X10: a start date whose day lies past the end of its month is not
    rejected: it stands for the date that many days on, so that 2025-02-30
    gives the same first occurrence as 2025-03-02. *)
Theorem getFirstOccurrence_rolls_over {zone : JSDate.Zone}
    (y m d y' m' d' : Z) (ds : list Weekday) (time : option string) :
  1000 <= y <= 9999 -> 1 <= m <= 12 -> 0 <= d <= 99 ->
  1000 <= y' <= 9999 -> Spec.valid_date y' m' d' ->
  Spec.day_number y m d = Spec.day_number y' m' d' ->
  Calendar.getFirstOccurrence (Some (Spec.iso_date y m d)) ds time
  = Calendar.getFirstOccurrence (Some (Spec.iso_date y' m' d')) ds time.
Proof.
  intros Hy Hm Hd Hy' Hv E.
  destruct ds as [|w ds].
  { unfold Calendar.getFirstOccurrence, Spec.iso_date, Spec.four_digits.
    reflexivity. }
  destruct time as [[|a tm]|];
    try (unfold Calendar.getFirstOccurrence, Spec.iso_date, Spec.four_digits;
         reflexivity).
  assert (Hd' : 0 <= d' <= 99).
  { destruct Hv as [Hm' Hd']. unfold Spec.days_in_month, Spec.month_length in Hd'.
    pose proof (leap_days_range y').
    destruct (m' =? 2); [lia|].
    destruct ((m' =? 4) || (m' =? 6) || (m' =? 9) || (m' =? 11)); lia. }
  assert (Hiso : forall a b c, Spec.iso_date a b c <> "")
    by (intros; unfold Spec.iso_date, Spec.four_digits; discriminate).
  rewrite (getFirstOccurrence_body (Spec.iso_date y m d))
    by first [apply Hiso | discriminate].
  rewrite (getFirstOccurrence_body (Spec.iso_date y' m' d'))
    by first [apply Hiso | discriminate].
  cbv zeta.
  rewrite (make_iso y m d Hy Hm Hd), (make_iso y' m' d' Hy' (proj1 Hv) Hd').
  now rewrite E.
Qed.

Lemma getFirstOccurrence_rolls_over_witness :
  Calendar.getFirstOccurrence (zone := Zones.utc)
      (Some (Spec.iso_date 2025 2 30)) [MO; WE]
    (Some "09:00")
  = Calendar.getFirstOccurrence (zone := Zones.utc)
      (Some (Spec.iso_date 2025 3 2)) [MO; WE]
      (Some "09:00").
Proof.
  apply (getFirstOccurrence_rolls_over (zone := Zones.utc) 2025 2 30 2025 3 2);
    try lia; try reflexivity.
  unfold Spec.valid_date. vm_compute. intuition discriminate.
Defined.

(** X11: a start date with fewer than three parts between dashes gives no
    null: the date digits of the result read NaNNaNNaN, the meeting passes
    the test of the serializer and the text is written as its DTSTART. *)
Theorem getFirstOccurrence_missing_part {zone : JSDate.Zone} :
  (forall (sd : string) (ds : list Weekday) (tm : string),
      sd <> "" -> ds <> [] -> tm <> "" ->
      (List.length (JS.split "-" sd) < 3)%nat ->
      Calendar.getFirstOccurrence (Some sd) ds (Some tm)
      = Some ("NaNNaNNaNT" ++ JS.remove_first ":" tm ++ "00"))
  /\ (forall clock courses c m sd tm,
         In c courses -> In m (meetings c) -> Spec.serialized m = true ->
         startDate m = Some sd -> startTime m = Some tm ->
         (List.length (JS.split "-" sd) < 3)%nat ->
         In ("DTSTART;TZID=America/Vancouver:NaNNaNNaNT"
             ++ JS.remove_first ":" tm ++ "00")
            (Calendar.generated_lines clock courses)).
Proof.
  assert (A : forall sd ds tm,
             sd <> "" -> ds <> [] -> tm <> "" ->
             (List.length (JS.split "-" sd) < 3)%nat ->
             Calendar.getFirstOccurrence (Some sd) ds (Some tm)
             = Some ("NaNNaNNaNT" ++ JS.remove_first ":" tm ++ "00")).
  { intros sd ds tm Hsd Hds Htm Hlen.
    rewrite getFirstOccurrence_body by assumption. cbv zeta.
    assert (E : Calendar.part 2 (JS.split "-" sd) = JS.NaN).
    { unfold Calendar.part.
      destruct (JS.split "-" sd) as [|p0 [|p1 [|p2 l]]]; try reflexivity.
      cbn [List.length] in Hlen. lia. }
    rewrite E.
    assert (N : forall a b, JSDate.make a b JS.NaN = None)
      by (intros [|a] [|b]; reflexivity).
    rewrite N. reflexivity. }
  split; [exact A|].
  intros clock courses c m sd tm Hc Hm Hs Esd Etm Hlen.
  destruct (generated_event_lines clock courses c m Hc Hm Hs)
    as [ts [now Hincl]].
  cbv zeta in Hincl. apply Hincl.
  unfold Calendar.event_lines. cbn [List.concat app dtstart Calendar.recurring_event].
  do 3 right. left.
  rewrite Esd, Etm.
  pose proof Hs as Hs'. unfold Spec.serialized in Hs'.
  rewrite Esd, Etm in Hs'.
  rewrite A.
  - reflexivity.
  - intros ->. destruct (days m); cbn in Hs'; discriminate Hs'.
  - now apply serialized_days.
  - intros ->. destruct (days m), sd; cbn in Hs'; discriminate Hs'.
  - exact Hlen.
Qed.

Lemma getFirstOccurrence_missing_part_witness :
  Calendar.getFirstOccurrence (zone := Zones.utc) (Some "2025/09/02") [TU]
    (Some "14:00")
  = Some "NaNNaNNaNT140000".
Proof.
  exact (proj1 (getFirstOccurrence_missing_part (zone := Zones.utc))
           "2025/09/02" [TU] "14:00"
           ltac:(discriminate) ltac:(discriminate) ltac:(discriminate)
           ltac:(vm_compute; lia)).
Defined.

(** ** What the parser returns *)

Lemma convertTo24Hour_truthy (time period r : string) :
  Parser.convertTo24Hour time period = Some r -> JS.truthy (Some r) = true.
Proof.
  unfold Parser.convertTo24Hour.
  destruct (nth_error (map JS.Number (JS.split ":" time)) 1); [|discriminate].
  intros [= <-].
  match goal with
  | |- context [Calendar.pad2 ?x ++ _] => destruct (Calendar.pad2 x)
  end; reflexivity.
Qed.

Lemma parseMeetingLine_complete (line : string) (m : Meeting) :
  Parser.parseMeetingLine line = Some [m] -> Parsed.complete m.
Proof.
  intros H.
  destruct (parseMeetingLine_cases line)
    as [(m' & f0 & f1 & f2 & more & whole & dc & d1 & d2 & H' & _ & _ & _
         & _ & _ & L1 & L2 & S1 & S2 & _)|[H' _]];
    [|congruence].
  assert (m' = m) by congruence. subst m'.
  split; [exists d1, d2; now repeat split|].
  clear H'. unfold Parser.parseMeetingLine in H.
  destruct (map JS.trim (JS.split "|" line)) as [|g0 [|g1 [|g2 rest]]];
    try discriminate.
  destruct (Regex.exec Parser.dateRange_re g0) as [[w1 c1]|]; [|discriminate].
  destruct (Regex.exec Parser.timeRange_re g2) as [[w2 c2]|]; [|discriminate].
  destruct (Parser.convertTo24Hour (Calendar.show (Regex.group 1 c2)) _)
    as [st|] eqn:C1; [|discriminate].
  destruct (Parser.convertTo24Hour (Calendar.show (Regex.group 3 c2)) _)
    as [et|] eqn:C3; [|discriminate].
  injection H as <-. cbn [startTime endTime].
  split; eapply convertTo24Hour_truthy; eassumption.
Qed.

Lemma parseMeetingLines_In (lines : list string) : forall ms m,
  Parser.parseMeetingLines lines = Some ms -> In m ms ->
  exists line, In line lines /\ Parser.parseMeetingLine line = Some [m].
Proof.
  induction lines as [|l lines IH]; intros ms m H Hin.
  - injection H as <-. destruct Hin.
  - cbn [Parser.parseMeetingLines] in H.
    destruct (parseMeetingLine_cases l)
      as [[m' [f0 [f1 [f2 [more [whole [dc [d1 [d2 [H' _]]]]]]]]]]|[H' _]];
      rewrite H' in H;
      destruct (Parser.parseMeetingLines lines) as [ms'|] eqn:E;
      try discriminate; injection H as <-.
    + destruct Hin as [<-|Hin].
      * exists l. split; [now left | exact H'].
      * destruct (IH ms' m eq_refl Hin) as [line [Hl Hp]].
        exists line. split; [now right | exact Hp].
    + destruct (IH ms' m eq_refl Hin) as [line [Hl Hp]].
      exists line. split; [now right | exact Hp].
Qed.

Lemma parseMeetingPatterns_complete (pattern : string) (ms : list Meeting)
    (m : Meeting) :
  Parser.parseMeetingPatterns pattern = Some ms -> In m ms ->
  Parsed.complete m.
Proof.
  unfold Parser.parseMeetingPatterns. intros H Hin.
  destruct pattern as [|a p].
  - injection H as <-. destruct Hin.
  - destruct (parseMeetingLines_In _ _ _ H Hin) as [line [_ Hl]].
    now apply parseMeetingLine_complete with line.
Qed.

Lemma iso_truthy (d : string) :
  Spec.lang Parser.isoDate_re d -> JS.truthy (Some d) = true.
Proof.
  intros L. destruct (isoDate_head d L) as [a [t [-> _]]]. reflexivity.
Qed.

Lemma complete_serialized (m : Meeting) :
  Parsed.complete m ->
  Spec.serialized m = Text.has_days m /\ Layout.ruled m = Text.has_days m.
Proof.
  intros [[d1 [d2 [S1 [S2 [L1 L2]]]]] [T1 T2]].
  unfold Layout.ruled, Spec.serialized, Text.has_days.
  rewrite S1, S2, T1, T2, (iso_truthy d1 L1), (iso_truthy d2 L2).
  destruct (days m); now split.
Qed.

(** X12: reading a meeting-patterns cell never fails, and every meeting it
    gives holds both dates in the form YYYY-MM-DD and both times; so a
    meeting that was read is serialized, and has its recurrence rule,
    exactly when a day name was found on its line. *)
Theorem parsed_meetings_complete (pattern : string) :
  exists ms,
    Parser.parseMeetingPatterns pattern = Some ms
    /\ forall m, In m ms ->
         Parsed.complete m
         /\ Spec.serialized m = Text.has_days m
         /\ (Text.has_days m = true -> Calendar.buildRRule m <> None).
Proof.
  destruct (parseMeetingPatterns_total pattern) as [ms H].
  exists ms. split; [exact H|]. intros m Hin.
  pose proof (parseMeetingPatterns_complete pattern ms m H Hin) as C.
  destruct (complete_serialized m C) as [E1 E2].
  split; [exact C|]. split; [exact E1|].
  intros Hd Hn.
  rewrite <- E1 in Hd. pose proof (rrule_truthy m Hd) as R.
  rewrite Hn in R.
  destruct C as [[d1 [d2 [_ [S2 [_ L2]]]]] _].
  rewrite S2, (iso_truthy d2 L2) in R. discriminate R.
Qed.

Lemma parsed_meetings_complete_witness :
  exists ms,
    Parser.parseMeetingPatterns Samples.before_break = Some ms
    /\ forall m, In m ms ->
         Parsed.complete m
         /\ Spec.serialized m = Text.has_days m
         /\ (Text.has_days m = true -> Calendar.buildRRule m <> None).
Proof.
  exact (parsed_meetings_complete Samples.before_break).
Defined.

(** *** The name of a course *)

Lemma rev_string_app (s : string) : forall acc,
  JS.rev_string s acc = JS.rev_string s "" ++ acc.
Proof.
  induction s as [|a s IH]; intros acc; cbn [JS.rev_string]; [reflexivity|].
  rewrite (IH (String a acc)), (IH (String a "")).
  rewrite append_assoc. reflexivity.
Qed.

Lemma solid_end_snoc (u : string) (a : ascii) :
  JS.is_space a = false -> Parsed.solid_end (u ++ String a "") = true.
Proof.
  intros H. induction u as [|b u IH]; cbn [append Parsed.solid_end].
  - now rewrite H.
  - destruct (u ++ String a "") as [|x t] eqn:E; [|exact IH].
    destruct u; discriminate E.
Qed.

Lemma solid_end_trimEnd (s : string) : Parsed.solid_end (JS.trimEnd s) = true.
Proof.
  unfold JS.trimEnd.
  generalize (JS.rev_string s ""). intros r.
  induction r as [|a r IH]; [reflexivity|].
  cbn [JS.trimStart]. destruct (JS.is_space a) eqn:Ha; [exact IH|].
  cbn [JS.rev_string]. rewrite (rev_string_app r (String a "")).
  now apply solid_end_snoc.
Qed.

Lemma solid_end_suffix (p : string) : forall s,
  Parsed.solid_end (p ++ s) = true -> Parsed.solid_end s = true.
Proof.
  induction p as [|a p IH]; intros s H; [exact H|].
  cbn [append Parsed.solid_end] in H.
  destruct (p ++ s) as [|x t] eqn:E.
  - destruct p; [|discriminate E]. cbn [append] in E. now subst s.
  - apply IH. now rewrite E.
Qed.

Lemma trimStart_snoc (u : string) (a : ascii) :
  JS.is_space a = false -> JS.trimStart (u ++ String a "") <> "".
Proof.
  intros H. induction u as [|b u IH]; cbn [append JS.trimStart].
  - now rewrite H.
  - destruct (JS.is_space b); [exact IH | discriminate].
Qed.

(** A text that begins with a character that is not white space keeps a
    character when it is trimmed. *)
Lemma trim_solid_start (a : ascii) (v : string) :
  JS.is_space a = false -> JS.trim (String a v) <> "".
Proof.
  intros H. unfold JS.trim. cbn [JS.trimStart]. rewrite H.
  unfold JS.trimEnd. cbn [JS.rev_string].
  rewrite (rev_string_app v (String a "")).
  pose proof (trimStart_snoc (JS.rev_string v "") a H) as N.
  destruct (JS.trimStart (JS.rev_string v "" ++ String a "")) as [|b t];
    [congruence|].
  cbn [JS.rev_string]. rewrite (rev_string_app t (String b "")).
  destruct (JS.rev_string t ""); cbn [append]; discriminate.
Qed.

Lemma solid_is_dot (a : ascii) :
  JS.is_space a = false ->
  negb (Ascii.eqb a JS.LF || Ascii.eqb a JS.CR) = true.
Proof.
  intros H.
  destruct (Ascii.eqb_spec a JS.LF) as [->|_]; [vm_compute in H; discriminate H|].
  destruct (Ascii.eqb_spec a JS.CR) as [->|_]; [vm_compute in H; discriminate H|].
  reflexivity.
Qed.

Lemma ways_spaces_cons (a : ascii) (s : string) (c : Regex.caps) :
  JS.is_space a = true ->
  Regex.ways Regex.spaces (String a s) c
  = (map (Regex.after (String a "")) (Regex.ways Regex.spaces s c)
     ++ [("", String a s, c)])%list.
Proof.
  intros H. unfold Regex.spaces, Regex.space.
  cbn [Regex.ways String.length Regex.star_ways]. rewrite H.
  cbn [flat_map]. now rewrite app_nil_r.
Qed.

Lemma ways_seq (r1 r2 : Regex.re) (s : string) (c : Regex.caps) :
  Regex.ways (Regex.Seq r1 r2) s c
  = flat_map (fun w : Regex.way =>
                let '(m1, rest1, c1) := w in
                map (Regex.after m1) (Regex.ways r2 rest1 c1))
             (Regex.ways r1 s c).
Proof. reflexivity. Qed.

Lemma seq_after (r2 : Regex.re) (x : string) (W : list Regex.way) :
  flat_map (fun w : Regex.way =>
              let '(m1, rest1, c1) := w in
              map (Regex.after m1) (Regex.ways r2 rest1 c1))
           (map (Regex.after x) W)
  = map (Regex.after x)
        (flat_map (fun w : Regex.way =>
                     let '(m1, rest1, c1) := w in
                     map (Regex.after m1) (Regex.ways r2 rest1 c1))
                  W).
Proof.
  induction W as [|[[m1 rest1] c1] W IH]; [reflexivity|].
  cbn [map flat_map Regex.after]. rewrite map_app, IH. f_equal.
  rewrite map_map. apply map_ext. intros [[m2 rest2] c2].
  cbn [Regex.after]. now rewrite append_assoc.
Qed.

(** The first way of a sequence continues a way of its first part by the
    first way of its second part. *)
Lemma ways_seq_head (r1 r2 : Regex.re) (s : string) (c : Regex.caps)
    (w : Regex.way) (l : list Regex.way) :
  Regex.ways (Regex.Seq r1 r2) s c = w :: l ->
  exists m1 mid c1 w2 l2,
    In (m1, mid, c1) (Regex.ways r1 s c)
    /\ Regex.ways r2 mid c1 = w2 :: l2
    /\ w = Regex.after m1 w2.
Proof.
  cbn [Regex.ways]. generalize (Regex.ways r1 s c). intros W.
  induction W as [|[[m1 mid] c1] W IH]; cbn [flat_map]; intros H;
    [discriminate|].
  destruct (Regex.ways r2 mid c1) as [|w2 l2] eqn:E.
  - cbn [map app] in H. destruct (IH H) as (m & md & c' & w' & l' & Hin & E' & Ew).
    exists m, md, c', w', l'. split; [now right | now split].
  - cbn [map app] in H. injection H as <- _.
    exists m1, mid, c1, w2, l2. split; [now left | now split].
Qed.

Lemma solid_end_split (s : string) :
  Parsed.solid_end s = true -> s <> "" ->
  exists ws x t,
    s = ws ++ String x t /\ Spec.lang Regex.spaces ws
    /\ JS.is_space x = false.
Proof.
  induction s as [|a s IH]; intros H N; [congruence|].
  destruct (JS.is_space a) eqn:Ha.
  - cbn [Parsed.solid_end] in H.
    destruct s as [|b s]; [rewrite Ha in H; discriminate H|].
    destruct (IH H ltac:(discriminate)) as (ws & x & t & E & L & Hx).
    exists (String a ws), x, t. split; [cbn [append]; now rewrite E|].
    split; [|exact Hx].
    change (String a ws) with (String a "" ++ ws). unfold Regex.spaces.
    constructor; [now constructor | exact L].
  - exists "", a, s. split; [reflexivity|]. split; [constructor | exact Ha].
Qed.

Lemma title_ways_some (s : string) (c : Regex.caps) :
  Parsed.solid_end s = true -> s <> "" -> Regex.ways Parsed.title_re s c <> [].
Proof.
  intros H N.
  destruct (solid_end_split s H N) as (ws & x & t & E & L & Hx).
  assert (L2 : Spec.lang Parsed.title_re (ws ++ String x "")).
  { unfold Parsed.title_re. constructor; [exact L|]. constructor.
    unfold Regex.plus. change (String x "") with (String x "" ++ "").
    constructor; [|constructor]. constructor. now apply solid_is_dot. }
  destruct (ways_complete _ _ L2 t c) as [c' Hin].
  replace ((ws ++ String x "") ++ t) with s in Hin
    by (rewrite E, append_assoc; reflexivity).
  intros E0. rewrite E0 in Hin. destruct Hin.
Qed.

(** After the dash the white space is skipped, and the title starts at the
    first character that is none, when the text does not end with white
    space. *)
Lemma title_head : forall (s : string) (c : Regex.caps) w l,
  Parsed.solid_end s = true ->
  Regex.ways Parsed.title_re s c = w :: l ->
  exists m rest a v,
    w = (m, rest, (3%nat, String a v) :: c) /\ JS.is_space a = false.
Proof.
  induction s as [|a s IH]; intros c w l H E; [discriminate E|].
  destruct (JS.is_space a) eqn:Ha.
  - assert (Hs : Parsed.solid_end s = true /\ s <> "").
    { cbn [Parsed.solid_end] in H.
      destruct s; [rewrite Ha in H; discriminate H|]. split; [exact H | discriminate]. }
    destruct Hs as [Hs Ns].
    unfold Parsed.title_re in E. rewrite ways_seq in E.
    rewrite (ways_spaces_cons a s c Ha), flat_map_app, seq_after in E.
    rewrite <- ways_seq in E. fold Parsed.title_re in E.
    pose proof (title_ways_some s c Hs Ns) as N.
    destruct (Regex.ways Parsed.title_re s c) as [|w' l'] eqn:E'; [congruence|].
    cbn [map app] in E. injection E as <- _.
    destruct (IH c w' l' Hs E') as (m & rest & x & v & -> & Hx).
    exists (String a m), rest, x, v. split; [reflexivity | exact Hx].
  - apply ways_seq_head in E.
    destruct E as (m1 & mid & c1 & w2 & l2 & Hin & E2 & ->).
    rewrite (ways_spaces_none a s c Ha) in Hin.
    destruct Hin as [Hin|[]]. injection Hin as <- <- <-.
    assert (Hin : In w2 (Regex.ways (Regex.Group 3 (Regex.plus Regex.dot))
                           (String a s) c)) by (rewrite E2; now left).
    destruct w2 as [[m rest] c'].
    apply ways_group_inv in Hin. destruct Hin as [c0 [-> Hin]].
    pose proof (fun Hg => ways_no_groups _ _ _ _ _ _ Hg Hin) as G.
    specialize (G eq_refl). subst c0.
    apply ways_sound in Hin. destruct Hin as [Es [L _]].
    apply lang_plus_class in L. destruct L as [Nm _].
    destruct m as [|x m]; [congruence|].
    cbn [append] in Es. injection Es as <- _.
    exists (String a m), rest, a, m. split; [reflexivity | exact Ha].
Qed.

Lemma exec_head_inv (r : Regex.re) : forall s m c,
  Regex.exec r s = Some (m, c) ->
  exists pre s' rest l,
    s = pre ++ s' /\ Regex.ways r s' [] = (m, rest, c) :: l.
Proof.
  induction s as [|x s IH]; intros m c H; cbn [Regex.exec] in H.
  - destruct (Regex.ways r "" []) as [|[[m0 rest0] c0] l] eqn:E;
      [discriminate|].
    injection H as -> ->. now exists "", "", rest0, l.
  - destruct (Regex.ways r (String x s) []) as [|[[m0 rest0] c0] l] eqn:E.
    + destruct (IH m c H) as (pre & s' & rest & l' & Es & E').
      exists (String x pre), s', rest, l'. split; [cbn; now rewrite Es | exact E'].
    + injection H as -> ->. now exists "", (String x s), rest0, l.
Qed.

Lemma after_caps (m1 : string) (w : Regex.way) :
  snd (Regex.after m1 w) = snd w.
Proof. destruct w as [[m rest] c]. reflexivity. Qed.

(** The title of a trimmed course listing starts with a character that is
    not white space. *)
Lemma courseListing_title (listing whole : string) (c : Regex.caps) :
  Parsed.solid_end listing = true ->
  Regex.exec Parser.courseListing_re listing = Some (whole, c) ->
  exists a v, Regex.group 3 c = Some (String a v) /\ JS.is_space a = false.
Proof.
  intros Hsolid H.
  apply exec_head_inv in H. destruct H as (pre & s0 & rest & l & Es & E).
  subst listing. apply solid_end_suffix in Hsolid.
  unfold Parser.courseListing_re, Regex.seqs in E.
  fold Parsed.title_re in E.
  assert (Hc : exists s' c' w' l',
             Parsed.solid_end s' = true
             /\ Regex.ways Parsed.title_re s' c' = w' :: l'
             /\ c = snd w').
  { repeat match type of E with
           | Regex.ways (Regex.Seq _ Parsed.title_re) _ _ = _ => fail 1
           | Regex.ways (Regex.Seq _ _) _ _ = _ =>
               let m1 := fresh "m" in
               let mid := fresh "mid" in
               let c1 := fresh "c" in
               let w2 := fresh "w" in
               let l2 := fresh "l" in
               let Hin := fresh "Hin" in
               let Ew := fresh "Ew" in
               apply ways_seq_head in E;
               destruct E as (m1 & mid & c1 & w2 & l2 & Hin & E & Ew);
               apply ways_sound in Hin; destruct Hin as [Hin _];
               rewrite Hin in Hsolid; apply solid_end_suffix in Hsolid
           end.
    apply ways_seq_head in E.
    destruct E as (mz & midz & cz & wz & lz & Hz & E & Ez).
    apply ways_sound in Hz. destruct Hz as [Hz _].
    rewrite Hz in Hsolid. apply solid_end_suffix in Hsolid.
    exists midz, cz, wz, lz. split; [exact Hsolid|]. split; [exact E|].
    repeat match goal with
           | H : _ = Regex.after _ _ |- _ =>
               apply (f_equal snd) in H; rewrite after_caps in H;
               cbn [snd] in H
           end.
    congruence. }
  destruct Hc as (s' & c' & w' & l' & Hs' & E' & ->).
  destruct (title_head s' c' w' l' Hs' E') as (m & rest' & a & v & -> & Ha).
  exists a, v. split; [reflexivity | exact Ha].
Qed.

Section RowParser.

Variable date_parse : string -> option string.

Lemma courseListing_groups (listing whole : string) (c : Regex.caps) :
  Regex.exec Parser.courseListing_re listing = Some (whole, c) ->
  exists letters digits title,
    Regex.group 1 c = Some letters /\ Regex.group 2 c = Some digits
    /\ Regex.group 3 c = Some title
    /\ letters <> ""
    /\ Escape.count_if (fun a => negb (JS.is_upper a)) letters = 0%nat
    /\ digits <> "" /\ JS.all_digits digits = true.
Proof.
  intros H.
  destruct (exec_group _ _ _ _ 1%nat H eq_refl) as [v1 [r1 [E1 [I1 L1]]]].
  destruct (exec_group _ _ _ _ 2%nat H eq_refl) as [v2 [r2 [E2 [I2 L2]]]].
  destruct (exec_group _ _ _ _ 3%nat H eq_refl) as [v3 [r3 [E3 _]]].
  exists v1, v2, v3.
  simpl in I1, I2.
  repeat (destruct I1 as [I1|I1];
          [first [discriminate I1 | injection I1 as <-]|]);
    try destruct I1.
  repeat (destruct I2 as [I2|I2];
          [first [discriminate I2 | injection I2 as <-]|]);
    try destruct I2.
  destruct (lang_plus_class _ _ L1) as [N1 U1].
  destruct (lang_plus_class _ _ L2) as [N2 U2].
  repeat split; try assumption. now apply digits_all.
Qed.

Lemma parseCourseRow_shape (row headers : Parser.Row)
    (st : option StudentInfo) :
  exists c,
    Parser.parseCourseRow date_parse row headers st = Some c
    /\ (code c = "" \/ Parsed.code_shape (code c))
    /\ (forall m, In m (meetings c) -> Parsed.complete m)
    /\ (code c <> "" -> exists n, name c = Some n /\ n <> "").
Proof.
  unfold Parser.parseCourseRow.
  match goal with
  | |- context [Parser.parseMeetingPatterns ?p] =>
      destruct (parseMeetingPatterns_total p) as [ms Hms]; rewrite Hms
  end.
  destruct (Parser.cell row 1) as [[|a listing]|].
  1,3: eexists; split; [reflexivity|]; cbn [code meetings name];
       split; [now left|]; split; [|congruence];
       intros m Hm; eapply parseMeetingPatterns_complete; eassumption.
  destruct (Regex.exec Parser.courseListing_re (JS.trim (String a listing)))
    as [[whole c]|] eqn:E.
  - destruct (courseListing_groups _ _ _ E)
      as [letters [digits [title [G1 [G2 [G3 [N1 [U1 [N2 D2]]]]]]]]].
    destruct (courseListing_title _ _ _ (solid_end_trimEnd _) E)
      as [x [v [G3' Hx]]].
    eexists; split; [reflexivity|]; cbn [code meetings name].
    split; [|split].
    + right. exists letters, digits. rewrite G1, G2. cbn [Calendar.show].
      now repeat split.
    + intros m Hm. eapply parseMeetingPatterns_complete; eassumption.
    + intros _. rewrite G3'. cbn [Calendar.show]. eexists.
      split; [reflexivity | now apply trim_solid_start].
  - eexists; split; [reflexivity|]; cbn [code meetings name].
    split; [now left|]; split; [|congruence].
    intros m Hm. eapply parseMeetingPatterns_complete; eassumption.
Qed.

Lemma parse_row_shape (row headers : Parser.Row) (st : option StudentInfo) :
  exists st' cs,
    Parser.parse_row date_parse row headers st = Some (st', cs)
    /\ forall c, In c cs ->
         Parsed.code_shape (code c)
         /\ (forall m, In m (meetings c) -> Parsed.complete m)
         /\ exists n, name c = Some n /\ n <> "".
Proof.
  unfold Parser.parse_row.
  destruct row as [|c0 row]; [exists st, []; split; [reflexivity|]; intros ? []|].
  set (r := c0 :: row). set (st1 := Parser.row_student r st).
  destruct (Parser.cell r 1) as [[|a v]|];
    try (exists st1, []; split; [reflexivity|]; intros ? []).
  destruct (JS.includes (String a v) "_V ");
    [|exists st1, []; split; [reflexivity|]; intros ? []].
  destruct (parseCourseRow_shape r headers st1) as [c [-> [Hc [Hm Hn]]]].
  destruct (code c) as [|b cd] eqn:Ec.
  - exists st1, []. split; [reflexivity|]. intros ? [].
  - exists st1, [c]. split; [reflexivity|].
    intros c' [<-|[]]. rewrite Ec.
    destruct Hc as [Hc|Hc]; [discriminate|].
    split; [exact Hc|]. split; [exact Hm|].
    apply Hn. discriminate.
Qed.

Lemma parse_rows_shape (headers : Parser.Row) (rows : list Parser.Row) :
  forall st,
  exists st' cs,
    Parser.parse_rows date_parse rows headers st = Some (st', cs)
    /\ forall c, In c cs ->
         Parsed.code_shape (code c)
         /\ (forall m, In m (meetings c) -> Parsed.complete m)
         /\ exists n, name c = Some n /\ n <> "".
Proof.
  induction rows as [|row rows IH]; intros st; cbn [Parser.parse_rows].
  - exists st, []. split; [reflexivity|]. intros ? [].
  - destruct (parse_row_shape row headers st) as [st1 [cs1 [-> H1]]].
    destruct (IH st1) as [st2 [cs2 [-> H2]]].
    exists st2, (cs1 ++ cs2)%list. split; [reflexivity|].
    intros c Hin. apply in_app_or in Hin. destruct Hin; auto.
Qed.

Lemma parseExcel_cases (grid : list Parser.Row) :
  ((List.length grid < 7)%nat
   /\ Parser.parseExcel date_parse grid = Parser.Failed (Some Parsed.short_file))
  \/ ((7 <= List.length grid)%nat
      /\ Parser.validateHeaders (nth 5 grid []) = false
      /\ Parser.parseExcel date_parse grid
         = Parser.Failed (Some Parsed.wrong_format))
  \/ ((7 <= List.length grid)%nat
      /\ Parser.validateHeaders (nth 5 grid []) = true
      /\ exists cs,
           Parser.parseExcel date_parse grid = Parser.Courses cs
           /\ forall c, In c cs ->
                Parsed.code_shape (code c)
                /\ (forall m, In m (meetings c) -> Parsed.complete m)
                /\ exists n, name c = Some n /\ n <> "").
Proof.
  unfold Parser.parseExcel, Parser.dataStartRow, Parser.headerRow.
  destruct (Nat.ltb_spec (List.length grid) 7) as [Hl|Hl].
  - left. split; [exact Hl | reflexivity].
  - right. change (6 - 1)%nat with 5%nat. change (7 - 1)%nat with 6%nat.
    destruct (Parser.validateHeaders (nth 5 grid [])) eqn:Ev; cbn [negb].
    + right. split; [exact Hl|]. split; [reflexivity|].
      destruct (parse_rows_shape (nth 5 grid []) (skipn 6 grid) None)
        as [st' [cs [-> H]]].
      exists cs. split; [reflexivity | exact H].
    + left. split; [exact Hl|]. split; reflexivity.
Qed.

End RowParser.

(** X13: on a grid of text cells parseExcel fails in two ways only, each with
    its own message: fewer than seven rows, or a sixth row that is not the
    header row; otherwise it returns courses, and no row makes it fail. *)
Theorem parseExcel_outcomes (date_parse : string -> option string)
    (grid : list Parser.Row) :
  ((List.length grid < 7)%nat ->
   Parser.parseExcel date_parse grid = Parser.Failed (Some Parsed.short_file))
  /\ ((7 <= List.length grid)%nat ->
      Parser.validateHeaders (nth 5 grid []) = false ->
      Parser.parseExcel date_parse grid
      = Parser.Failed (Some Parsed.wrong_format))
  /\ ((7 <= List.length grid)%nat ->
      Parser.validateHeaders (nth 5 grid []) = true ->
      exists cs, Parser.parseExcel date_parse grid = Parser.Courses cs)
  /\ Parser.parseExcel date_parse grid <> Parser.Failed None.
Proof.
  destruct (parseExcel_cases date_parse grid)
    as [[Hl E]|[[Hl [Ev E]]|[Hl [Ev [cs [E _]]]]]].
  - split; [intros _; exact E|]. split; [intros; lia|].
    split; [intros; lia|]. rewrite E. discriminate.
  - split; [intros; lia|]. split; [intros; exact E|].
    split; [intros; congruence|]. rewrite E. discriminate.
  - split; [intros; lia|]. split; [intros; congruence|].
    split; [intros; now exists cs|]. rewrite E. discriminate.
Qed.

Lemma parseExcel_outcomes_witness :
  exists cs, Parser.parseExcel Samples.iso_only Samples.grid = Parser.Courses cs.
Proof.
  apply (proj1 (proj2 (proj2 (parseExcel_outcomes Samples.iso_only Samples.grid)))).
  - vm_compute. lia.
  - vm_compute. reflexivity.
Defined.

(** X14: every course parseExcel returns has a code made of capital letters,
    a space and digits, and a name that is not empty; each of its meetings
    holds both dates in the form YYYY-MM-DD and both times. *)
Theorem parsed_course_shape (date_parse : string -> option string)
    (grid : list Parser.Row) (cs : list Course) (c : Course) :
  Parser.parseExcel date_parse grid = Parser.Courses cs -> In c cs ->
  Parsed.code_shape (code c)
  /\ (exists n, name c = Some n /\ n <> "")
  /\ forall m, In m (meetings c) -> Parsed.complete m.
Proof.
  intros H Hin.
  destruct (parseExcel_cases date_parse grid)
    as [[_ E]|[[_ [_ E]]|[_ [_ [cs' [E Hs]]]]]]; try congruence.
  assert (cs' = cs) by congruence. subst cs'.
  destruct (Hs c Hin) as [Hc [Hm Hn]].
  split; [exact Hc|]. split; assumption.
Qed.

Lemma parsed_course_shape_witness :
  Parsed.code_shape "COMP 101"
  /\ (exists n, Some "Introduction to Computing" = Some n /\ n <> "")
  /\ forall m,
       In m [ {| startDate := Some "2025-09-02"; endDate := Some "2025-12-04";
                 days := [MO; WE; FR]; startTime := Some "09:00";
                 endTime := Some "10:00";
                 location := Some "UBCV | Building | Floor 1 | Room 101" |} ] ->
       Parsed.complete m.
Proof.
  refine (parsed_course_shape Samples.iso_only Samples.grid Parsed.sample
            (nth 0 Parsed.sample Examples.full_year_course) _ _).
  - vm_compute. reflexivity.
  - vm_compute. now left.
Defined.

(** X15: the calendar made from the courses parseExcel returns holds one
    event for each meeting on whose line a day name was found, and each of
    these events has its recurrence rule. *)
Theorem parsed_courses_calendar {zone : JSDate.Zone}
    (date_parse : string -> option string)
    (grid : list Parser.Row) (cs : list Course) (clock : Calendar.Clock) :
  Parser.parseExcel date_parse grid = Parser.Courses cs ->
  let lines := Calendar.generated_lines clock cs in
  let n := List.length (filter Text.has_days (Spec.all_meetings cs)) in
  Text.count_prefix "BEGIN:VEVENT" lines = n
  /\ Text.count_prefix "END:VEVENT" lines = n
  /\ Text.count_prefix "RRULE:" lines = (2 + n)%nat.
Proof.
  intros H lines n.
  assert (C : forall m, In m (Spec.all_meetings cs) -> Parsed.complete m).
  { intros m Hm. unfold Spec.all_meetings in Hm.
    apply in_flat_map in Hm. destruct Hm as [c [Hc Hm]].
    destruct (parseExcel_cases date_parse grid)
      as [[_ E]|[[_ [_ E]]|[_ [_ [cs' [E Hs]]]]]]; try congruence.
    assert (cs' = cs) by congruence. subst cs'.
    now apply (Hs c Hc). }
  assert (F : forall g : Meeting -> bool,
             (forall m, Parsed.complete m -> g m = Text.has_days m) ->
             List.length (filter g (Spec.all_meetings cs)) = n).
  { intros g Hg. unfold n. f_equal. apply filter_ext_in.
    intros m Hm. apply Hg. now apply C. }
  unfold lines. repeat split.
  - rewrite (generated_count "BEGIN:VEVENT" (fun _ => true));
      [|intros; apply event_lines_required; cbn; tauto | reflexivity].
    cbn [Nat.add]. change (Text.count_prefix "BEGIN:VEVENT" Calendar.header_lines) with 0%nat.
    apply F. intros m Hm. rewrite andb_true_r. apply (complete_serialized m Hm).
  - rewrite (generated_count "END:VEVENT" (fun _ => true));
      [|intros; apply event_lines_required; cbn; tauto | reflexivity].
    change (Text.count_prefix "END:VEVENT" Calendar.header_lines) with 0%nat.
    apply F. intros m Hm. rewrite andb_true_r. apply (complete_serialized m Hm).
  - rewrite (generated_count "RRULE:" (fun m => JS.truthy (endDate m)));
      [| |reflexivity].
    + change (Text.count_prefix "RRULE:" Calendar.header_lines) with 2%nat.
      f_equal. apply F. intros m Hm. apply (complete_serialized m Hm).
    + intros now ts c m ds de Hs. rewrite event_lines_rrule.
      cbn [rrule Calendar.recurring_event]. now rewrite rrule_truthy.
Qed.

Lemma parsed_courses_calendar_witness :
  Text.count_prefix "BEGIN:VEVENT"
    (Calendar.generated_lines (zone := Zones.utc)
        Samples.same_millisecond Parsed.sample) = 2%nat
  /\ Text.count_prefix "END:VEVENT"
       (Calendar.generated_lines (zone := Zones.utc)
           Samples.same_millisecond Parsed.sample)
     = 2%nat
  /\ Text.count_prefix "RRULE:"
       (Calendar.generated_lines (zone := Zones.utc)
           Samples.same_millisecond Parsed.sample)
     = 4%nat.
Proof.
  refine (parsed_courses_calendar (zone := Zones.utc)
      Samples.iso_only Samples.grid Parsed.sample
            Samples.same_millisecond _).
  vm_compute. reflexivity.
Defined.

(** ** The course list *)

Lemma time_check_all :
  forallb (fun h => forallb (Display.time_check h) (Spec.zrange 0 (Z.to_nat 100)))
          (Spec.zrange 1 12) = true.
Proof. vm_compute. reflexivity. Qed.

(** X16: the course list shows a time read by the parser as it stood in the
    file: for an hour from 1 to 12 and two minute digits, formatTime gives
    back the hour, the minutes and AM or PM for a.m. or p.m. *)
Theorem formatTime_convertTo24Hour (h m : Z) (pm : bool) :
  1 <= h <= 12 -> 0 <= m <= 99 ->
  exists t,
    Parser.convertTo24Hour (JS.nat_string h ++ ":" ++ Spec.two_digits m)
      (if pm then "p.m." else "a.m.") = Some t
    /\ Display.formatTime (Some t)
       = Some (JS.nat_string h ++ ":" ++ Spec.two_digits m ++ " "
               ++ (if pm then "PM" else "AM")).
Proof.
  intros Hh Hm.
  pose proof (forallb_zrange _ _ _ time_check_all h ltac:(lia)) as H1.
  cbv beta in H1.
  pose proof (forallb_zrange _ _ _ H1 m ltac:(lia)) as H2.
  unfold Display.time_check in H2. apply andb_prop in H2.
  destruct H2 as [Ha Hp].
  destruct pm.
  - destruct (Parser.convertTo24Hour _ "p.m.") as [t|]; [|discriminate].
    exists t. split; [reflexivity|].
    destruct (Display.formatTime (Some t)) as [r|]; [|discriminate].
    apply String.eqb_eq in Hp. now subst r.
  - destruct (Parser.convertTo24Hour _ "a.m.") as [t|]; [|discriminate].
    exists t. split; [reflexivity|].
    destruct (Display.formatTime (Some t)) as [r|]; [|discriminate].
    apply String.eqb_eq in Ha. now subst r.
Qed.

Lemma formatTime_convertTo24Hour_witness :
  exists t,
    Parser.convertTo24Hour "12:05" "a.m." = Some t
    /\ Display.formatTime (Some t) = Some "12:05 AM".
Proof.
  exact (formatTime_convertTo24Hour 12 5 false ltac:(lia) ltac:(lia)).
Defined.

Lemma sublists_filter {A B : Type} (g : A -> B) (f : A -> bool) (l : list A) :
  In (map g (filter f l)) (Display.sublists (map g l)).
Proof.
  induction l as [|x l IH]; [now left|].
  cbn [filter map Display.sublists]. apply in_or_app.
  destruct (f x).
  - left. cbn [map]. now apply in_map.
  - now right.
Qed.

Lemma days_eqb_eq (a : list Weekday) : forall b,
  Display.days_eqb a b = true -> a = b.
Proof.
  induction a as [|x a IH]; intros [|y b] H; try discriminate; [reflexivity|].
  cbn [Display.days_eqb] in H. apply andb_prop in H. destruct H as [Hx Ha].
  f_equal; [|now apply IH].
  destruct x, y; try reflexivity; discriminate Hx.
Qed.

Lemma days_checked :
  forallb Display.days_check (Display.sublists Display.week) = true.
Proof. vm_compute. reflexivity. Qed.

(** X17: parseDays returns the days whose names occur in the text, in the
    order of the week and each once, whatever their order in the text; and
    it reads back every such day set from the text the course list shows
    for it. *)
Theorem parseDays_days_text :
  (forall daysStr,
      In (Parser.parseDays daysStr) (Display.sublists Display.week))
  /\ (forall daysStr d,
         In d (Parser.parseDays daysStr)
         <-> Spec.substring_of (Display.dayNames d) daysStr)
  /\ (forall ds,
         In ds (Display.sublists Display.week) ->
         Parser.parseDays (Display.days_text ds) = ds).
Proof.
  split; [|split].
  - intros s. unfold Parser.parseDays, Display.week.
    destruct s as [|a s]; [|apply sublists_filter].
    vm_compute. tauto.
  - intros s d. rewrite <- includes_spec. unfold Parser.parseDays.
    destruct s as [|a s].
    + split; [intros []|]. destruct d; discriminate.
    + set (t := String a s). rewrite in_map_iff. split.
      * intros [[n d'] [Hd Hf]]. apply filter_In in Hf.
        destruct Hf as [Hin Hinc]. cbn [snd fst] in Hd, Hinc. subst d'.
        unfold Parser.dayNames in Hin.
        repeat (destruct Hin as [Hin|Hin];
                [injection Hin as <- <-; exact Hinc|]).
        destruct Hin.
      * intros H. exists (Display.dayNames d, d). split; [reflexivity|].
        apply filter_In. split; [|exact H].
        destruct d; cbn; tauto.
  - intros ds Hin.
    apply days_eqb_eq.
    exact (proj1 (forallb_forall Display.days_check
                    (Display.sublists Display.week)) days_checked ds Hin).
Qed.

Lemma parseDays_days_text_witness :
  Parser.parseDays (Display.days_text [MO; WE; FR]) = [MO; WE; FR].
Proof.
  apply (proj2 (proj2 parseDays_days_text)).
  unfold Display.week. cbn [Parser.dayNames map snd Display.sublists app].
  repeat (first [left; reflexivity | right]).
Defined.

(** *** The course map *)

Lemma has_app (m1 m2 : Display.CourseMap) (k : string) :
  Display.has (m1 ++ m2)%list k = Display.has m1 k || Display.has m2 k.
Proof. unfold Display.has. apply existsb_app. Qed.

Lemma has_In (m : Display.CourseMap) (k : string) :
  Display.has m k = true <-> In k (map fst m).
Proof.
  unfold Display.has. rewrite existsb_exists, in_map_iff. split.
  - intros [e [Hin He]]. apply String.eqb_eq in He. now exists e.
  - intros [e [He Hin]]. exists e. split; [exact Hin|]. now apply String.eqb_eq.
Qed.

Lemma NoDup_snoc {A : Type} (l : list A) (x : A) :
  NoDup l -> ~ In x l -> NoDup (l ++ [x])%list.
Proof.
  induction l as [|y l IH]; intros Hnd Hx; cbn [app].
  - constructor; [intros []|constructor].
  - inversion Hnd as [|z l' Hy Hl]; subst. constructor.
    + intros Hin. apply in_app_or in Hin. destruct Hin as [Hin|[->|[]]].
      * now apply Hy.
      * apply Hx. now left.
    + apply IH; [exact Hl|]. intros Hin. apply Hx. now right.
Qed.

Lemma keep_first_inv (m : Display.CourseMap) (done : list Course) (c : Course) :
  Display.first_of_code m done ->
  Display.first_of_code (Display.keep_first m c) (done ++ [c])%list.
Proof.
  intros [Hnd [Hm Hd]]. unfold Display.keep_first.
  destruct (Display.has m (code c)) eqn:Eh.
  - apply has_In in Eh. split; [exact Hnd|]. split.
    + intros k c0 Hin. destruct (Hm k c0 Hin) as [Hk [pre [post [E Hpre]]]].
      split; [exact Hk|]. exists pre, (post ++ [c])%list.
      split; [|exact Hpre]. rewrite E, <- app_assoc. reflexivity.
    + intros c0 Hin. apply in_app_or in Hin.
      destruct Hin as [Hin|[<-|[]]]; [now apply Hd | exact Eh].
  - assert (Hk : ~ In (code c) (map fst m)).
    { intros Hin. apply has_In in Hin. congruence. }
    split; [|split].
    + rewrite map_app. cbn [map fst].
      now apply NoDup_snoc.
    + intros k c0 Hin. apply in_app_or in Hin. destruct Hin as [Hin|Hin].
      * destruct (Hm k c0 Hin) as [Hk0 [pre [post [E Hpre]]]].
        split; [exact Hk0|]. exists pre, (post ++ [c])%list.
        split; [|exact Hpre]. rewrite E, <- app_assoc. reflexivity.
      * destruct Hin as [Hin|[]]. injection Hin as <- <-.
        split; [reflexivity|]. exists done, []. split; [reflexivity|].
        intros c' Hc' Heq. apply Hk. rewrite <- Heq. now apply Hd.
    + intros c0 Hin. rewrite map_app. apply in_or_app.
      apply in_app_or in Hin. destruct Hin as [Hin|[<-|[]]].
      * left. now apply Hd.
      * right. now left.
Qed.

Lemma fold_keep_first (l : list Course) : forall m done,
  Display.first_of_code m done ->
  Display.first_of_code (fold_left Display.keep_first l m) (done ++ l)%list.
Proof.
  induction l as [|c l IH]; intros m done H; cbn [fold_left].
  - now rewrite app_nil_r.
  - replace (done ++ c :: l)%list with ((done ++ [c]) ++ l)%list
      by (rewrite <- app_assoc; reflexivity).
    apply IH. now apply keep_first_inv.
Qed.

Lemma courseMap_first_of_code (courses : list Course) :
  Display.first_of_code (Display.courseMap courses) courses.
Proof.
  apply (fold_keep_first courses [] []).
  split; [constructor|]. split; [intros ? ? []|intros ? []].
Qed.

Lemma pick_In (s : list nat) (m : Display.CourseMap) : forall index c,
  In c (Display.pick s index m) -> exists k, In (k, c) m.
Proof.
  induction m as [|[k0 c0] m IH]; intros index c H; cbn [Display.pick] in H.
  - destruct H.
  - destruct (Display.selected s index).
    + destruct H as [<-|H]; [exists k0; now left|].
      destruct (IH _ _ H) as [k Hk]. exists k. now right.
    + destruct (IH _ _ H) as [k Hk]. exists k. now right.
Qed.

Lemma pick_NoDup (s : list nat) (m : Display.CourseMap) : forall index,
  NoDup (map fst m) -> (forall k c, In (k, c) m -> k = code c) ->
  NoDup (map code (Display.pick s index m)).
Proof.
  induction m as [|[k0 c0] m IH]; intros index Hnd Hk; cbn [Display.pick].
  - constructor.
  - cbn [map fst] in Hnd. inversion Hnd as [|x l Hx Hl]; subst.
    assert (Hk' : forall k c, In (k, c) m -> k = code c)
      by (intros; apply Hk; now right).
    destruct (Display.selected s index); [|now apply IH].
    cbn [map]. constructor; [|now apply IH].
    intros Hin. apply in_map_iff in Hin. destruct Hin as [c [Ec Hc]].
    destruct (pick_In _ _ _ _ Hc) as [k Hkc].
    apply Hx. rewrite (Hk k0 c0 (or_introl eq_refl)), <- Ec.
    rewrite <- (Hk' k c Hkc). apply in_map_iff. now exists (k, c).
Qed.

(** X18: the courses that are exported hold each code once: of the courses
    of the file that share a code (the sections of one course), only the
    first can be exported, whatever is selected. *)
Theorem getSelectedCourses_first_of_code (courses : list Course)
    (s : list nat) :
  NoDup (map code (Display.getSelectedCourses courses s))
  /\ forall c, In c (Display.getSelectedCourses courses s) ->
       exists pre post,
         courses = (pre ++ c :: post)%list
         /\ forall c', In c' pre -> code c' <> code c.
Proof.
  destruct (courseMap_first_of_code courses) as [Hnd [Hm _]].
  unfold Display.getSelectedCourses. split.
  - apply pick_NoDup; [exact Hnd|]. intros k c Hin. apply (Hm k c Hin).
  - intros c Hin. destruct (pick_In _ _ _ _ Hin) as [k Hk].
    apply (Hm k c Hk).
Qed.

Lemma getSelectedCourses_first_of_code_witness :
  Display.getSelectedCourses Display.sections [0%nat; 1%nat]
  = [Samples.bare_course [Samples.lecture]]
  /\ exists pre post,
       Display.sections
       = (pre ++ Samples.bare_course [Samples.lecture] :: post)%list
       /\ forall c', In c' pre ->
            code c' <> code (Samples.bare_course [Samples.lecture]).
Proof.
  split; [reflexivity|].
  apply (proj2 (getSelectedCourses_first_of_code Display.sections
                  [0%nat; 1%nat])).
  now left.
Defined.

(** *** The boxes of the list *)

Lemma selected_seq (n i : nat) :
  Display.selected (seq 0 n) i = (i <? n)%nat.
Proof.
  unfold Display.selected.
  destruct (Nat.ltb_spec i n) as [H|H].
  - apply existsb_exists. exists i. split; [|apply Nat.eqb_refl].
    apply in_seq. lia.
  - destruct (existsb (Nat.eqb i) (seq 0 n)) eqn:E; [|reflexivity].
    apply existsb_exists in E. destruct E as [j [Hj Ej]].
    apply Nat.eqb_eq in Ej. subst j. apply in_seq in Hj. lia.
Qed.

Lemma show_entries (l : list Display.Entry) : forall k,
  fold_left Display.show_entry l (seq 0 k, k)
  = (seq 0 (k + List.length l), (k + List.length l)%nat).
Proof.
  induction l as [|e l IH]; intros k; cbn [fold_left List.length].
  - now rewrite Nat.add_0_r.
  - unfold Display.show_entry at 2. cbn [fst snd]. unfold Display.add.
    rewrite selected_seq, Nat.ltb_irrefl.
    change (seq 0 k ++ [k])%list with (seq 0 k ++ [(0 + k)%nat])%list.
    rewrite <- seq_S, IH. f_equal; [f_equal|]; lia.
Qed.

Lemma displayCourses_seq (courses : list Course) :
  Display.displayCourses courses
  = seq 0 (List.length (Display.shown courses)).
Proof.
  unfold Display.displayCourses.
  change ([], 0%nat) with (seq 0 0, 0%nat).
  now rewrite show_entries.
Qed.

Lemma selected_delete (s : list nat) (i j : nat) :
  Display.selected (Display.delete s i) j
  = Display.selected s j && negb (Nat.eqb j i).
Proof.
  unfold Display.selected, Display.delete.
  induction s as [|x s IH]; [reflexivity|].
  cbn [filter existsb].
  destruct (Nat.eqb x i) eqn:Exi; cbn [negb existsb]; rewrite IH.
  - destruct (Nat.eqb j i) eqn:Eji; cbn [negb].
    + now rewrite !andb_false_r.
    + rewrite !andb_true_r. apply Nat.eqb_eq in Exi. subst x.
      now rewrite Eji.
  - destruct (Nat.eqb j x) eqn:Ejx; cbn [orb]; [|reflexivity].
    apply Nat.eqb_eq in Ejx. subst x. now rewrite Exi.
Qed.

Lemma pick_all (s : list nat) (m : Display.CourseMap) : forall index,
  (forall j, (index <= j < index + List.length m)%nat ->
             Display.selected s j = true) ->
  Display.pick s index m = map snd m.
Proof.
  induction m as [|[k c] m IH]; intros index H; [reflexivity|].
  cbn [Display.pick map snd List.length] in *.
  rewrite H by lia. f_equal. apply IH. intros j Hj. apply H. lia.
Qed.

Lemma pick_but_one (s : list nat) (i : nat) (m : Display.CourseMap) :
  forall index,
  (forall j, (index <= j < index + List.length m)%nat ->
             Display.selected s j = negb (Nat.eqb j i)) ->
  (index <= i)%nat ->
  Display.pick s index m
  = (firstn (i - index) (map snd m) ++ skipn (S (i - index)) (map snd m))%list.
Proof.
  induction m as [|[k c] m IH]; intros index H Hi.
  - cbn [map Display.pick]. now rewrite firstn_nil, skipn_nil.
  - cbn [Display.pick map snd List.length] in *.
    rewrite H by lia.
    destruct (Nat.eqb_spec index i) as [->|Hne]; cbn [negb].
    + rewrite Nat.sub_diag. cbn [firstn skipn app].
      apply pick_all. intros j Hj.
      rewrite H by lia. destruct (Nat.eqb_spec j i); [lia | reflexivity].
    + replace (i - index)%nat with (S (i - S index)) by lia.
      cbn [firstn skipn app]. f_equal. apply IH; [|lia].
      intros j Hj. apply H. lia.
Qed.

Lemma fold_place (l : Display.CourseMap) : forall groups t,
  fold_left Display.place l groups t
  = (groups t ++ flat_map (Display.entries_of t) (map snd l))%list.
Proof.
  induction l as [|[k c] l IH]; intros groups t; cbn [fold_left map flat_map snd].
  - now rewrite app_nil_r.
  - rewrite IH. rewrite app_assoc. f_equal.
    unfold Display.place, Display.entries_of, Display.push. cbn [snd].
    destruct (App.determineTerm c), t; cbn;
      rewrite ?app_nil_r; reflexivity.
Qed.

Lemma shown_entries (courses : list Course) :
  Display.shown courses
  = flat_map (fun t => flat_map (Display.entries_of t)
                         (map snd (Display.courseMap courses)))
             Display.termNames.
Proof.
  unfold Display.shown, Display.coursesByTerm.
  apply flat_map_ext. intros t. now rewrite fold_place.
Qed.

Lemma entries_length (cs : list Course) :
  List.length
    (flat_map (fun t => flat_map (Display.entries_of t) cs) Display.termNames)
  = (List.length cs + List.length (filter Display.is_full_year cs))%nat.
Proof.
  unfold Display.termNames. cbn [flat_map]. rewrite app_nil_r, !length_app.
  induction cs as [|c cs IH]; [reflexivity|].
  cbn [flat_map filter List.length]. rewrite !length_app.
  unfold Display.entries_of at 1 3 5 7 9 11. unfold Display.is_full_year at 1.
  destruct (App.determineTerm c); cbn; lia.
Qed.

Lemma shown_length (courses : list Course) :
  List.length (Display.shown courses)
  = (List.length (Display.courseMap courses)
     + List.length (filter Display.is_full_year
                      (map snd (Display.courseMap courses))))%nat.
Proof. now rewrite shown_entries, entries_length, length_map. Qed.

(** X19: the list shows the courses of the course map term by term, in the
    order of the terms and within a term in the order of the file; a
    full-year course is shown twice, under both winter terms, with its
    marker, so that the boxes are as many as the courses and the full-year
    courses together. *)
Theorem shown_by_term (courses : list Course) :
  Display.shown courses
  = flat_map (fun t => flat_map (Display.entries_of t)
                         (map snd (Display.courseMap courses)))
             Display.termNames
  /\ Display.displayCourses courses
     = seq 0 (List.length (Display.shown courses))
  /\ List.length (Display.shown courses)
     = (List.length (Display.courseMap courses)
        + List.length (filter Display.is_full_year
                         (map snd (Display.courseMap courses))))%nat.
Proof.
  split; [apply shown_entries|]. split; [apply displayCourses_seq|].
  apply shown_length.
Qed.

(** X20: right after the list is shown every box is checked, and the export
    holds the whole course map: one course for each code of the file. *)
Theorem displayCourses_selects_all (courses : list Course) :
  Display.getSelectedCourses courses (Display.displayCourses courses)
  = map snd (Display.courseMap courses)
  /\ forall c, In c courses ->
       exists c',
         In c' (Display.getSelectedCourses courses
                  (Display.displayCourses courses))
         /\ code c' = code c.
Proof.
  assert (E : Display.getSelectedCourses courses
                (Display.displayCourses courses)
              = map snd (Display.courseMap courses)).
  { unfold Display.getSelectedCourses. apply pick_all.
    intros j Hj. rewrite displayCourses_seq, selected_seq, shown_length.
    apply Nat.ltb_lt. lia. }
  split; [exact E|].
  intros c Hin. rewrite E.
  destruct (courseMap_first_of_code courses) as [_ [Hm Hd]].
  specialize (Hd c Hin). apply in_map_iff in Hd.
  destruct Hd as [[k c'] [Ek Hk]]. cbn [fst] in Ek. subst k.
  exists c'. split.
  - apply in_map_iff. now exists (code c, c').
  - symmetry. apply (Hm _ _ Hk).
Qed.

Lemma displayCourses_selects_all_witness :
  exists c',
    In c' (Display.getSelectedCourses Display.sections
             (Display.displayCourses Display.sections))
    /\ code c' = code (Samples.bare_course [Samples.tutorial]).
Proof.
  apply (proj2 (displayCourses_selects_all Display.sections)).
  right. now left.
Defined.

(** X21: unchecking the box with index i right after the list is shown
    takes out of the export the i-th course of the course map, which
    follows the order of the file, and no other course; an index past the
    end of the course map takes out nothing. *)
Theorem unchecked_box (courses : list Course) (i : nat) :
  let cm := map snd (Display.courseMap courses) in
  Display.getSelectedCourses courses
    (Display.delete (Display.displayCourses courses) i)
  = (firstn i cm ++ skipn (S i) cm)%list.
Proof.
  cbv zeta. unfold Display.getSelectedCourses.
  rewrite (pick_but_one _ i); [now rewrite Nat.sub_0_r| |lia].
  intros j Hj.
  rewrite selected_delete, displayCourses_seq, selected_seq, shown_length.
  replace (j <? _)%nat with true by (symmetry; apply Nat.ltb_lt; lia).
  reflexivity.
Qed.

(** ** The weekly grid *)

Lemma label_eqb_eq (a b : TermLabel) :
  Display.label_eqb a b = true <-> a = b.
Proof. destruct a, b; cbn; split; congruence. Qed.

Lemma label_eqb_refl (a : TermLabel) : Display.label_eqb a a = true.
Proof. now apply label_eqb_eq. Qed.

Lemma lookup_push (grouped : Grid.Grouped) (t t' : TermLabel) (b : Grid.Block) :
  Grid.lookup (Grid.push grouped t' b) t
  = if Display.label_eqb t t' then (Grid.lookup grouped t ++ [b])%list
    else Grid.lookup grouped t.
Proof.
  induction grouped as [|[k l] g IH]; cbn [Grid.push Grid.lookup].
  - destruct (Display.label_eqb t' t) eqn:E.
    + apply label_eqb_eq in E. subst t'. now rewrite label_eqb_refl.
    + destruct (Display.label_eqb t t') eqn:E'; [|reflexivity].
      apply label_eqb_eq in E'. subst t'. now rewrite label_eqb_refl in E.
  - destruct (Display.label_eqb k t') eqn:Ek; cbn [Grid.lookup].
    + apply label_eqb_eq in Ek. subst k.
      destruct (Display.label_eqb t' t) eqn:E.
      * apply label_eqb_eq in E. subst t'. now rewrite label_eqb_refl.
      * destruct (Display.label_eqb t t') eqn:E'; [|reflexivity].
        apply label_eqb_eq in E'. subst t'. now rewrite label_eqb_refl in E.
    + destruct (Display.label_eqb k t) eqn:E; [|exact IH].
      apply label_eqb_eq in E. subst k.
      destruct (Display.label_eqb t t') eqn:E'; [|reflexivity].
      congruence.
Qed.

Lemma push_keys (grouped : Grid.Grouped) (t : TermLabel) (b : Grid.Block) :
  forall k, In k (map fst (Grid.push grouped t b))
            <-> k = t \/ In k (map fst grouped).
Proof.
  induction grouped as [|[k0 l] g IH]; intros k; cbn [Grid.push map fst In].
  - intuition.
  - destruct (Display.label_eqb k0 t) eqn:E; cbn [map fst In].
    + apply label_eqb_eq in E. subst k0. intuition.
    + rewrite IH. intuition.
Qed.

Lemma push_well_formed (grouped : Grid.Grouped) (t : TermLabel)
    (b : Grid.Block) :
  t <> WinterFullYear ->
  Grid.well_formed grouped -> Grid.well_formed (Grid.push grouped t b).
Proof.
  intros Ht [Hnd [Hw He]]. split; [|split].
  - clear Hw He. induction grouped as [|[k0 l] g IH]; cbn [Grid.push].
    + cbn. constructor; [intros []|constructor].
    + cbn [map fst] in Hnd. inversion Hnd as [|x xs Hx Hxs]; subst.
      destruct (Display.label_eqb k0 t) eqn:E; cbn [map fst].
      * now constructor.
      * constructor; [|now apply IH].
        intros Hin. apply push_keys in Hin. destruct Hin as [->|Hin].
        -- now rewrite label_eqb_refl in E.
        -- now apply Hx.
  - intros Hin. apply push_keys in Hin. destruct Hin as [Hin|Hin].
    + now apply Ht.
    + now apply Hw.
  - clear Hnd Hw. induction grouped as [|[k0 l] g IH]; cbn [Grid.push].
    + intros k l [Hin|[]]. injection Hin as <- <-. discriminate.
    + destruct (Display.label_eqb k0 t); intros k l' [Hin|Hin].
      * injection Hin as <- <-. intros Hl. now apply app_eq_nil in Hl.
      * apply (He k l'). now right.
      * injection Hin as <- <-. apply (He k0 l). now left.
      * exact (IH (fun k1 l1 H1 => He k1 l1 (or_intror H1)) k l' Hin).
Qed.

Lemma group_well_formed (grouped : Grid.Grouped) (c : Course) :
  Grid.well_formed grouped -> Grid.well_formed (Grid.group grouped c).
Proof.
  intros H. unfold Grid.group.
  destruct (CalendarView.determineTerm c);
    repeat (apply push_well_formed; [discriminate|]); exact H.
Qed.

Lemma fold_group (l : list Course) : forall grouped,
  Grid.well_formed grouped ->
  Grid.well_formed (fold_left Grid.group l grouped)
  /\ forall t,
       Grid.lookup (fold_left Grid.group l grouped) t
       = (Grid.lookup grouped t ++ flat_map (Grid.blocks_of t) l)%list.
Proof.
  induction l as [|c l IH]; intros grouped H; cbn [fold_left flat_map].
  - split; [exact H|]. intros t. now rewrite app_nil_r.
  - destruct (IH _ (group_well_formed grouped c H)) as [Hw Hl].
    split; [exact Hw|]. intros t. rewrite Hl, app_assoc. f_equal.
    unfold Grid.group, Grid.blocks_of.
    destruct (CalendarView.determineTerm c); rewrite !lookup_push;
      destruct t; cbn; rewrite ?app_nil_r; reflexivity.
Qed.

Lemma delete_absent (grouped : Grid.Grouped) (t : TermLabel) :
  ~ In t (map fst grouped) -> Grid.delete grouped t = grouped.
Proof.
  unfold Grid.delete. induction grouped as [|[k l] g IH]; intros H;
    [reflexivity|].
  cbn [filter fst]. destruct (Display.label_eqb k t) eqn:E; cbn [negb].
  - apply label_eqb_eq in E. subst k. exfalso. apply H. now left.
  - f_equal. apply IH. intros Hin. apply H. now right.
Qed.

(** X22: the weekly grid has one calendar for each term that has a course,
    none of them empty and none for the full year: a full-year course
    stands in the calendars of both winter terms with its marker, every
    other course in the calendar of its own term, in the order of the
    input; the final removal of the full-year group changes nothing. *)
Theorem groupCoursesByTerm_spec (courses : list Course) :
  Grid.well_formed (Grid.groupCoursesByTerm courses)
  /\ (forall t,
         Grid.lookup (Grid.groupCoursesByTerm courses) t
         = flat_map (Grid.blocks_of t) courses)
  /\ Grid.groupCoursesByTerm courses = fold_left Grid.group courses [].
Proof.
  assert (W0 : Grid.well_formed []).
  { split; [constructor|]. split; [intros []|intros ? ? []]. }
  destruct (fold_group courses [] W0) as [Hw Hl].
  assert (E : Grid.groupCoursesByTerm courses = fold_left Grid.group courses []).
  { unfold Grid.groupCoursesByTerm. apply delete_absent. apply Hw. }
  rewrite E. split; [exact Hw|]. split; [|reflexivity].
  intros t. now rewrite Hl.
Qed.

Lemma groupCoursesByTerm_spec_witness :
  Grid.lookup (Grid.groupCoursesByTerm [Examples.full_year_course])
    WinterTerm2
  = [Grid.full_year Examples.full_year_course "Winter Term 2"].
Proof.
  exact (proj1 (proj2 (groupCoursesByTerm_spec [Examples.full_year_course]))
           WinterTerm2).
Defined.

(** ** Header rows, cell by cell *)

Lemma startsWith_boundary (t : string) : forall a b,
  Headers.word t ->
  JS.startsWith (a ++ String " " b) t = JS.startsWith a t.
Proof.
  induction t as [|c t IH]; intros a b [Hn Hs]; [congruence|].
  cbn [Escape.count_if] in Hs. unfold Headers.is_blank at 1 in Hs.
  destruct (Ascii.eqb c " ") eqn:Ec; [discriminate|]. cbn [Nat.add] in Hs.
  destruct a as [|x a]; cbn [append JS.startsWith].
  - now rewrite Ec.
  - destruct t as [|d t]; [reflexivity|].
    rewrite IH; [reflexivity|]. split; [discriminate | exact Hs].
Qed.

Lemma includes_boundary (t : string) (a b : string) :
  Headers.word t ->
  JS.includes (a ++ String " " b) t = JS.includes a t || JS.includes b t.
Proof.
  intros Hw. induction a as [|x a IH].
  - cbn [append]. pose proof (startsWith_boundary t "" b Hw) as E.
    cbn [append] in E. cbn [JS.includes]. rewrite E.
    destruct t as [|c t]; [destruct Hw; congruence|]. reflexivity.
  - pose proof (startsWith_boundary t (String x a) b Hw) as E.
    cbn [append] in E |- *. cbn [JS.includes]. rewrite E.
    destruct (JS.startsWith (String x a) t); [reflexivity | exact IH].
Qed.

Lemma includes_join (t : string) (cells : list string) :
  Headers.word t ->
  JS.includes (JS.join " " cells) t = existsb (fun c => JS.includes c t) cells.
Proof.
  intros Hw. induction cells as [|x [|y rest] IH].
  - destruct t as [|c t]; [destruct Hw; congruence | reflexivity].
  - cbn [JS.join existsb]. now rewrite orb_false_r.
  - change (JS.join " " (x :: y :: rest))
      with (x ++ String " " (JS.join " " (y :: rest))).
    rewrite includes_boundary by exact Hw. rewrite IH. reflexivity.
Qed.

Lemma toLowerCase_app (a b : string) :
  JS.toLowerCase (a ++ b) = JS.toLowerCase a ++ JS.toLowerCase b.
Proof.
  induction a as [|c a IH]; [reflexivity|].
  cbn [append JS.toLowerCase]. now rewrite IH.
Qed.

Lemma toLowerCase_join (cells : list string) :
  JS.toLowerCase (JS.join " " cells) = JS.join " " (map JS.toLowerCase cells).
Proof.
  induction cells as [|x [|y rest] IH]; [reflexivity | reflexivity |].
  change (JS.join " " (x :: y :: rest))
    with (x ++ String " " (JS.join " " (y :: rest))).
  rewrite toLowerCase_app. cbn [JS.toLowerCase]. rewrite IH. reflexivity.
Qed.

Lemma truthy_cells_In (headers : Parser.Row) (c : string) :
  In c (Parser.truthy_cells headers) <-> In (Some c) headers /\ c <> "".
Proof.
  induction headers as [|h headers IH]; cbn [Parser.truthy_cells In].
  - tauto.
  - destruct h as [[|a s]|]; cbn [In]; rewrite IH; split.
    + intros [H1 H2]. split; [now right | exact H2].
    + intros [[H|H] H2]; [congruence | tauto].
    + intros [<-|[H1 H2]]; [split; [now left | discriminate] | tauto].
    + intros [[H|H] H2]; [left; congruence | tauto].
    + intros [H1 H2]. split; [now right | exact H2].
    + intros [[H|H] H2]; [discriminate | tauto].
Qed.

(** X23: validateHeaders accepts a row exactly when it has at least five
    cells and each of the words drop, credits and grading occurs, in any
    case of letters, inside one of its cells; a word that is split over two
    cells does not count. *)
Theorem validateHeaders_cellwise (headers : Parser.Row) :
  Parser.validateHeaders headers = true <->
  (5 <= List.length headers)%nat /\
  forall t, In t Spec.critical_terms ->
    exists cell, In (Some cell) headers
                 /\ Spec.substring_of t (JS.toLowerCase cell).
Proof.
  assert (W : forall t, In t Spec.critical_terms -> Headers.word t).
  { intros t Ht. unfold Spec.critical_terms in Ht.
    repeat (destruct Ht as [<-|Ht]; [split; [discriminate | reflexivity]|]).
    destruct Ht. }
  assert (E : forall t, In t Spec.critical_terms ->
                JS.includes
                  (JS.toLowerCase (JS.join " " (Parser.truthy_cells headers))) t
                = true
                <-> exists cell, In (Some cell) headers
                                 /\ Spec.substring_of t (JS.toLowerCase cell)).
  { intros t Ht. rewrite toLowerCase_join, includes_join by (now apply W).
    rewrite existsb_exists. split.
    - intros [lc [Hin Hinc]]. apply in_map_iff in Hin.
      destruct Hin as [cell [<- Hcell]]. apply truthy_cells_In in Hcell.
      exists cell. split; [apply Hcell | now apply includes_spec].
    - intros [cell [Hin Hsub]]. exists (JS.toLowerCase cell). split.
      + apply in_map. apply truthy_cells_In. split; [exact Hin|].
        intros ->. destruct Hsub as [a [b Hab]].
        destruct (W t Ht) as [Hn _]. destruct a, t; cbn in Hab; congruence.
      + now apply includes_spec. }
  unfold Parser.validateHeaders.
  destruct (Nat.ltb_spec (List.length headers) 5) as [Hlt|Hge].
  - split; [discriminate | intros [H _]; lia].
  - rewrite forallb_forall. rewrite <- critical_lowered. split.
    + intros H. split; [exact Hge|]. intros t Ht.
      apply E; [exact Ht|].
      apply in_map_iff in Ht. destruct Ht as [h [<- Hh]]. now apply H.
    + intros [_ H] h Hh.
      assert (Hin : In (JS.toLowerCase h)
                      (map JS.toLowerCase Parser.criticalHeaders))
        by now apply in_map.
      apply E; [exact Hin|]. now apply H.
Qed.

Lemma validateHeaders_cellwise_witness :
  Parser.validateHeaders Headers.row = true.
Proof.
  apply (proj2 (validateHeaders_cellwise Headers.row)).
  split; [cbn; lia|].
  intros t Ht. unfold Spec.critical_terms in Ht.
  destruct Ht as [<-|[<-|[<-|[]]]];
    [exists "Drop" | exists "CREDITS" | exists "Grading Basis"];
    (split; [cbn; tauto | apply includes_spec; reflexivity]).
Defined.

(** ** Dates of the course columns *)

Lemma digit_not_blank (a : ascii) :
  JS.is_digit a = true -> Ascii.eqb a " " = false.
Proof.
  destruct a as [[] [] [] [] [] [] [] []]; vm_compute; congruence.
Qed.

Lemma iso_one_field (d : string) :
  Spec.lang Parser.isoDate_re d -> JS.split " " d = [d].
Proof.
  intros L.
  unfold Parser.isoDate_re, Regex.seqs, Regex.lit, Regex.lit_char,
    Regex.digit in *.
  inv_lang. cbn [append].
  repeat match goal with
         | H : Ascii.eqb "-" ?a = true |- _ =>
             apply Ascii.eqb_eq in H; subst a
         | H : JS.is_digit ?a = true |- _ =>
             apply digit_not_blank in H
         end.
  cbn [JS.split].
  repeat match goal with
         | H : Ascii.eqb ?a " " = false |- _ => rewrite H; clear H
         end.
  reflexivity.
Qed.

Lemma split_head_app (sep : ascii) (a rest : string) :
  JS.split sep a = [a] ->
  exists r l, JS.split sep (a ++ rest) = (a ++ r) :: l.
Proof.
  induction a as [|c a IH]; intros H.
  - cbn [append]. destruct (JS.split sep rest) as [|x l] eqn:E.
    + now destruct (split_nonempty sep rest).
    + now exists x, l.
  - cbn [JS.split] in H. destruct (Ascii.eqb c sep) eqn:Ec; [discriminate|].
    destruct (JS.split sep a) as [|x xs] eqn:Es;
      [now destruct (split_nonempty sep a)|].
    injection H as Hx Hxs. subst x xs.
    destruct (IH eq_refl) as [r [l E]].
    exists r, l. cbn [append JS.split]. now rewrite Ec, E.
Qed.

(** X24: a text that starts with a date YYYY-MM-DD is read without asking the
    date parser of the engine: the date alone is kept as it is, what follows
    a space after it (a time of day) is dropped, and in every case the
    result starts with the date. *)
Theorem parseDate_iso (date_parse : string -> option string)
    (d rest : string) :
  Spec.lang Parser.isoDate_re d ->
  Parser.parseDate date_parse d = Some d
  /\ Parser.parseDate date_parse (d ++ " " ++ rest) = Some d
  /\ exists r, Parser.parseDate date_parse (d ++ rest) = Some (d ++ r).
Proof.
  intros L.
  assert (T : forall tail,
             Parser.parseDate date_parse (d ++ tail)
             = Some (nth 0 (JS.split " " (d ++ tail)) "")).
  { intros tail. unfold Parser.parseDate, Regex.test_at_start.
    rewrite (ways_isoDate d tail [] L).
    destruct (isoDate_head d L) as [a [t [-> _]]]. reflexivity. }
  pose proof (iso_one_field d L) as S1.
  split; [|split].
  - pose proof (T "") as E. rewrite append_nil_r in E. rewrite E, S1.
    reflexivity.
  - rewrite T.
    change (d ++ " " ++ rest) with (d ++ String " " rest).
    rewrite (split_one_app " " d rest S1). reflexivity.
  - rewrite T. destruct (split_head_app " " d rest S1) as [r [l ->]].
    now exists r.
Qed.

Lemma parseDate_iso_witness :
  Parser.parseDate Samples.iso_only "2025-09-02" = Some "2025-09-02"
  /\ Parser.parseDate Samples.iso_only ("2025-09-02" ++ " " ++ "00:00:00")
     = Some "2025-09-02"
  /\ exists r,
       Parser.parseDate Samples.iso_only ("2025-09-02" ++ "00:00:00")
       = Some ("2025-09-02" ++ r).
Proof.
  apply (parseDate_iso Samples.iso_only "2025-09-02").
  change "2025-09-02"
    with ("2" ++ "0" ++ "2" ++ "5" ++ "-" ++ "0" ++ "9" ++ "-" ++ "0" ++ "2").
  unfold Parser.isoDate_re, Regex.seqs, Regex.lit, Regex.lit_char, Regex.digit.
  repeat (apply Spec.lang_seq; [now apply Spec.lang_chr|]).
  now apply Spec.lang_chr.
Defined.

(** ** When two event identifiers are equal *)

Lemma append_same_length (a b s t : string) :
  a ++ s = b ++ t -> String.length s = String.length t -> a = b /\ s = t.
Proof.
  revert b. induction a as [|c a IH]; intros b H Hl.
  - destruct b as [|d b]; [now split|].
    cbn [append] in H. apply (f_equal String.length) in H.
    cbn [String.length] in H. rewrite length_append in H. lia.
  - destruct b as [|d b].
    + cbn [append] in H. apply (f_equal String.length) in H.
      cbn [String.length] in H. rewrite length_append in H. lia.
    + cbn [append] in H. injection H as -> H.
      destruct (IH b H Hl) as [-> ->]. now split.
Qed.

Lemma digit_char_inj (a b : Z) :
  0 <= a < 10 -> 0 <= b < 10 -> JS.digit_char a = JS.digit_char b -> a = b.
Proof.
  intros Ha Hb H. unfold JS.digit_char in H.
  apply (f_equal N_of_ascii) in H.
  rewrite !N_ascii_embedding in H by lia. lia.
Qed.

Lemma digits_of_acc (fuel : nat) : forall n acc,
  JS.digits_of fuel n acc = JS.digits_of fuel n "" ++ acc.
Proof.
  induction fuel as [|f IH]; intros n acc; cbn [JS.digits_of].
  - reflexivity.
  - destruct (n / 10 =? 0); [reflexivity|].
    rewrite (IH (n / 10) (String _ acc)), (IH (n / 10) (String _ "")).
    now rewrite append_assoc.
Qed.

Lemma digits_of_cases (fuel : nat) (n : Z) :
  0 <= n < 2 ^ (Z.of_nat fuel + 1) ->
  (n / 10 = 0
   /\ JS.digits_of fuel n "" = String (JS.digit_char (n mod 10)) "")
  \/ (exists f, fuel = S f /\ n / 10 <> 0
                /\ 0 <= n / 10 < 2 ^ (Z.of_nat f + 1)
                /\ JS.digits_of fuel n ""
                   = JS.digits_of f (n / 10) ""
                     ++ String (JS.digit_char (n mod 10)) "").
Proof.
  intros Hn. destruct fuel as [|f].
  - left. cbn in Hn. split; [|reflexivity].
    apply Z.div_small. lia.
  - cbn [JS.digits_of]. destruct (Z.eqb_spec (n / 10) 0) as [E|E].
    + left. now split.
    + right. exists f. split; [reflexivity|]. split; [exact E|].
      split; [|apply digits_of_acc].
      replace (Z.of_nat (S f) + 1) with (Z.succ (Z.of_nat f + 1)) in Hn by lia.
      rewrite Z.pow_succ_r in Hn by lia.
      split; [apply Z.div_pos; lia|].
      apply Z.div_lt_upper_bound; lia.
Qed.

Lemma digits_of_nonempty (fuel : nat) (n : Z) :
  (1 <= String.length (JS.digits_of fuel n ""))%nat.
Proof.
  destruct fuel as [|f]; cbn [JS.digits_of]; [cbn; lia|].
  destruct (n / 10 =? 0); [cbn; lia|].
  rewrite digits_of_acc, length_append. cbn. lia.
Qed.

Lemma digits_of_inj (f1 : nat) : forall n1 f2 n2,
  0 <= n1 < 2 ^ (Z.of_nat f1 + 1) -> 0 <= n2 < 2 ^ (Z.of_nat f2 + 1) ->
  JS.digits_of f1 n1 "" = JS.digits_of f2 n2 "" -> n1 = n2.
Proof.
  induction f1 as [|f1 IH]; intros n1 f2 n2 H1 H2 E;
    destruct (digits_of_cases _ n1 H1) as [[D1 R1]|[g1 [F1 [D1 [B1 R1]]]]];
    destruct (digits_of_cases f2 n2 H2) as [[D2 R2]|[g2 [F2 [D2 [B2 R2]]]]];
    try discriminate F1; rewrite R1, R2 in E.
  - injection E as E. apply digit_char_inj in E;
      [|apply Z.mod_pos_bound; lia|apply Z.mod_pos_bound; lia].
    rewrite (Z.div_mod n1 10), (Z.div_mod n2 10) by lia. lia.
  - apply (f_equal String.length) in E. rewrite length_append in E.
    pose proof (digits_of_nonempty g2 (n2 / 10)). cbn in E. lia.
  - injection E as E. apply digit_char_inj in E;
      [|apply Z.mod_pos_bound; lia|apply Z.mod_pos_bound; lia].
    rewrite (Z.div_mod n1 10), (Z.div_mod n2 10) by lia. lia.
  - apply (f_equal String.length) in E. rewrite length_append in E.
    pose proof (digits_of_nonempty g2 (n2 / 10)). cbn in E. lia.
  - apply (f_equal String.length) in E. rewrite length_append in E.
    pose proof (digits_of_nonempty g1 (n1 / 10)). cbn in E. lia.
  - injection F1 as <-.
    apply append_same_length in E; [|reflexivity].
    destruct E as [E Ed]. injection Ed as Ed.
    apply digit_char_inj in Ed;
      [|apply Z.mod_pos_bound; lia|apply Z.mod_pos_bound; lia].
    pose proof (IH (n1 / 10) g2 (n2 / 10) B1 B2 E) as Eq.
    rewrite (Z.div_mod n1 10), (Z.div_mod n2 10) by lia. lia.
Qed.

Lemma log2_fuel (n : Z) :
  0 <= n -> 0 <= n < 2 ^ (Z.of_nat (Z.to_nat (Z.log2 n)) + 1).
Proof.
  intros Hn. rewrite Z2Nat.id by apply Z.log2_nonneg.
  destruct (Z.eq_dec n 0) as [->|Hz]; [cbn; lia|].
  pose proof (Z.log2_spec n ltac:(lia)) as [_ H].
  replace (Z.log2 n + 1) with (Z.succ (Z.log2 n)) by lia. lia.
Qed.

Lemma toString_inj (a b : Z) :
  0 <= a -> 0 <= b ->
  JS.toString (JS.Int a) = JS.toString (JS.Int b) -> a = b.
Proof.
  intros Ha Hb. unfold JS.toString, JS.nat_string.
  replace (a <? 0) with false by (symmetry; apply Z.ltb_ge; lia).
  replace (b <? 0) with false by (symmetry; apply Z.ltb_ge; lia).
  apply digits_of_inj; now apply log2_fuel.
Qed.

Lemma digit_char_no_dash (n : Z) :
  Uid.is_dash (JS.digit_char (n mod 10)) = false.
Proof.
  pose proof (Z.mod_pos_bound n 10 ltac:(lia)) as H.
  assert (Hc : n mod 10 = 0 \/ n mod 10 = 1 \/ n mod 10 = 2 \/ n mod 10 = 3
               \/ n mod 10 = 4 \/ n mod 10 = 5 \/ n mod 10 = 6
               \/ n mod 10 = 7 \/ n mod 10 = 8 \/ n mod 10 = 9) by lia.
  repeat (destruct Hc as [->|Hc]; [reflexivity|]). now rewrite Hc.
Qed.

Lemma digits_of_no_dash (fuel : nat) : forall n acc,
  Escape.count_if Uid.is_dash acc = 0%nat ->
  Escape.count_if Uid.is_dash (JS.digits_of fuel n acc) = 0%nat.
Proof.
  induction fuel as [|f IH]; intros n acc H; cbn [JS.digits_of].
  - cbn [Escape.count_if]. now rewrite digit_char_no_dash.
  - destruct (n / 10 =? 0).
    + cbn [Escape.count_if]. now rewrite digit_char_no_dash.
    + apply IH. cbn [Escape.count_if]. now rewrite digit_char_no_dash.
Qed.

Lemma toString_no_dash (z : Z) :
  0 <= z -> Escape.count_if Uid.is_dash (JS.toString (JS.Int z)) = 0%nat.
Proof.
  intros Hz. unfold JS.toString, JS.nat_string.
  replace (z <? 0) with false by (symmetry; apply Z.ltb_ge; lia).
  now apply digits_of_no_dash.
Qed.

Lemma dash_not_alnum (c : ascii) :
  Uid.is_dash c = true -> negb (JS.is_alnum c) = true.
Proof.
  unfold Uid.is_dash. intros H. apply Ascii.eqb_eq in H. now subst c.
Qed.

(** A text is cut at its last dash in one way only. *)
Lemma last_dash (p1 : string) : forall p2 t1 t2,
  Escape.count_if Uid.is_dash t1 = 0%nat ->
  Escape.count_if Uid.is_dash t2 = 0%nat ->
  p1 ++ String "-" t1 = p2 ++ String "-" t2 -> p1 = p2 /\ t1 = t2.
Proof.
  induction p1 as [|c p1 IH]; intros p2 t1 t2 H1 H2 E.
  - destruct p2 as [|d p2]; cbn [append] in E.
    + injection E as E. now split.
    + injection E as _ E. subst t1.
      rewrite count_if_app in H1. cbn in H1. lia.
  - destruct p2 as [|d p2]; cbn [append] in E.
    + injection E as _ E. subst t2.
      rewrite count_if_app in H2. cbn in H2. lia.
    + injection E as -> E. destruct (IH p2 t1 t2 H1 H2 E) as [-> ->].
      now split.
Qed.

Lemma generateUID_parts (ts : Z) (c : Course) (m : Meeting) :
  Calendar.generateUID ts c m
  = ((Uid.courseId c ++ String "-" (Uid.meetingId m))
     ++ String "-" (JS.toString (JS.Int ts))) ++ "@workday-cal".
Proof.
  unfold Calendar.generateUID, Uid.courseId, Uid.meetingId.
  cbv zeta. repeat (rewrite append_assoc; cbn [append]). reflexivity.
Qed.

Lemma generateUID_inj (ts1 ts2 : Z) (c1 c2 : Course) (m1 m2 : Meeting) :
  0 <= ts1 -> 0 <= ts2 ->
  Calendar.generateUID ts1 c1 m1 = Calendar.generateUID ts2 c2 m2 ->
  Uid.courseId c1 = Uid.courseId c2
  /\ Uid.meetingId m1 = Uid.meetingId m2
  /\ ts1 = ts2.
Proof.
  intros H1 H2. rewrite !generateUID_parts. intros E.
  apply append_same_length in E; [|reflexivity]. destruct E as [E _].
  apply last_dash in E; try (now apply toString_no_dash).
  destruct E as [E Et]. apply toString_inj in Et; try assumption.
  apply last_dash in E;
    try (apply count_if_removed; exact dash_not_alnum).
  destruct E as [Ec Em]. split; [exact Ec|]. split; [exact Em | exact Et].
Qed.

(** X25: two event identifiers made at non-negative clock readings are equal
    exactly when the course codes agree up to white space, the start dates
    and day sets agree up to their letters and digits, and the clock
    readings are the same. *)
Theorem generateUID_equal (ts1 ts2 : Z) (c1 c2 : Course) (m1 m2 : Meeting) :
  0 <= ts1 -> 0 <= ts2 ->
  Calendar.generateUID ts1 c1 m1 = Calendar.generateUID ts2 c2 m2
  <-> Uid.courseId c1 = Uid.courseId c2
      /\ Uid.meetingId m1 = Uid.meetingId m2
      /\ ts1 = ts2.
Proof.
  intros H1 H2. split.
  - now apply generateUID_inj.
  - intros [Ec [Em ->]]. now rewrite !generateUID_parts, Ec, Em.
Qed.

Lemma generateUID_equal_witness :
  Calendar.generateUID 1762153200123 (Samples.bare_course []) Samples.lecture
  = Calendar.generateUID 1762153200123 (Samples.bare_course [])
      Samples.tutorial.
Proof.
  apply (proj2 (generateUID_equal 1762153200123 1762153200123
                  (Samples.bare_course []) (Samples.bare_course [])
                  Samples.lecture Samples.tutorial ltac:(lia) ltac:(lia))).
  repeat split.
Defined.

Lemma stamped_In {zone : JSDate.Zone}
    clock (pairs : list (Course * Meeting)) : forall t e,
  In e (Layout.stamped clock t pairs) ->
  exists k c m, (t <= k)%nat /\ e = Calendar.recurring_event (clock k) c m.
Proof.
  induction pairs as [|[c m] rest IH]; intros t e H;
    cbn [Layout.stamped] in H.
  - destruct H.
  - destruct H as [<-|H].
    + exists t, c, m. split; [lia | reflexivity].
    + destruct (IH (S t) e H) as [k [c' [m' [Hk ->]]]].
      exists k, c', m'. split; [lia | reflexivity].
Qed.

(** X26: when the clock never goes below zero and never reads the same value
    twice, the events of a calendar have pairwise distinct identifiers. *)
Theorem uids_distinct {zone : JSDate.Zone}
    (clock : Calendar.Clock) (courses : list Course) :
  (forall i, 0 <= clock i) ->
  (forall i j, clock i = clock j -> i = j) ->
  NoDup (map uid (Calendar.generated_events clock courses)).
Proof.
  intros Hpos Hinj. unfold Calendar.generated_events.
  rewrite course_events_stamped. cbn [fst].
  generalize (Layout.course_meetings courses) as pairs.
  generalize 0%nat as t.
  intros t pairs. revert t.
  induction pairs as [|[c m] rest IH]; intros t; cbn [Layout.stamped map].
  - constructor.
  - constructor; [|apply IH].
    intros Hin. apply in_map_iff in Hin. destruct Hin as [e [Eu He]].
    destruct (stamped_In clock rest (S t) e He) as [k [c' [m' [Hk ->]]]].
    cbn [uid Calendar.recurring_event] in Eu.
    apply generateUID_inj in Eu; try apply Hpos.
    destruct Eu as [_ [_ Et]]. apply Hinj in Et. lia.
Qed.

Lemma uids_distinct_witness :
  NoDup (map uid (Calendar.generated_events (zone := Zones.utc)
      Uid.ticking Samples.twin_courses)).
Proof.
  apply (uids_distinct (zone := Zones.utc) Uid.ticking Samples.twin_courses).
  - intros i. unfold Uid.ticking. lia.
  - intros i j. unfold Uid.ticking. lia.
Defined.
